(** * seo_audit.py: crawler and analyzer, embedded and verified

    A shallow embedding of [seo_audit.py] (link normalisation, page
    extraction, the breadth-first crawl and the cross-page analysis).

    Conventions.
    - A Python [str] is a [string]; its characters are the code points
      below 256.
    - Python [int] is [Z]; lengths and counters that Python keeps in a
      [Counter] are [nat].
    - A Python [dict] keeps insertion order, and the analyzer depends on
      it ([Counter.most_common] breaks ties by it), so a dict is an
      association list whose keys are distinct ([Dict.set] keeps them so).
    - An exception that the source does not catch is a [Raise] of the
      error monad [result].
    - Calls into third-party libraries (requests, BeautifulSoup,
      tldextract, ipaddress, unicodedata) and the completion order of the
      thread pool are the methods of the classes [UrlChecks] and [Web].
    - [urllib.parse] is embedded from CPython 3.11. *)

From Stdlib Require Import ZArith Ascii String List Bool Lia DecimalString.
From stdpp Require Import base tactics option list strings gmap sorting.

Local Open Scope string_scope.
Local Open Scope list_scope.
Local Open Scope Z_scope.

(** ** The error monad *)

Inductive exn : Set :=
| ValueError (msg : string)
| KeyError (key : string).

Inductive result (A : Type) : Type :=
| Ok (a : A)
| Raise (e : exn).
Arguments Ok {A} a.
Arguments Raise {A} e.

Global Instance result_ret : MRet result := fun A a => Ok a.

Global Instance result_bind : MBind result := fun A B k m =>
  match m with
  | Ok a => k a
  | Raise e => Raise e
  end.

(** [for x in l: st = body(st, x)], stopping at the first exception. *)
Fixpoint for_each {A S} (body : S -> A -> result S) (l : list A) (st : S)
  : result S :=
  match l with
  | [] => Ok st
  | x :: l' => st' ← body st x; for_each body l' st'
  end.

(** ** Python strings *)

Module Py.

Definition ord (c : ascii) : N := N_of_ascii c.

Definition between (lo hi : N) (c : ascii) : bool :=
  ((lo <=? ord c) && (ord c <=? hi))%N.

(** [str.isspace] on the code points below 256. *)
Definition isspace (c : ascii) : bool :=
  between 9 13 c || between 28 32 c
  || (ord c =? 133)%N || (ord c =? 160)%N.

Definition isascii (c : ascii) : bool := (ord c <? 128)%N.
Definition is_upper (c : ascii) : bool := between 65 90 c.
Definition is_lower (c : ascii) : bool := between 97 122 c.
Definition is_letter (c : ascii) : bool := is_upper c || is_lower c.
Definition is_digit (c : ascii) : bool := between 48 57 c.

(** [str.lower] on the code points below 256: the ASCII capitals and
    the Latin-1 capitals (U+00C0..U+00DE without the sign U+00D7). *)
Definition lower_char (c : ascii) : ascii :=
  if is_upper c || (between 192 222 c && negb (ord c =? 215)%N)
  then ascii_of_N (ord c + 32) else c.

Fixpoint lower (s : string) : string :=
  match s with
  | EmptyString => EmptyString
  | String c s' => String (lower_char c) (lower s')
  end.

Fixpoint lstrip (p : ascii -> bool) (s : string) : string :=
  match s with
  | EmptyString => EmptyString
  | String c s' => if p c then lstrip p s' else s
  end.

Fixpoint rstrip (p : ascii -> bool) (s : string) : string :=
  match s with
  | EmptyString => EmptyString
  | String c s' =>
      match rstrip p s' with
      | EmptyString => if p c then EmptyString else String c EmptyString
      | r => String c r
      end
  end.

(** [s.strip()] *)
Definition strip (s : string) : string := lstrip isspace (rstrip isspace s).

Definition startswith (s pre : string) : bool := String.prefix pre s.

Fixpoint all_chars (p : ascii -> bool) (s : string) : bool :=
  match s with
  | EmptyString => true
  | String c s' => p c && all_chars p s'
  end.

Fixpoint contains (c : ascii) (s : string) : bool :=
  match s with
  | EmptyString => false
  | String d s' => Ascii.eqb c d || contains c s'
  end.

(** [s.replace(c, "")] for every [c] with [p c]. *)
Fixpoint remove_chars (p : ascii -> bool) (s : string) : string :=
  match s with
  | EmptyString => EmptyString
  | String c s' =>
      if p c then remove_chars p s' else String c (remove_chars p s')
  end.

(** The longest prefix without a character of [p], and the rest. *)
Fixpoint break (p : ascii -> bool) (s : string) : string * string :=
  match s with
  | EmptyString => (EmptyString, EmptyString)
  | String c s' =>
      if p c then (EmptyString, s)
      else let '(a, b) := break p s' in (String c a, b)
  end.

(** [s.split(c, 1)] when [c] occurs in [s]: the text before the first
    [c] and the text after it. *)
Definition cut (c : ascii) (s : string) : option (string * string) :=
  match break (Ascii.eqb c) s with
  | (a, String _ b) => Some (a, b)
  | (_, EmptyString) => None
  end.

(** [s.split(c)] *)
Fixpoint split (c : ascii) (s : string) : list string :=
  match s with
  | EmptyString => [EmptyString]
  | String d s' =>
      match split c s' with
      | w :: ws => if Ascii.eqb c d then EmptyString :: w :: ws
                   else String d w :: ws
      | [] => [EmptyString]
      end
  end.

(** [sep.join(l)] *)
Fixpoint join (sep : string) (l : list string) : string :=
  match l with
  | [] => EmptyString
  | [w] => w
  | w :: ws => w +:+ sep +:+ join sep ws
  end.

(** Truth value of a str. *)
Definition truthy (s : string) : bool :=
  match s with EmptyString => false | _ => true end.

(** [s[:2]] *)
Definition take2 (s : string) : string :=
  match s with
  | String a (String b _) => String a (String b EmptyString)
  | _ => s
  end.

(** [s[:1]] *)
Definition take1 (s : string) : string :=
  match s with
  | String a _ => String a EmptyString
  | _ => s
  end.

Definition drop2 (s : string) : string :=
  match s with
  | String _ (String _ r) => r
  | _ => EmptyString
  end.

Definition in_list (s : string) (l : list string) : bool :=
  existsb (String.eqb s) l.

End Py.

(** ** urllib.parse (CPython 3.11) *)

(** The two validations of [urlsplit] that call into other libraries:
    [_check_bracketed_netloc] (module [ipaddress]) and the NFKC test of
    [_checknetloc] (module [unicodedata]).  [true] means that the check
    passes, [false] that it raises [ValueError]. *)
Class UrlChecks := {
  check_bracketed_netloc : string -> bool;
  nfkc_netloc_ok : string -> bool
}.

Module Urllib.

Definition uses_relative : list string :=
  [""; "ftp"; "http"; "gopher"; "nntp"; "imap"; "wais"; "file"; "https";
   "shttp"; "mms"; "prospero"; "rtsp"; "rtspu"; "sftp"; "svn"; "svn+ssh";
   "ws"; "wss"].

Definition uses_netloc : list string :=
  [""; "ftp"; "http"; "gopher"; "nntp"; "telnet"; "imap"; "wais"; "file";
   "mms"; "https"; "shttp"; "snews"; "prospero"; "rtsp"; "rtspu"; "rsync";
   "svn"; "svn+ssh"; "sftp"; "nfs"; "git"; "git+ssh"; "ws"; "wss"].

Definition uses_params : list string :=
  [""; "ftp"; "hdl"; "prospero"; "http"; "imap"; "https"; "shttp"; "rtsp";
   "rtspu"; "sip"; "sips"; "mms"; "sftp"; "tel"].

Definition scheme_char (c : ascii) : bool :=
  Py.is_letter c || Py.is_digit c
  || Ascii.eqb c "+" || Ascii.eqb c "-" || Ascii.eqb c ".".

(** [_WHATWG_C0_CONTROL_OR_SPACE] *)
Definition c0_or_space (c : ascii) : bool := (Py.ord c <=? 32)%N.

(** [_UNSAFE_URL_BYTES_TO_REMOVE] *)
Definition unsafe_byte (c : ascii) : bool :=
  Ascii.eqb c "009" || Ascii.eqb c "013" || Ascii.eqb c "010".

Record SplitResult := mkSplit {
  s_scheme : string; s_netloc : string; s_path : string;
  s_query : string; s_fragment : string
}.

Record ParseResult := mkParse {
  scheme : string; netloc : string; path : string; params : string;
  query : string; fragment : string
}.

Definition netloc_delim (c : ascii) : bool :=
  Ascii.eqb c "/" || Ascii.eqb c "?" || Ascii.eqb c "#".

(** [_splitnetloc(url, 2)] *)
Definition splitnetloc2 (url : string) : string * string :=
  Py.break netloc_delim (Py.drop2 url).

(** The scheme test of [urlsplit]: [url.find(':') > 0], a first
    character that is an ASCII letter, and only [scheme_chars] before
    the colon. *)
Definition split_scheme (url dflt : string) : string * string :=
  match Py.cut ":" url with
  | Some (String c0 pre, rest) =>
      if Py.isascii c0 && Py.is_letter c0
         && Py.all_chars scheme_char (String c0 pre)
      then (Py.lower (String c0 pre), rest)
      else (dflt, url)
  | _ => (dflt, url)
  end.

Section WithChecks.
Context `{UrlChecks}.

(** [_checknetloc] *)
Definition checknetloc (nl : string) : result unit :=
  if negb (Py.truthy nl) || Py.all_chars Py.isascii nl then Ok tt
  else if nfkc_netloc_ok nl then Ok tt
       else Raise (ValueError "netloc contains invalid characters under NFKC normalization").

(** The bracket tests that follow [_splitnetloc] in [urlsplit]. *)
Definition check_brackets (nl : string) : result unit :=
  let o := Py.contains "[" nl in
  let c := Py.contains "]" nl in
  if (o && negb c) || (c && negb o)
  then Raise (ValueError "Invalid IPv6 URL")
  else if o && c
       then if check_bracketed_netloc nl then Ok tt
            else Raise (ValueError "Invalid IPv6 URL")
       else Ok tt.

(** [urlsplit(url, scheme)] with [allow_fragments=True] *)
Definition urlsplit (url dflt : string) : result SplitResult :=
  let url := Py.lstrip c0_or_space url in
  let dflt := Py.lstrip c0_or_space (Py.rstrip c0_or_space dflt) in
  let url := Py.remove_chars unsafe_byte url in
  let dflt := Py.remove_chars unsafe_byte dflt in
  let '(sch, url) := split_scheme url dflt in
  '(nl, url) ←
    (if String.eqb (Py.take2 url) "//"
     then let '(nl, rest) := splitnetloc2 url in
          _ ← check_brackets nl; Ok (nl, rest)
     else Ok (EmptyString, url));
  let '(url, frag) :=
    match Py.cut "#" url with
    | Some (a, b) => (a, b)
    | None => (url, EmptyString)
    end in
  let '(url, qry) :=
    match Py.cut "?" url with
    | Some (a, b) => (a, b)
    | None => (url, EmptyString)
    end in
  _ ← checknetloc nl;
  Ok (mkSplit sch nl url qry frag).

(** [url[:k], url[k:]] for [k = url.rfind('/') + 1]. *)
Fixpoint rsplit_slash (url : string) : string * string :=
  match url with
  | EmptyString => (EmptyString, EmptyString)
  | String c r =>
      match rsplit_slash r with
      | (EmptyString, t) =>
          if Ascii.eqb c "/" then (String c EmptyString, t)
          else (EmptyString, String c t)
      | (h, t) => (String c h, t)
      end
  end.

(** [_splitparams]: cut at the first [';'] at or after the last
    ['/'] (anywhere when there is no ['/']). *)
Definition splitparams (url : string) : string * string :=
  let '(h, t) := rsplit_slash url in
  match Py.cut ";" t with
  | Some (a, b) => (h +:+ a, b)
  | None => (url, EmptyString)
  end.

(** [urlparse(url, scheme)] *)
Definition urlparse (url dflt : string) : result ParseResult :=
  sp ← urlsplit url dflt;
  let '(p, prm) :=
    if Py.in_list (s_scheme sp) uses_params && Py.contains ";" (s_path sp)
    then splitparams (s_path sp)
    else (s_path sp, EmptyString) in
  Ok (mkParse (s_scheme sp) (s_netloc sp) p prm (s_query sp)
              (s_fragment sp)).

(** [urlunsplit] *)
Definition urlunsplit (sch nl url qry frag : string) : string :=
  let url :=
    if Py.truthy nl
       || (Py.truthy sch && Py.in_list sch uses_netloc
           && negb (String.eqb (Py.take2 url) "//"))
    then
      let url := if Py.truthy url && negb (String.eqb (Py.take1 url) "/")
                 then "/" +:+ url else url in
      "//" +:+ nl +:+ url
    else url in
  let url := if Py.truthy sch then sch +:+ ":" +:+ url else url in
  let url := if Py.truthy qry then url +:+ "?" +:+ qry else url in
  if Py.truthy frag then url +:+ "#" +:+ frag else url.

(** [urlunparse] *)
Definition urlunparse (p : ParseResult) : string :=
  let url := if Py.truthy (params p) then path p +:+ ";" +:+ params p
             else path p in
  urlunsplit (scheme p) (netloc p) url (query p) (fragment p).

(** [ParseResult.geturl] *)
Definition geturl (p : ParseResult) : string := urlunparse p.

(** [parsed._replace(fragment=f)] *)
Definition replace_fragment (p : ParseResult) (f : string) : ParseResult :=
  mkParse (scheme p) (netloc p) (path p) (params p) (query p) f.

(** [segments[1:-1] = filter(None, segments[1:-1])] *)
Definition filter_middle (segments : list string) : list string :=
  match segments with
  | [] => []
  | x :: r =>
      match last r with
      | None => [x]
      | Some z => x :: List.filter (fun s => Py.truthy s) (removelast r) ++ [z]
      end
  end.

(** The loop of [urljoin] over [segments]. *)
Fixpoint resolve (segments resolved_path : list string) : list string :=
  match segments with
  | [] => resolved_path
  | seg :: rest =>
      if String.eqb seg ".." then resolve rest (removelast resolved_path)
      else if String.eqb seg "." then resolve rest resolved_path
      else resolve rest (resolved_path ++ [seg])
  end.

(** [urljoin(base, url)] *)
Definition urljoin (base url : string) : result string :=
  if negb (Py.truthy base) then Ok url
  else if negb (Py.truthy url) then Ok base
  else
    b ← urlparse base "";
    u ← urlparse url (scheme b);
    if negb (String.eqb (scheme u) (scheme b))
       || negb (Py.in_list (scheme u) uses_relative)
    then Ok url
    else if Py.in_list (scheme u) uses_netloc && Py.truthy (netloc u)
    then Ok (urlunparse u)
    else
      let nl := if Py.in_list (scheme u) uses_netloc then netloc b
                else netloc u in
      if negb (Py.truthy (path u)) && negb (Py.truthy (params u))
      then
        let qry := if negb (Py.truthy (query u)) then query b
                   else query u in
        Ok (urlunparse (mkParse (scheme u) nl (path b) (params b) qry
                                (fragment u)))
      else
        let base_parts := Py.split "/" (path b) in
        let base_parts :=
          match last base_parts with
          | Some EmptyString => base_parts
          | _ => removelast base_parts
          end in
        let segments :=
          if String.eqb (Py.take1 (path u)) "/"
          then Py.split "/" (path u)
          else filter_middle (base_parts ++ Py.split "/" (path u)) in
        let resolved_path := resolve segments [] in
        let resolved_path :=
          match last segments with
          | Some seg =>
              if String.eqb seg "." || String.eqb seg ".."
              then resolved_path ++ [EmptyString] else resolved_path
          | None => resolved_path
          end in
        let joined := Py.join "/" resolved_path in
        Ok (urlunparse
              (mkParse (scheme u) nl
                       (if Py.truthy joined then joined else "/")
                       (params u) (query u) (fragment u))).

End WithChecks.

End Urllib.

(** ** Link normalisation *)

Section Normalizer.
Context `{UrlChecks}.

(** [norm_url(base, link)]; [link] is [None] for an anchor without
    [href]. *)
Definition norm_url (base : string) (link : option string)
  : result (option string) :=
  match link with
  | None => Ok None
  | Some link =>
      if negb (Py.truthy link) then Ok None
      else
        let link := Py.strip link in
        if Py.startswith link "javascript:" || Py.startswith link "mailto:"
           || Py.startswith link "tel:"
        then Ok None
        else
          joined ← Urllib.urljoin base link;
          parsed ← Urllib.urlparse joined "";
          if negb (Py.in_list (Urllib.scheme parsed) ["http"; "https"])
          then Ok None
          else Ok (Some (Urllib.geturl (Urllib.replace_fragment parsed "")))
  end.

End Normalizer.

(** ** Dictionaries and counters *)

Module Dict.
Section Dict.
Context {V : Type}.

Definition t := list (string * V).

Definition keys (d : list (string * V)) : list string := map fst d.

(** [d.get(k)] *)
Fixpoint get (k : string) (d : list (string * V)) : option V :=
  match d with
  | [] => None
  | (k', v) :: d' => if String.eqb k k' then Some v else get k d'
  end.

(** [k in d] *)
Definition mem (k : string) (d : list (string * V)) : bool :=
  match get k d with Some _ => true | None => false end.

(** [d[k] = v]: in place when [k] is a key, at the end otherwise. *)
Fixpoint set (k : string) (v : V) (d : list (string * V))
  : list (string * V) :=
  match d with
  | [] => [(k, v)]
  | (k', v') :: d' =>
      if String.eqb k k' then (k, v) :: d' else (k', v') :: set k v d'
  end.
End Dict.
End Dict.

Module Counter.

(** [c[k] += 1] *)
Definition incr (k : string) (c : list (string * nat)) : list (string * nat) :=
  Dict.set k (S (default 0%nat (Dict.get k c))) c.

(** [c.update(ks)] *)
Definition update (ks : list string) (c : list (string * nat))
  : list (string * nat) :=
  fold_left (fun c k => incr k c) ks c.

(** A stable sort: [x] is put after the elements that come strictly
    before it and in front of the rest, so equal elements keep the
    order they had. *)
Fixpoint insert_sorted {A} (before : A -> A -> bool) (x : A) (l : list A)
  : list A :=
  match l with
  | [] => [x]
  | y :: l' => if before y x then y :: insert_sorted before x l' else x :: l
  end.

Definition stable_sort {A} (before : A -> A -> bool) (l : list A) : list A :=
  foldr (insert_sorted before) [] l.

(** [c.most_common(n)]: [sorted(c.items(), key=count, reverse=True)[:n]] *)
Definition most_common (n : nat) (c : list (string * nat))
  : list (string * nat) :=
  take n (stable_sort (fun a b => (snd b <? snd a)%nat) c).

End Counter.

(** ** The outside world *)

(** [tldextract.extract(url)] *)
Record ExtractResult := mkExtract {
  subdomain : string; domain : string; suffix : string
}.

(** What [session.get(url, timeout=...)] does: it raises, or it returns
    a response after some time. *)
Record Response := mkResponse {
  r_status_code : Z; r_text : string; r_url : string;
  r_headers : list (string * string)
}.

Inductive GetOutcome :=
| GetRaised (str_e : string)
| GetReturned (r : Response) (elapsed_micros : Z).

(** An element: its attributes. *)
Record Tag := mkTag { attrs : list (string * string) }.

(** A value that [json.loads] returns; the audit only stores it. *)
Inductive json := JsonValue (document : string).

(** The answers of the parsed document to the queries of
    [extract_onpage]. *)
Record Soup := mkSoup {
  soup_title : option (option string);
      (* soup.title, and soup.title.string *)
  soup_meta : list Tag;                       (* find_all('meta') *)
  soup_canonical : option Tag;                (* find('link', rel=...) *)
  soup_h1 : list string;      (* get_text(strip=True) of find_all('h1') *)
  soup_h2 : list string;
  soup_img : list Tag;                        (* find_all('img') *)
  soup_a : list (Tag * string);   (* find_all('a'), with get_text(strip=True) *)
  soup_ldjson : list (option json);
      (* json.loads(s.string) of each ld+json script, None when it raises *)
  soup_text : string
      (* get_text(separator=' ', strip=True) without script/style/noscript *)
}.

Class Web := {
  tldextract_extract : string -> ExtractResult;
  session_get : string -> GetOutcome;
  BeautifulSoup : string -> Soup;
  (** The scheduler of the thread pool: among the pending fetches of a
      round, the position of the one that completes next. *)
  completes_next : nat -> list string -> nat
}.

(** ** Records of the crawl *)

(** The dict that [fetch] returns. *)
Inductive FetchResult :=
| FetchFailed (url error : string)
| Fetched (url : string) (status_code : Z) (elapsed : Z) (text : string)
          (final_url : string) (headers : list (string * string)).

Record Image := mkImage { src : string; alt : string }.
Record Link := mkLink { href : option string; text : string }.

(** The dict that [extract_onpage] returns. *)
Record OnPage := mkOnPage {
  title : string;
  meta_description : string;
  meta_robots : string;
  canonical : string;
  og : list (string * string);
  twitter : list (string * string);
  h1s : list string;
  h2s : list string;
  images : list Image;
  links : list Link;
  jsonld : list json;
  word_count : nat;
  words : list string;
  body_text : string
}.

(** An entry of [results], in the three shapes that [crawl] writes:
    [{'error': ..}], [{'http': .., 'final_url': ..}] and the entry of a
    page with its ['onpage'] record.  [None] is Python's [None]. *)
Inductive Entry :=
| ErrorEntry (error : string)
| HttpEntry (http : option Z) (final_url : option string)
| PageEntry (http : option Z) (final_url : option string) (elapsed : Z)
            (headers : list (string * string)) (onpage : OnPage).

Definition entry_http (r : Entry) : option Z :=
  match r with
  | ErrorEntry _ => None
  | HttpEntry h _ | PageEntry h _ _ _ _ => h
  end.

Definition entry_onpage (r : Entry) : option OnPage :=
  match r with
  | PageEntry _ _ _ _ on => Some on
  | _ => None
  end.

(** ** Words *)

Definition STOPWORDS : list string :=
  ["about"; "above"; "after"; "again"; "against"; "all"; "am"; "an"; "and";
   "any"; "are"; "aren't"; "as"; "at"; "be"; "because"; "been"; "before";
   "being"; "below"; "between"; "both"; "but"; "by"; "can't"; "cannot";
   "could"; "couldn't"; "did"; "didn't"; "do"; "does"; "doesn't"; "doing";
   "don't"; "down"; "during"; "each"; "few"; "for"; "from"; "further"; "had";
   "hadn't"; "has"; "hasn't"; "have"; "haven't"; "having"; "he"; "he'd";
   "he'll"; "he's"; "her"; "here"; "here's"; "hers"; "herself"; "him";
   "himself"; "his"; "how"; "how's"; "i"; "i'd"; "i'll"; "i'm"; "i've"; "if";
   "in"; "into"; "is"; "isn't"; "it"; "it's"; "its"; "itself"; "let's"; "me";
   "more"; "most"; "mustn't"; "my"; "myself"; "no"; "nor"; "not"; "of"; "off";
   "on"; "once"; "only"; "or"; "other"; "ought"; "our"; "ours"; "ourselves";
   "out"; "over"; "own"; "same"; "shan't"; "she"; "she'd"; "she'll"; "she's";
   "should"; "shouldn't"; "so"; "some"; "such"; "than"; "that"; "that's";
   "the"; "their"; "theirs"; "them"; "themselves"; "then"; "there";
   "there's"; "these"; "they"; "they'd"; "they'll"; "they're"; "they've";
   "this"; "those"; "through"; "to"; "too"; "under"; "until"; "up"; "very";
   "was"; "wasn't"; "we"; "we'd"; "we'll"; "we're"; "we've"; "were";
   "weren't"; "what"; "what's"; "when"; "when's"; "where"; "where's";
   "which"; "while"; "who"; "who's"; "whom"; "why"; "why's"; "with"; "won't";
   "would"; "wouldn't"; "you"; "you'd"; "you'll"; "you're"; "you've"; "your";
   "yours"; "yourself"; "yourselves"].

Definition is_stopword (w : string) : bool := Py.in_list w STOPWORDS.

(** [re.findall] of a pattern [[class]{2,}]: the maximal runs of
    characters of the class that are at least two characters long. *)
Fixpoint runs_from (cls : ascii -> bool) (s cur : string) : list string :=
  let flush := if (2 <=? String.length cur)%nat then [cur] else [] in
  match s with
  | EmptyString => flush
  | String c s' =>
      if cls c then runs_from cls s' (cur +:+ String c EmptyString)
      else flush ++ runs_from cls s' EmptyString
  end.

Definition findall_runs (cls : ascii -> bool) (s : string) : list string :=
  runs_from cls s EmptyString.

(** [WORD_RE = re.compile(r"[a-zA-Z]{2,}")] *)
Definition WORD_RE_findall (s : string) : list string :=
  findall_runs Py.is_letter s.

(** [re.findall(r"[a-zA-Z0-9\-\_ ]{2,}", s)] *)
Definition phrase_char (c : ascii) : bool :=
  Py.is_letter c || Py.is_digit c
  || Ascii.eqb c "-" || Ascii.eqb c "_" || Ascii.eqb c " ".

Definition PHRASE_RE_findall (s : string) : list string :=
  findall_runs phrase_char s.

(** ** Same site, fetch, extraction *)

Section Pages.
Context `{Web}.

Definition is_same_domain (start_url test_url : string) : bool :=
  let s := tldextract_extract start_url in
  let t := tldextract_extract test_url in
  String.eqb (domain s) (domain t) && String.eqb (suffix s) (suffix t).

(** [fetch(url)]: the [try] returns the response dict, the [except]
    the error dict. *)
Definition fetch (url : string) : FetchResult :=
  match session_get url with
  | GetReturned r elapsed =>
      Fetched url (r_status_code r) elapsed
              (if r_status_code r =? 200 then r_text r else "")
              (r_url r) (r_headers r)
  | GetRaised e => FetchFailed url e
  end.

(** [tag.get(name)] and [tag.get(name, '')] *)
Definition tag_get (t : Tag) (name : string) : option string :=
  Dict.get name (attrs t).

Definition tag_get_or_empty (t : Tag) (name : string) : string :=
  default "" (tag_get t name).

Definition opt_truthy (o : option string) : bool :=
  match o with Some s => Py.truthy s | None => false end.

(** The four fields that the loop over the meta tags assigns. *)
Record MetaState := mkMeta {
  m_desc : string; m_robots : string;
  m_og : list (string * string); m_twitter : list (string * string)
}.

(** The body of [for tag in soup.find_all('meta')]. *)
Definition meta_step (st : MetaState) (tag : Tag) : MetaState :=
  let name := Py.lower (tag_get_or_empty tag "name") in
  let content := tag_get tag "content" in
  let desc :=
    if String.eqb name "description" && opt_truthy content
    then Py.strip (default "" content) else m_desc st in
  let robots :=
    if String.eqb name "robots" && opt_truthy content
    then Py.strip (default "" content) else m_robots st in
  let og :=
    if Py.startswith (Py.lower (tag_get_or_empty tag "property")) "og:"
    then Dict.set (tag_get_or_empty tag "property")
                  (tag_get_or_empty tag "content") (m_og st)
    else m_og st in
  let twitter :=
    if Py.startswith name "twitter:"
    then Dict.set (tag_get_or_empty tag "name")
                  (tag_get_or_empty tag "content") (m_twitter st)
    else m_twitter st in
  mkMeta desc robots og twitter.

Definition meta_loop (tags : list Tag) : MetaState :=
  fold_left meta_step tags (mkMeta "" "" [] []).

(** [extract_onpage(url, html)] *)
Definition extract_onpage (url html : string) : OnPage :=
  let soup := BeautifulSoup html in
  let title :=
    match soup_title soup with
    | Some (Some s) => if Py.truthy s then Py.strip s else ""
    | _ => ""
    end in
  let m := meta_loop (soup_meta soup) in
  let canonical :=
    match soup_canonical soup with
    | Some link_can =>
        if opt_truthy (tag_get link_can "href")
        then Py.strip (tag_get_or_empty link_can "href") else ""
    | None => ""
    end in
  let images :=
    map (fun img => mkImage (tag_get_or_empty img "src")
                            (tag_get_or_empty img "alt")) (soup_img soup) in
  let links :=
    map (fun a => mkLink (tag_get (fst a) "href") (snd a)) (soup_a soup) in
  let jsonld := omap id (soup_ldjson soup) in
  let body_text := soup_text soup in
  let words := WORD_RE_findall (Py.lower body_text) in
  mkOnPage title (m_desc m) (m_robots m) canonical (m_og m) (m_twitter m)
           (soup_h1 soup) (soup_h2 soup) images links jsonld
           (length words) words body_text.

End Pages.

(** ** The crawl *)

Inductive Event :=
| Visited (url : string)       (* visited.add(url) *)
| Submitted (url : string).    (* ex.submit(fetch, url) *)

Record CrawlState := mkCrawl {
  visited : gset string;
  results : list (string * Entry);
  pages_crawled : Z;
  events : list Event
}.

Section Crawl.
Context `{UrlChecks} `{Web}.

(** The order in which [as_completed(futures)] yields the fetches of
    round [d]. *)
Fixpoint as_completed_from (d : nat) (fuel : nat) (pending : list string)
  : list string :=
  match fuel with
  | O => []
  | S fuel' =>
      let i := (completes_next d pending mod length pending)%nat in
      match pending !! i with
      | Some url => url :: as_completed_from d fuel' (delete i pending)
      | None => []
      end
  end.

Definition as_completed (d : nat) (futures : list string) : list string :=
  as_completed_from d (length futures) futures.

(** Lines 171-178: the loop that submits the fetches of a round.  The
    second component is [futures], in the order of submission. *)
Fixpoint dispatch (max_pages : Z) (to_visit : list string)
         (st : CrawlState) (futures : list string)
  : CrawlState * list string :=
  match to_visit with
  | [] => (st, futures)
  | url :: rest =>
      if max_pages <=? pages_crawled st then (st, futures)       (* break *)
      else if bool_decide (url ∈ visited st)
      then dispatch max_pages rest st futures                 (* continue *)
      else
        dispatch max_pages rest
          (mkCrawl ({[url]} ∪ visited st) (results st)
                   (pages_crawled st + 1)
                   (events st ++ [Visited url; Submitted url]))
          (futures ++ [url])
  end.

(** Lines 201-207: one anchor of a fetched page. *)
Definition collect_link (start_url url : string) (max_pages : Z)
           (st : CrawlState) (next_round : list string) (a : Link)
  : result (list string) :=
  norm ← norm_url url (href a);
  match norm with
  | None => Ok next_round
  | Some norm =>
      if negb (Py.truthy norm) then Ok next_round
      else if is_same_domain start_url norm
      then
        if negb (bool_decide (norm ∈ visited st))
           && negb (Py.in_list norm next_round)
           && (Z.of_nat (length next_round) + pages_crawled st <? max_pages)
        then Ok (next_round ++ [norm])
        else Ok next_round
      else Ok next_round
  end.

(** Lines 181-207: the body of [for fut in as_completed(futures)]. *)
Definition handle_result (start_url : string) (max_pages : Z)
           (acc : CrawlState * list string) (url : string)
  : result (CrawlState * list string) :=
  let '(st, next_round) := acc in
  let put e := mkCrawl (visited st) (Dict.set url e (results st))
                       (pages_crawled st) (events st) in
  match fetch url with
  | FetchFailed _ error =>
      if Py.truthy error then Ok (put (ErrorEntry error), next_round)
      else Ok (put (HttpEntry None None), next_round)
  | Fetched _ status_code elapsed html final_url headers =>
      if negb (status_code =? 200)
      then Ok (put (HttpEntry (Some status_code) (Some final_url)),
               next_round)
      else
        let onpage := extract_onpage url html in
        let st' := put (PageEntry (Some status_code) (Some final_url)
                                  elapsed headers onpage) in
        next_round' ← for_each (collect_link start_url url max_pages st')
                               (links onpage) next_round;
        Ok (st', next_round')
  end.

(** Lines 165-208: the rounds [d], [d+1], ... of
    [for d in range(depth + 1)], [n] of them. *)
Fixpoint crawl_rounds (n d : nat) (start_url : string)
         (max_pages workers : Z) (to_visit : list string) (st : CrawlState)
  : result CrawlState :=
  match n with
  | O => Ok st
  | S n' =>
      if max_pages <=? pages_crawled st then Ok st               (* break *)
      else if workers <=? 0
      then Raise (ValueError "max_workers must be greater than 0")
      else
        let '(st1, futures) := dispatch max_pages to_visit st [] in
        '(st2, next_round) ←
          for_each (handle_result start_url max_pages)
                   (as_completed d futures) (st1, []);
        crawl_rounds n' (S d) start_url max_pages workers next_round st2
  end.

(** The state in which [crawl] returns. *)
Definition crawl_run (start_url : string) (depth max_pages workers : Z)
  : result CrawlState :=
  let start_url := Py.rstrip (Ascii.eqb "/") start_url in
  crawl_rounds (Z.to_nat (depth + 1)) 0 start_url max_pages workers
               [start_url] (mkCrawl ∅ [] 0 []).

(** [crawl(start_url, depth, max_pages, workers)] *)
Definition crawl (start_url : string) (depth max_pages workers : Z)
  : result (list (string * Entry)) :=
  st ← crawl_run start_url depth max_pages workers;
  Ok (results st).

End Crawl.

(** ** The analysis *)

Inductive PageReport :=
| ReportError (error : string)
| ReportHttp (http : option Z)
| ReportPage (title : string) (title_length : nat)
             (meta_description : string) (meta_description_length : nat)
             (h1s : list string) (word_count : nat) (num_images : nat).

Record Broken := mkBroken { b_href : string; b_http : option Z }.

Record Candidate := mkCandidate {
  phrase : string; count : nat; overlap_with_top_unigrams : nat; score : nat
}.

(** The state of the first loop of [analyze]: the lists and dicts of
    [summary] that it fills, and the three counters. *)
Record Tally := mkTally {
  t_missing_title : list string;
  t_missing_meta_description : list string;
  t_missing_h1 : list string;
  t_thin_pages : list string;
  t_images_missing_alt : list (string * list string);
  t_broken_links : list (string * list Broken);
  t_per_page : list (string * PageReport);
  title_counts : list (string * nat);
  meta_counts : list (string * nat);
  word_counts : list (string * nat)
}.

(** [summary] without its checklist, which is built from these fields
    (see [checklist] below), and without the recommendations, a
    constant list of sentences. *)
Record Summary := mkSummary {
  total_pages : nat;
  pages_missing_title : list string;
  pages_missing_meta_description : list string;
  pages_missing_h1 : list string;
  thin_pages : list string;
  images_missing_alt : list (string * list string);
  broken_links : list (string * list Broken);
  duplicate_titles : list (string * nat);
  duplicate_meta_descriptions : list (string * nat);
  top_words : list (string * nat);
  per_page : list (string * PageReport);
  candidate_phrases : list Candidate
}.

(** [s.split()] *)
Fixpoint split_ws_from (s cur : string) : list string :=
  let flush := if Py.truthy cur then [cur] else [] in
  match s with
  | EmptyString => flush
  | String c s' =>
      if Py.isspace c then flush ++ split_ws_from s' EmptyString
      else split_ws_from s' (cur +:+ String c EmptyString)
  end.

Definition split_ws (s : string) : list string := split_ws_from s EmptyString.

Definition z_truthy (o : option Z) : bool :=
  match o with Some z => negb (z =? 0) | None => false end.

Definition is_200 (o : option Z) : bool :=
  match o with Some z => z =? 200 | None => false end.

Section Analysis.
Context `{UrlChecks} `{Web}.

(** Lines 273-284: one anchor of a page; the state is [broken] and
    [extern]. *)
Definition check_link (results : list (string * Entry)) (url : string)
           (acc : list Broken * list string) (a : Link)
  : result (list Broken * list string) :=
  let '(broken, extern) := acc in
  norm ← norm_url url (href a);
  match norm with
  | None => Ok acc
  | Some norm =>
      if negb (Py.truthy norm) then Ok acc
      else if is_same_domain url norm
      then
        match Dict.get norm results with
        | Some rr =>
            if z_truthy (entry_http rr) && negb (is_200 (entry_http rr))
            then Ok (broken ++ [mkBroken norm (entry_http rr)], extern)
            else Ok acc
        | None => Ok acc
        end
      else Ok (broken, extern ++ [norm])
  end.

(** Lines 235-236 and 239-240: the entry of a failed address. *)
Definition tally_report (st : Tally) (url : string) (page_report : PageReport)
  : Tally :=
  mkTally (t_missing_title st) (t_missing_meta_description st)
          (t_missing_h1 st) (t_thin_pages st) (t_images_missing_alt st)
          (t_broken_links st) (Dict.set url page_report (t_per_page st))
          (title_counts st) (meta_counts st) (word_counts st).

(** Lines 242-298 without the loop over the anchors, whose result is
    [broken]. *)
Definition tally_page (st : Tally) (url : string) (on : OnPage)
           (broken : list Broken) : Tally :=
  let title := title on in
  let meta := meta_description on in
  let h1s := h1s on in
  let wc := word_count on in
  let page_report :=
    ReportPage title (String.length title) meta (String.length meta) h1s wc
               (length (images on)) in
  let missing_alts :=
    map src (List.filter (fun img => negb (Py.truthy (alt img))) (images on)) in
  let words := List.filter (fun w => negb (is_stopword w)) (words on) in
  mkTally
    (if Py.truthy title then t_missing_title st
     else t_missing_title st ++ [url])
    (if Py.truthy meta then t_missing_meta_description st
     else t_missing_meta_description st ++ [url])
    (match h1s with
     | [] => t_missing_h1 st ++ [url]
     | _ => t_missing_h1 st
     end)
    (if (wc <? 300)%nat then t_thin_pages st ++ [url] else t_thin_pages st)
    (match missing_alts with
     | [] => t_images_missing_alt st
     | _ => Dict.set url missing_alts (t_images_missing_alt st)
     end)
    (match broken with
     | [] => t_broken_links st
     | _ => Dict.set url broken (t_broken_links st)
     end)
    (Dict.set url page_report (t_per_page st))
    (if Py.truthy title then Counter.incr title (title_counts st)
     else title_counts st)
    (if Py.truthy meta then Counter.incr meta (meta_counts st)
     else meta_counts st)
    (Counter.update words (word_counts st)).

(** Lines 232-298: the body of the first loop. *)
Definition analyze_page (results : list (string * Entry)) (st : Tally)
           (item : string * Entry) : result Tally :=
  let '(url, r) := item in
  match r with
  | ErrorEntry error => Ok (tally_report st url (ReportError error))
  | _ =>
      if negb (is_200 (entry_http r))
      then Ok (tally_report st url (ReportHttp (entry_http r)))
      else
        match entry_onpage r with
        | None => Raise (KeyError "onpage")
        | Some on =>
            '(broken, extern) ←
              for_each (check_link results url) (links on) ([], []);
            Ok (tally_page st url on broken)
        end
  end.

Definition analyze_loop (results : list (string * Entry)) : result Tally :=
  for_each (analyze_page results) results
           (mkTally [] [] [] [] [] [] [] [] [] []).

(** Lines 301-306: the entries of a counter that occur more than once. *)
Definition duplicates (counts : list (string * nat)) : list (string * nat) :=
  fold_left (fun d tc => if (1 <? snd tc)%nat then Dict.set (fst tc) (snd tc) d
                         else d) counts [].

(** Lines 323-326: one candidate run of a title or heading. *)
Definition count_phrase (phrase_counts : list (string * nat)) (c : string)
  : list (string * nat) :=
  let words := List.filter (fun w => negb (is_stopword w))
                      (WORD_RE_findall (Py.lower c)) in
  if (1 <=? length words)%nat && (length words <=? 5)%nat
  then Counter.incr (Py.join " " words) phrase_counts
  else phrase_counts.

(** Lines 313-326: the body of the second loop. *)
Definition phrases_of_page (phrase_counts : list (string * nat))
           (item : string * Entry) : list (string * nat) :=
  match entry_onpage (snd item) with
  | None => phrase_counts
  | Some on =>
      let candidates :=
        (if Py.truthy (title on) then PHRASE_RE_findall (title on) else [])
        ++ concat (map PHRASE_RE_findall (h1s on)) in
      fold_left count_phrase candidates phrase_counts
  end.

(** Lines 333-337: the score of one of the top phrases. *)
Definition score_phrase (top_unigram_set : list string) (pc : string * nat)
  : Candidate :=
  let '(phrase, cnt) := pc in
  let parts := split_ws phrase in
  let overlap :=
    length (List.filter (fun p => Py.in_list p top_unigram_set) parts) in
  mkCandidate phrase cnt overlap (cnt + overlap).

(** The order of [high_value.sort(key=lambda x: (-x[3], -x[1]))]. *)
Definition candidate_before (a b : Candidate) : bool :=
  (score b <? score a)%nat
  || ((score a =? score b)%nat && (count b <? count a)%nat).

(** Lines 328-340 *)
Definition rank_phrases (top_unigrams : list string)
           (phrase_counts : list (string * nat)) : list Candidate :=
  let top_phrases := Counter.most_common 40 phrase_counts in
  let high_value := map (score_phrase top_unigrams) top_phrases in
  take 40 (Counter.stable_sort candidate_before high_value).

(** [analyze(results)] *)
Definition analyze (results : list (string * Entry)) : result Summary :=
  st ← analyze_loop results;
  let top_words := Counter.most_common 80 (word_counts st) in
  let phrase_counts := fold_left phrases_of_page results [] in
  let top_unigram_set := map fst (take 120 top_words) in
  Ok (mkSummary
        (length results)
        (t_missing_title st) (t_missing_meta_description st)
        (t_missing_h1 st) (t_thin_pages st) (t_images_missing_alt st)
        (t_broken_links st)
        (duplicates (title_counts st)) (duplicates (meta_counts st))
        top_words (t_per_page st)
        (rank_phrases top_unigram_set phrase_counts)).

End Analysis.

(** ** The checklist *)

(** An item of [summary['checklist']]; the two items about duplicates
    have no ['url']. *)
Record ChecklistItem := mkItem {
  c_issue : string; c_url : option string; c_priority : string; c_why : string
}.

(** [str(n)] of a length, as the f-strings write it. *)
Definition str_of_nat (n : nat) : string :=
  NilEmpty.string_of_uint (Nat.to_uint n).

(** Lines 342-359: the checklist of a summary. *)
Definition checklist (s : Summary) : list ChecklistItem :=
  map (fun url => mkItem "Missing title" (Some url) "P0"
                         "Title is critical for ranking and CTR")
      (pages_missing_title s)
  ++ map (fun url => mkItem "Missing meta description" (Some url) "P1"
                            "Improve CTR in SERPs")
         (pages_missing_meta_description s)
  ++ map (fun url => mkItem "Missing H1" (Some url) "P1" "H1 signals page topic")
         (pages_missing_h1 s)
  ++ map (fun url => mkItem "Thin content (<300 words)" (Some url) "P1"
                            "Create more useful, in-depth content")
         (thin_pages s)
  ++ map (fun '(url, imgs) =>
            mkItem (str_of_nat (length imgs) +:+ " images missing alt")
                   (Some url) "P2" "Accessibility and image search")
         (images_missing_alt s)
  ++ map (fun '(url, broken) =>
            mkItem ("Broken links (" +:+ str_of_nat (length broken) +:+ ")")
                   (Some url) "P1" "Fix or remove broken links")
         (broken_links s)
  ++ match duplicate_titles s with
     | [] => []
     | dups => [mkItem (str_of_nat (length dups) +:+ " duplicate titles")
                       None "P2" "Unique titles improve clarity"]
     end
  ++ match duplicate_meta_descriptions s with
     | [] => []
     | dups =>
         [mkItem (str_of_nat (length dups) +:+ " duplicate meta descriptions")
                 None "P2" "Unique meta descriptions improve SERP snippets"]
     end.

(** ** A small site, for the examples

    [http://a.com] links to [/c] and then to [/b]; [/c] links back to
    the front page and to itself; [/b] answers 404; [/d] cannot be
    reached at all (the connection fails). *)

Module Site.

#[export] Instance checks : UrlChecks := {|
  check_bracketed_netloc := fun _ => false;
  nfkc_netloc_ok := fun _ => false
|}.

Definition anchor (h : string) (t : string) : Tag * string :=
  (mkTag [("href", h)], t).

Definition meta (n c : string) : Tag := mkTag [("name", n); ("content", c)].

Definition empty_soup : Soup :=
  mkSoup None [] None [] [] [] [] [] "".

Definition front_soup : Soup :=
  mkSoup (Some (Some " Home ")) 
         [meta "description" "first"; meta "Description" " second "]
         None ["Best Running Shoes"] []
         [mkTag [("src", "logo.png")]]
         [anchor "/c" "see c"; anchor "/b" "see b"; anchor "#top" "top";
          anchor "mailto:me@a.com" "mail"; anchor "http://other.org/" "out";
          (mkTag [], "no href")]
         [] "Fast fast slow".

Definition c_soup : Soup :=
  mkSoup (Some (Some "Home")) [] None [] [] []
         [anchor "http://a.com" "home"; anchor "/c#again" "self";
          anchor "/d" "d"]
         [] "".

#[export] Instance web : Web := {|
  tldextract_extract := fun url =>
    if Py.startswith url "http://a.com" then mkExtract "" "a" "com"
    else mkExtract "" "other" "org";
  session_get := fun url =>
    if String.eqb url "http://a.com"
    then GetReturned (mkResponse 200 "front" "http://a.com/" []) 120
    else if String.eqb url "http://a.com/c"
    then GetReturned (mkResponse 200 "c" "http://a.com/c" []) 80
    else if String.eqb url "http://a.com/b"
    then GetReturned (mkResponse 404 "gone" "http://a.com/b" []) 40
    else GetRaised "connection refused";
  BeautifulSoup := fun html =>
    if String.eqb html "front" then front_soup
    else if String.eqb html "c" then c_soup
    else empty_soup;
  completes_next := fun d pending => Nat.pred (length pending)
|}.

(** What the crawl of the site returns with depth 5 and a budget of 10
    pages, and the state in which it returns. *)
Definition final_state : CrawlState :=
  match crawl_run "http://a.com/" 5 10 8 with
  | Ok st => st
  | Raise _ => mkCrawl ∅ [] 0 []
  end.

Definition mapping : list (string * Entry) := results final_state.

Definition summary_of (r : result Summary) : Summary :=
  match r with
  | Ok s => s
  | Raise _ => mkSummary 0 [] [] [] [] [] [] [] [] [] [] []
  end.

(** A page with a given title and words, and nothing else. *)
Definition page (title : string) (words : list string) : Entry :=
  PageEntry (Some 200) (Some "http://a.com/") 100 []
            (mkOnPage title "" "" "" [] [] [] [] [] [] [] (length words) words "").

(** Two pages titled [Home] and one titled [Home] with a space after it. *)
Definition home_pages : list (string * Entry) :=
  [("http://a.com/1", page "Home" []); ("http://a.com/2", page "Home" []);
   ("http://a.com/3", page "Home " [])].

(** The words [xaa], [xab], ..., 81 of them, on one page whose title is
    the last of them, [xdc]. *)
Definition word_of (n : nat) : string :=
  String "x" (String (ascii_of_nat (97 + n / 26))
                     (String (ascii_of_nat (97 + n mod 26)) EmptyString)).

Definition many_words : list (string * Entry) :=
  [("http://a.com/", page (word_of 80) (map word_of (seq 0 81)))].

End Site.

(** A site whose every address answers with one page, which holds a
    link that cannot be parsed. *)
Module BadSite.

Definition soup : Soup :=
  mkSoup (Some (Some "Home")) [] None [] [] []
         [Site.anchor "/ok" "fine"; Site.anchor "http://[" "bad"] [] "".

#[export] Instance world : Web := {|
  tldextract_extract := fun _ => mkExtract "" "a" "com";
  session_get := fun url => GetReturned (mkResponse 200 "page" url []) 10;
  BeautifulSoup := fun _ => soup;
  completes_next := fun _ _ => O
|}.

End BadSite.

(** A site whose front page links to [/b] after a mail address, a
    fragment and an address of another site. *)
Module MailSite.

Definition soup : Soup :=
  mkSoup (Some (Some "Home")) [] None [] [] []
         [Site.anchor "mailto:me@a.com" "mail"; Site.anchor "#top" "top";
          Site.anchor "http://other.org/" "out"; Site.anchor "/b" "see b"]
         [] "".

#[export] Instance world : Web := {|
  tldextract_extract := fun url =>
    if Py.startswith url "http://a.com" then mkExtract "" "a" "com"
    else mkExtract "" "other" "org";
  session_get := fun url =>
    if String.eqb url "http://a.com"
    then GetReturned (mkResponse 200 "front" "http://a.com/" []) 120
    else GetReturned (mkResponse 404 "gone" url []) 40;
  BeautifulSoup := fun html =>
    if String.eqb html "front" then soup else Site.empty_soup;
  completes_next := fun _ _ => O
|}.

End MailSite.

(** ** Notions that the properties are stated with *)

Section Notions.
Context `{UrlChecks} `{Web}.

(** The meta field as the specification words it: the trimmed
    [content] of the first meta tag with the given (lower-cased)
    [name]. *)
Definition first_meta_content (name : string) (tags : list Tag) : string :=
  match find (fun t => String.eqb (Py.lower (tag_get_or_empty t "name")) name)
             tags with
  | Some t => Py.strip (tag_get_or_empty t "content")
  | None => ""
  end.

(** The tags that the loop of [extract_onpage] assigns from. *)
Definition names_content (name : string) (t : Tag) : bool :=
  String.eqb (Py.lower (tag_get_or_empty t "name")) name
  && opt_truthy (tag_get t "content").

(** The meta field as the loop computes it: the trimmed [content] of
    the last meta tag with the given name and a non-empty content. *)
Definition last_meta_content (name : string) (tags : list Tag) : string :=
  match last (List.filter (names_content name) tags) with
  | Some t => Py.strip (tag_get_or_empty t "content")
  | None => ""
  end.

(** The addresses that a trace of events submits, in order. *)
Definition submitted (evs : list Event) : list string :=
  omap (fun e => match e with Submitted u => Some u | Visited _ => None end)
       evs.

(** The trace of a crawl that submits the addresses [fs] in this order. *)
Definition trace_of (fs : list string) : list Event :=
  flat_map (fun u => [Visited u; Submitted u]) fs.

(** The invariant of the crawl: [fs] are the addresses submitted so far. *)
Record crawl_inv (max_pages : Z) (st : CrawlState) (fs : list string)
  : Prop := mkCrawlInv {
  inv_events : events st = trace_of fs;
  inv_NoDup : NoDup fs;
  inv_visited : forall u, u ∈ visited st <-> In u fs;
  inv_pages : pages_crawled st = Z.of_nat (length fs);
  inv_budget : fs = [] \/ Z.of_nat (length fs) <= max_pages;
  inv_keys_NoDup : NoDup (Dict.keys (results st));
  inv_keys : forall u, In u (Dict.keys (results st)) -> In u fs
}.

(** An entry that the first loop of [analyze] treats as a page. *)
Definition is_page (r : Entry) : bool :=
  match r with
  | PageEntry h _ _ _ _ => is_200 h
  | _ => false
  end.

(** The pages with a 200 outcome whose (non-empty) title, or meta
    description, is exactly [v]. *)
Definition has_field (f : OnPage -> string) (v : string)
           (item : string * Entry) : bool :=
  match snd item with
  | PageEntry h _ _ _ on => is_200 h && Py.truthy (f on) && String.eqb (f on) v
  | _ => false
  end.

Definition pages_with (f : OnPage -> string) (v : string)
           (results : list (string * Entry)) : nat :=
  length (List.filter (fun item => has_field f v item) results).

(** The count of [k] in a counter: [c[k]]. *)
Definition tally (k : string) (c : list (string * nat)) : nat :=
  default 0%nat (Dict.get k c).

(** The per-page report of an address that is not analysed as a page. *)
Definition failure_report (r : Entry) : PageReport :=
  match r with
  | ErrorEntry error => ReportError error
  | _ => ReportHttp (entry_http r)
  end.

(** The addresses that occur in the issue lists of a tally. *)
Definition listed (st : Tally) (x : string) : Prop :=
  In x (t_missing_title st) \/ In x (t_missing_meta_description st)
  \/ In x (t_missing_h1 st) \/ In x (t_thin_pages st)
  \/ In x (Dict.keys (t_images_missing_alt st)).

(** The entries that [crawl] writes: an error, a status other than 200,
    or a page with status 200 on each of whose anchors [norm_url] has
    returned. *)
Definition crawl_shaped (item : string * Entry) : Prop :=
  match snd item with
  | ErrorEntry _ => True
  | HttpEntry h _ => is_200 h = false
  | PageEntry h _ _ _ on =>
      is_200 h = true
      /\ forall a, In a (links on) -> exists r, norm_url (fst item) (href a) = Ok r
  end.

(** [results] without the entry of [u]. *)
Definition without (u : string) (results : list (string * Entry))
  : list (string * Entry) :=
  List.filter (fun item => negb (String.eqb (fst item) u)) results.

(** The candidate phrases as the specification words them: the overlap
    is taken with the 120 most frequent unigrams. *)
Definition candidate_phrases_120 (results : list (string * Entry))
  : result (list Candidate) :=
  st ← analyze_loop results;
  Ok (rank_phrases (map fst (Counter.most_common 120 (word_counts st)))
                   (fold_left phrases_of_page results [])).

(** What one anchor of the start page [A] adds to the next round when
    the budget allows it: the address that it normalises to, when this
    address is on the site of [A], is not [A] and is not in the round
    yet. *)
Definition add_target (A : string) (nr : list string) (a : Link)
  : list string :=
  match norm_url A (href a) with
  | Ok (Some u) =>
      if is_same_domain A u && negb (String.eqb u A) && negb (Py.in_list u nr)
      then nr ++ [u] else nr
  | _ => nr
  end.

(** The new addresses of the anchors [l] of the start page: the
    addresses of the site other than [A] that they normalise to, each
    once, in the order of the anchors. *)
Definition new_targets (A : string) (l : list Link) : list string :=
  fold_left (add_target A) l [].

End Notions.

(** Characters that a component of a parsed address does not hold. *)
Definition not_hash (c : ascii) : bool := negb (Ascii.eqb "#" c).
Definition not_qmark (c : ascii) : bool := negb (Ascii.eqb "?" c).
Definition not_slash (c : ascii) : bool := negb (Ascii.eqb "/" c).
Definition not_semi (c : ascii) : bool := negb (Ascii.eqb ";" c).
Definition not_colon (c : ascii) : bool := negb (Ascii.eqb ":" c).
Definition safe (c : ascii) : bool := negb (Urllib.unsafe_byte c).
Definition not_delim (c : ascii) : bool := negb (Urllib.netloc_delim c).

(** What the characters of a path, of a query and of a network location
    are after [urlsplit]. *)
Definition pchar (c : ascii) : bool := safe c && not_hash c && not_qmark c.
Definition qchar (c : ascii) : bool := safe c && not_hash c.
Definition nchar (c : ascii) : bool := safe c && not_delim c.

(** The path with its parameters, as [urlunparse] writes them. *)
Definition rejoin (path params : string) : string :=
  if Py.truthy params then path +:+ ";" +:+ params else path.

(** A last path segment whose first [';'] is not its last character:
    cutting the parameters off and writing them back gives it again. *)
Definition seg_ok (seg : string) : bool :=
  match Py.cut ";" seg with
  | Some (_, EmptyString) => false
  | _ => true
  end.

(** [?query] when there is a query. *)
Definition query_suffix (q : string) : string :=
  if Py.truthy q then "?" +:+ q else "".

(** ** Notions of the further properties *)

Section FurtherNotions.
Context `{UrlChecks} `{Web}.

(** The entry that lines 185-199 write for a fetched address. *)
Definition entry_of (url : string) : Entry :=
  match session_get url with
  | GetRaised error =>
      if Py.truthy error then ErrorEntry error else HttpEntry None None
  | GetReturned r elapsed =>
      if r_status_code r =? 200
      then PageEntry (Some (r_status_code r)) (Some (r_url r)) elapsed
                     (r_headers r)
                     (extract_onpage url (r_text r))
      else HttpEntry (Some (r_status_code r)) (Some (r_url r))
  end.

(** [v] answers 200 and one of its anchors normalises, against [v], to
    [u], an address on the site of [seed]. *)
Definition links_to (seed v u : string) : Prop :=
  exists r elapsed a,
    session_get v = GetReturned r elapsed /\ r_status_code r = 200
    /\ In a (links (extract_onpage v (r_text r)))
    /\ norm_url v (href a) = Ok (Some u)
    /\ is_same_domain seed u = true.

(** [u] is at most [n] such links away from [seed]. *)
Fixpoint reach (seed : string) (n : nat) (u : string) : Prop :=
  match n with
  | O => u = seed
  | S n' => reach seed n' u \/ exists v, reach seed n' v /\ links_to seed v u
  end.

End FurtherNotions.

(** The addresses, in the order of the mapping, of the pages with a 200
    outcome whose on-page record satisfies [c]. *)
Definition pages_where (c : OnPage -> bool) (results : list (string * Entry))
  : list string :=
  map fst (List.filter (fun item => match snd item with
                                    | PageEntry h _ _ _ on => is_200 h && c on
                                    | _ => false
                                    end) results).

(** The [src] of the images of a page whose [alt] is empty. *)
Definition missing_alts (on : OnPage) : list string :=
  map src (List.filter (fun img => negb (Py.truthy (alt img))) (images on)).

(** The number of times that [w] occurs among the words of the pages
    with a 200 outcome. *)
Definition word_total (w : string) (results : list (string * Entry)) : nat :=
  list_sum (map (fun item => match snd item with
                             | PageEntry h _ _ _ on =>
                                 if is_200 h
                                 then count_occ string_dec (words on) w
                                 else 0%nat
                             | _ => 0%nat
                             end) results).

(** The meta tags that assign the key [k] of [og] (for the attribute
    [property] and the prefix [og:]) or of [twitter] (for [name] and
    [twitter:]): the attribute is [k] as written, and starts with the
    prefix when put in lower case. *)
Definition assigns_key (attr pre k : string) (t : Tag) : bool :=
  Py.startswith (Py.lower (tag_get_or_empty t attr)) pre
  && String.eqb (tag_get_or_empty t attr) k.

(** The value of the last tag of [tags] that assigns [k]. *)
Definition last_assigned (attr pre k : string) (tags : list Tag)
  : option string :=
  match last (List.filter (assigns_key attr pre k) tags) with
  | Some t => Some (tag_get_or_empty t "content")
  | None => None
  end.

(** A character that no check of [urlsplit] objects to: ASCII, and not
    a square bracket. *)
Definition plain (c : ascii) : bool :=
  Py.isascii c && negb (Ascii.eqb c "[") && negb (Ascii.eqb c "]").

(** [p] is the phrase of the words [ws]: one to five words of two or
    more small letters that are not stop words, joined by single
    spaces. *)
Definition phrase_words (p : string) (ws : list string) : Prop :=
  p = Py.join " " ws
  /\ (1 <= length ws <= 5)%nat
  /\ Forall (fun w => is_stopword w = false
                      /\ (2 <= String.length w)%nat
                      /\ Py.all_chars Py.is_lower w = true) ws.

(** * Properties *)

(** ** The error monad and loops *)

Lemma bind_Ok {A B} (m : result A) (k : A -> result B) (b : B) :
  (m ≫= k) = Ok b -> exists a, m = Ok a /\ k a = Ok b.
Proof. destruct m as [a|e]; simpl; [eauto | discriminate]. Qed.

Tactic Notation "inv_bind" hyp(Hb) "as" simple_intropattern(a) ident(Ha) :=
  apply bind_Ok in Hb; destruct Hb as (a & Ha & Hb).

(** An invariant of the body is an invariant of the loop. *)
Lemma for_each_inv {A S} (P : S -> Prop) (body : S -> A -> result S) l :
  (forall st x st', In x l -> P st -> body st x = Ok st' -> P st') ->
  forall st st', P st -> for_each body l st = Ok st' -> P st'.
Proof.
  induction l as [|x l IH]; intros Hbody st st' HP Hrun; simpl in Hrun.
  - by injection Hrun as <-.
  - inv_bind Hrun as st1 Hstep. eapply IH; [| |exact Hrun].
    + intros; eapply Hbody; eauto. by right.
    + eapply Hbody; eauto. by left.
Qed.

Lemma for_each_cons {A S} (body : S -> A -> result S) x l st :
  for_each body (x :: l) st = (body st x ≫= for_each body l).
Proof. done. Qed.

Lemma for_each_app {A S} (body : S -> A -> result S) l1 l2 st :
  for_each body (l1 ++ l2) st = (for_each body l1 st ≫= for_each body l2).
Proof.
  revert st; induction l1 as [|x l1 IH]; intros st; simpl; [done|].
  destruct (body st x); simpl; [apply IH | done].
Qed.

(** ** Dictionaries *)

Section DictFacts.
Context {V : Type}.
Implicit Types (d : list (string * V)) (k : string) (v : V).

Lemma dict_get_set_eq k v d : Dict.get k (Dict.set k v d) = Some v.
Proof.
  induction d as [|[k' v'] d IH]; simpl.
  - by rewrite String.eqb_refl.
  - destruct (String.eqb k k') eqn:E; simpl; rewrite ?String.eqb_refl, ?E; done.
Qed.

Lemma dict_get_set_ne k k' v d :
  k <> k' -> Dict.get k' (Dict.set k v d) = Dict.get k' d.
Proof.
  intros Hne. induction d as [|[k2 v2] d IH]; simpl.
  - destruct (String.eqb_spec k' k); congruence.
  - destruct (String.eqb_spec k k2) as [->|]; simpl.
    + destruct (String.eqb_spec k' k2); congruence.
    + by rewrite IH.
Qed.

Lemma dict_get_None k d : Dict.get k d = None <-> ~ In k (Dict.keys d).
Proof.
  induction d as [|[k' v'] d IH]; simpl; [tauto|].
  destruct (String.eqb_spec k k') as [->|Hne].
  - split; [discriminate | tauto].
  - rewrite IH. split; [intros Hn [?|?]; congruence || tauto | tauto].
Qed.

Lemma dict_get_In k v d : Dict.get k d = Some v -> In (k, v) d.
Proof.
  induction d as [|[k' v'] d IH]; simpl; [discriminate|].
  destruct (String.eqb_spec k k') as [->|Hne]; [|auto].
  intros [= ->]; by left.
Qed.

Lemma dict_In_get k v d : NoDup (Dict.keys d) -> In (k, v) d -> Dict.get k d = Some v.
Proof.
  induction d as [|[k' v'] d IH]; simpl; [tauto|].
  intros Hnd [Heq|Hin]; apply NoDup_cons in Hnd as [Hk Hnd].
  - injection Heq as -> ->. by rewrite String.eqb_refl.
  - destruct (String.eqb_spec k k') as [->|Hne]; [|auto].
    exfalso; apply Hk. apply list_elem_of_In.
    change k' with (fst (k', v)). by apply in_map.
Qed.

Lemma dict_keys_set k v d :
  Dict.keys (Dict.set k v d)
  = if Dict.mem k d then Dict.keys d else Dict.keys d ++ [k].
Proof.
  unfold Dict.mem. induction d as [|[k' v'] d IH]; simpl; [done|].
  destruct (String.eqb_spec k k') as [->|Hne]; simpl; [done|].
  rewrite IH. by destruct (Dict.get k d).
Qed.

Lemma dict_In_keys_set k k' v d :
  In k' (Dict.keys (Dict.set k v d)) <-> k' = k \/ In k' (Dict.keys d).
Proof.
  rewrite dict_keys_set. unfold Dict.mem.
  destruct (Dict.get k d) eqn:E.
  - split; [tauto|]. intros [->|?]; [|done].
    apply dict_get_In in E. change k with (fst (k, v0)). by apply in_map.
  - rewrite in_app_iff; simpl. intuition congruence.
Qed.

Lemma dict_NoDup_set k v d :
  NoDup (Dict.keys d) -> NoDup (Dict.keys (Dict.set k v d)).
Proof.
  intros Hnd. rewrite dict_keys_set. unfold Dict.mem.
  destruct (Dict.get k d) eqn:E; [done|].
  apply NoDup_app. split; [done|]. split; [|apply NoDup_singleton].
  intros x Hx [->|[]]%list_elem_of_In.
  apply dict_get_None in E. by apply E, list_elem_of_In.
Qed.

Lemma dict_length_set k v d : (length d <= length (Dict.set k v d))%nat.
Proof.
  induction d as [|[k' v'] d IH]; simpl; [lia|].
  destruct (String.eqb k k'); simpl; lia.
Qed.
End DictFacts.

(** ** Extraction: the meta fields *)

Section ExtractFacts.
Context `{Web}.

Lemma meta_loop_snoc tags t st :
  fold_left meta_step (tags ++ [t]) st = meta_step (fold_left meta_step tags st) t.
Proof. by rewrite fold_left_app. Qed.

Lemma meta_loop_fields tags st :
  m_desc (fold_left meta_step tags st)
  = match last (List.filter (names_content "description") tags) with
    | Some t => Py.strip (tag_get_or_empty t "content")
    | None => m_desc st
    end
  /\ m_robots (fold_left meta_step tags st)
     = match last (List.filter (names_content "robots") tags) with
       | Some t => Py.strip (tag_get_or_empty t "content")
       | None => m_robots st
       end.
Proof.
  induction tags as [|t tags IH] using rev_ind; [done|].
  rewrite meta_loop_snoc, !List.filter_app. destruct IH as [IHd IHr].
  set (st' := fold_left meta_step tags st) in *.
  unfold meta_step, names_content; simpl.
  split.
  - destruct (String.eqb _ "description" && _); simpl.
    + by rewrite last_snoc.
    + by rewrite app_nil_r.
  - destruct (String.eqb _ "robots" && _); simpl.
    + by rewrite last_snoc.
    + by rewrite app_nil_r.
Qed.

(** C5, as the code has it: the meta description is the trimmed
    [content] of the last meta tag named [description] (in any case)
    whose content is present and not empty, and the empty string when
    there is none; the robots field likewise, for [robots]. *)
Theorem extract_meta_last_with_content (url html : string) :
  meta_description (extract_onpage url html)
  = last_meta_content "description" (soup_meta (BeautifulSoup html))
  /\ meta_robots (extract_onpage url html)
     = last_meta_content "robots" (soup_meta (BeautifulSoup html)).
Proof.
  unfold extract_onpage, last_meta_content, meta_loop; simpl.
  destruct (meta_loop_fields (soup_meta (BeautifulSoup html)) (mkMeta "" "" [] []))
    as [-> ->].
  split; by destruct (last _).
Qed.

End ExtractFacts.

Section ExtractOnSite.
Local Existing Instance Site.web.

(** C5 fails as stated: on the front page of the example site two meta
    tags are named description; the first one has the content [first],
    and the extracted field is [second], from the last one. *)
Lemma extract_meta_not_first :
  meta_description (extract_onpage "http://a.com" "front")
  <> first_meta_content "description" (soup_meta (BeautifulSoup "front")).
Proof. vm_compute. discriminate. Qed.

End ExtractOnSite.

(** ** Counters *)

Lemma tally_incr k k' c :
  tally k' (Counter.incr k c)
  = (tally k' c + if String.eqb k k' then 1 else 0)%nat.
Proof.
  unfold tally, Counter.incr.
  destruct (String.eqb_spec k k') as [->|Hne].
  - rewrite dict_get_set_eq; simpl. lia.
  - rewrite dict_get_set_ne by done. lia.
Qed.

Lemma incr_NoDup k c :
  NoDup (Dict.keys c) -> NoDup (Dict.keys (Counter.incr k c)).
Proof. apply dict_NoDup_set. Qed.

(** On a counter, [duplicates] keeps exactly the entries above one. *)
Lemma duplicates_get_from (T : string) (counts acc : list (string * nat)) :
  NoDup (Dict.keys counts) ->
  Dict.get T (fold_left (fun d tc => if (1 <? snd tc)%nat
                                     then Dict.set (fst tc) (snd tc) d else d)
                        counts acc)
  = match Dict.get T counts with
    | Some n => if (1 <? n)%nat then Some n else Dict.get T acc
    | None => Dict.get T acc
    end.
Proof.
  revert acc; induction counts as [|[k n] counts IH]; intros acc Hnd; [done|].
  apply NoDup_cons in Hnd as [Hk Hnd]. simpl. rewrite IH by done.
  destruct (String.eqb_spec T k) as [->|Hne].
  - assert (Dict.get k counts = None) as ->.
    { apply dict_get_None. by rewrite <- list_elem_of_In. }
    destruct (1 <? n)%nat; [by rewrite dict_get_set_eq | done].
  - destruct (Dict.get T counts) as [m|]; [destruct (1 <? m)%nat; [done|] |];
      (destruct (1 <? n)%nat; [by rewrite dict_get_set_ne | done]).
Qed.

Lemma duplicates_get (T : string) (counts : list (string * nat)) (c : nat) :
  NoDup (Dict.keys counts) ->
  Dict.get T (duplicates counts) = Some c <-> c = tally T counts /\ (1 < c)%nat.
Proof.
  intros Hnd. unfold duplicates, tally. rewrite duplicates_get_from by done.
  destruct (Dict.get T counts) as [n|]; simpl.
  - destruct (Nat.ltb_spec 1 n); split.
    + intros [= ->]; lia.
    + by intros [-> _].
    + discriminate.
    + intros [-> ?]; lia.
  - split; [discriminate | lia].
Qed.

(** ** The first loop of the analysis *)

Section AnalysisFacts.
Context `{UrlChecks} `{Web}.

Implicit Types (R results : list (string * Entry)) (st : Tally).

(** What an iteration that does not raise has done. *)
Lemma analyze_page_Ok R st url r st' :
  analyze_page R st (url, r) = Ok st' ->
  (is_page r = false /\ st' = tally_report st url (failure_report r))
  \/ (exists on broken extern,
        is_page r = true /\ entry_onpage r = Some on
        /\ for_each (check_link R url) (links on) ([], []) = Ok (broken, extern)
        /\ st' = tally_page st url on broken).
Proof.
  unfold analyze_page. destruct r as [e|h f|h f el hd on]; simpl.
  - intros [= <-]; by left.
  - destruct (is_200 h) eqn:E; simpl; [discriminate|].
    intros [= <-]; by left.
  - destruct (is_200 h) eqn:E; simpl.
    + intros Hb. inv_bind Hb as [broken extern] Hl.
      injection Hb as <-. right. by exists on, broken, extern.
    + intros [= <-]; by left.
Qed.

Lemma has_field_page (f : OnPage -> string) v url r on :
  is_page r = true -> entry_onpage r = Some on ->
  has_field f v (url, r) = Py.truthy (f on) && String.eqb (f on) v.
Proof.
  unfold has_field. destruct r; simpl; try discriminate. by intros -> [= ->].
Qed.

Lemma has_field_failure (f : OnPage -> string) v url r :
  is_page r = false -> has_field f v (url, r) = false.
Proof. unfold has_field. destruct r; simpl; try done. by intros ->. Qed.

Lemma pages_with_cons f v item l :
  pages_with f v (item :: l)
  = ((if has_field f v item then 1 else 0) + pages_with f v l)%nat.
Proof. unfold pages_with; simpl. by destruct (has_field f v item). Qed.

(** The two counters count the pages by title and by description. *)
Lemma loop_counts R l : forall st st',
  for_each (analyze_page R) l st = Ok st' ->
  forall v,
    tally v (title_counts st') = (tally v (title_counts st) + pages_with title v l)%nat
    /\ tally v (meta_counts st')
       = (tally v (meta_counts st) + pages_with meta_description v l)%nat.
Proof.
  induction l as [|[url r] l IH]; intros st st' Hrun v; simpl in Hrun.
  - injection Hrun as <-. unfold pages_with; simpl. lia.
  - inv_bind Hrun as st1 Hstep. destruct (IH _ _ Hrun v) as [-> ->].
    rewrite !pages_with_cons.
    apply analyze_page_Ok in Hstep as [[Hp ->]|(on & br & ex & Hp & Hon & _ & ->)].
    + rewrite !has_field_failure by done. simpl. lia.
    + rewrite !(has_field_page _ _ _ _ on) by done. simpl.
      destruct (Py.truthy (title on)), (Py.truthy (meta_description on));
        simpl; rewrite ?tally_incr; lia.
Qed.

Lemma loop_counts_NoDup R l : forall st st',
  for_each (analyze_page R) l st = Ok st' ->
  NoDup (Dict.keys (title_counts st)) /\ NoDup (Dict.keys (meta_counts st)) ->
  NoDup (Dict.keys (title_counts st')) /\ NoDup (Dict.keys (meta_counts st')).
Proof.
  intros st st' Hrun Hst.
  eapply (for_each_inv (fun st => NoDup (Dict.keys (title_counts st))
                                  /\ NoDup (Dict.keys (meta_counts st))));
    [|exact Hst|exact Hrun].
  intros s [url r] s' _ [Ht Hm] Hstep.
  apply analyze_page_Ok in Hstep as [[_ ->]|(on & br & ex & _ & _ & _ & ->)];
    simpl; [done|].
  split; [destruct (Py.truthy (title on)) | destruct (Py.truthy (meta_description on))];
    auto using incr_NoDup.
Qed.

(** C8: the duplicate-titles output maps [T] to [c] exactly when [c]
    pages with a 200 outcome have the non-empty title [T], character for
    character, and [c] is more than one; the same holds for the
    duplicate meta descriptions. *)
Theorem duplicates_exact results s (T : string) (c : nat) :
  analyze results = Ok s ->
  (Dict.get T (duplicate_titles s) = Some c
   <-> c = pages_with title T results /\ (1 < c)%nat)
  /\ (Dict.get T (duplicate_meta_descriptions s) = Some c
      <-> c = pages_with meta_description T results /\ (1 < c)%nat).
Proof.
  unfold analyze, analyze_loop. intros Hb. inv_bind Hb as st Hloop.
  injection Hb as <-. simpl.
  destruct (loop_counts _ _ _ _ Hloop T) as [Ht Hm]. simpl in Ht, Hm.
  destruct (loop_counts_NoDup _ _ _ _ Hloop) as [Nt Nm].
  { split; apply NoDup_nil_2. }
  rewrite !duplicates_get by done. by rewrite Ht, Hm.
Qed.

End AnalysisFacts.

(** ** What [norm_url] returns *)

Section NormalizerFacts.
Context `{UrlChecks}.

Lemma in_http_https (s : string) :
  Py.in_list s ["http"; "https"] = true -> s = "http" \/ s = "https".
Proof.
  unfold Py.in_list; simpl.
  destruct (String.eqb_spec s "http"), (String.eqb_spec s "https"); auto.
  discriminate.
Qed.

(** The normalised address, when there is one. *)
Lemma norm_url_Some base link u :
  norm_url base link = Ok (Some u) ->
  exists l joined parsed,
    link = Some l /\ Py.truthy l = true
    /\ Urllib.urljoin base (Py.strip l) = Ok joined
    /\ Urllib.urlparse joined "" = Ok parsed
    /\ Py.in_list (Urllib.scheme parsed) ["http"; "https"] = true
    /\ u = Urllib.geturl (Urllib.replace_fragment parsed "").
Proof.
  unfold norm_url. destruct link as [l|]; [|discriminate].
  destruct (Py.truthy l) eqn:El; cbn [negb]; [|discriminate].
  destruct (_ || _); [discriminate|].
  intros Hb. inv_bind Hb as joined Hj. inv_bind Hb as parsed Hp.
  destruct (Py.in_list _ _) eqn:Es; cbn [negb] in Hb; [|discriminate].
  injection Hb as <-. by exists l, joined, parsed.
Qed.

Lemma urlunsplit_truthy sch nl url qry frag :
  Py.truthy sch = true -> Py.truthy (Urllib.urlunsplit sch nl url qry frag) = true.
Proof.
  intros Hs. unfold Urllib.urlunsplit. rewrite Hs.
  destruct sch as [|c sch]; [discriminate|]. simpl.
  by destruct (Py.truthy qry), (Py.truthy frag).
Qed.

(** A normalised address is never the empty string. *)
Lemma norm_url_truthy base link u :
  norm_url base link = Ok (Some u) -> Py.truthy u = true.
Proof.
  intros (l & joined & parsed & _ & _ & _ & _ & Hs & ->)%norm_url_Some.
  apply urlunsplit_truthy. simpl.
  by destruct (in_http_https _ Hs) as [-> | ->].
Qed.

End NormalizerFacts.

(** ** Broken links and failed addresses *)

Section ReportFacts.
Context `{UrlChecks} `{Web}.

Implicit Types (R results : list (string * Entry)) (st : Tally).

(** An anchor to an address whose entry has a status other than 200
    ends up in [broken]. *)
Lemma check_links_broken R url l : forall acc acc',
  for_each (check_link R url) l acc = Ok acc' ->
  (forall b, In b (fst acc) -> In b (fst acc'))
  /\ forall a B rr,
       In a l -> norm_url url (href a) = Ok (Some B) ->
       is_same_domain url B = true -> Dict.get B R = Some rr ->
       z_truthy (entry_http rr) && negb (is_200 (entry_http rr)) = true ->
       In (mkBroken B (entry_http rr)) (fst acc').
Proof.
  induction l as [|a0 l IH]; intros acc acc' Hrun; simpl in Hrun.
  - injection Hrun as <-. split; [done|]. by intros ? ? ? [].
  - inv_bind Hrun as acc1 Hc. destruct (IH _ _ Hrun) as [Hmono Hfound].
    assert (forall b, In b (fst acc) -> In b (fst acc1)) as Hstep.
    { unfold check_link in Hc. destruct acc as [br ex].
      inv_bind Hc as [n|] Hn; [|by injection Hc as <-].
      destruct (Py.truthy n); cbn [negb] in Hc; [|by injection Hc as <-].
      destruct (is_same_domain url n); [|by injection Hc as <-].
      destruct (Dict.get n R) as [rr|]; [|by injection Hc as <-].
      destruct (_ && _); injection Hc as <-; simpl; [|done].
      intros b Hb. apply in_app_iff. by left. }
    split; [auto|].
    intros a' B rr [<-|Hin] Hn Hd HB Hrr; [|eauto].
    apply Hmono. unfold check_link in Hc. destruct acc as [br ex].
    rewrite Hn in Hc. simpl in Hc.
    rewrite (norm_url_truthy _ _ _ Hn), Hd, HB, Hrr in Hc. simpl in Hc.
    injection Hc as <-. simpl. apply in_app_iff. right. by left.
Qed.

(** Whether the loop over the anchors raises does not depend on the
    mapping nor on what was collected so far. *)
Lemma check_links_Ok_any R R' url l : forall acc acc2 acc',
  for_each (check_link R url) l acc = Ok acc' ->
  exists acc2', for_each (check_link R' url) l acc2 = Ok acc2'.
Proof.
  induction l as [|a0 l IH]; intros acc acc2 acc' Hrun; simpl in *; [eauto|].
  inv_bind Hrun as acc1 Hc.
  assert (exists x, check_link R' url acc2 a0 = Ok x) as [x ->]; [|simpl; eauto].
  unfold check_link in *. destruct acc as [br ex], acc2 as [br2 ex2].
  inv_bind Hc as [n|] Hn; rewrite Hn; simpl; [|eauto].
  destruct (Py.truthy n); simpl; [|eauto].
  destruct (is_same_domain url n); [|eauto].
  destruct (Dict.get n R') as [rr|]; [|eauto]. destruct (_ && _); eauto.
Qed.

(** The entries of an address other than those of the loop are left as
    they are. *)
Lemma loop_other_keys R l u : forall st st',
  for_each (analyze_page R) l st = Ok st' ->
  ~ In u (Dict.keys l) ->
  Dict.get u (t_per_page st') = Dict.get u (t_per_page st)
  /\ Dict.get u (t_broken_links st') = Dict.get u (t_broken_links st).
Proof.
  induction l as [|[url r] l IH]; intros st st' Hrun Hu; simpl in Hrun.
  - by injection Hrun as <-.
  - inv_bind Hrun as st1 Hstep. simpl in Hu.
    destruct (IH _ _ Hrun) as [-> ->]; [tauto|].
    assert (url <> u) by tauto.
    apply analyze_page_Ok in Hstep as [[_ ->]|(on & br & ex & _ & _ & _ & ->)];
      simpl; rewrite dict_get_set_ne by done; [done|].
    split; [done|]. destruct br; [done|]. by rewrite dict_get_set_ne.
Qed.

(** C7: when page [A] has an anchor that normalises, against [A], to
    [B], [B] is on the same site as [A], and the entry of [B] is an HTTP
    error with status 404, the broken links of [A] contain [B] with
    status 404. *)
Theorem broken_link_reported results s (A B : string) final_A elapsed_A
        headers_A on a final_B :
  NoDup (Dict.keys results) ->
  Dict.get A results
    = Some (PageEntry (Some 200) final_A elapsed_A headers_A on) ->
  In a (links on) ->
  norm_url A (href a) = Ok (Some B) ->
  is_same_domain A B = true ->
  Dict.get B results = Some (HttpEntry (Some 404) final_B) ->
  analyze results = Ok s ->
  exists broken,
    Dict.get A (broken_links s) = Some broken
    /\ In (mkBroken B (Some 404)) broken.
Proof.
  intros Hnd HA Ha Hn Hd HB Hs.
  unfold analyze in Hs. inv_bind Hs as st Hloop. injection Hs as <-. simpl.
  unfold analyze_loop in Hloop. revert st Hloop. generalize (mkTally [] [] [] [] [] [] [] [] [] []).
  apply dict_get_In in HA. revert HA Hnd.
  generalize results at 1 2 4 as l.
  induction l as [|[url r] l IH]; intros HA Hnd st0 st Hrun; [done|].
  rewrite for_each_cons in Hrun. inv_bind Hrun as st1 Hstep.
  simpl in Hnd. apply NoDup_cons in Hnd as [Hurl Hnd].
  destruct HA as [[= -> ->]|HA]; [|eauto].
  destruct (loop_other_keys _ _ A _ _ Hrun) as [_ ->].
  { by rewrite <- list_elem_of_In. }
  apply analyze_page_Ok in Hstep
    as [[? _]|(on' & br & ex & _ & [= <-] & Hl & ->)]; [discriminate|].
  destruct (check_links_broken _ _ _ _ _ Hl) as [_ Hfound].
  specialize (Hfound a B _ Ha Hn Hd HB eq_refl). simpl in Hfound |- *.
  destruct br as [|b br]; [done|]. rewrite dict_get_set_eq. eauto.
Qed.

End ReportFacts.

Section FailureFacts.
Context `{UrlChecks} `{Web}.

Implicit Types (R results : list (string * Entry)) (st : Tally).

Lemma NoDup_keys_In {V} (d : list (string * V)) k v v' :
  NoDup (Dict.keys d) -> In (k, v) d -> In (k, v') d -> v = v'.
Proof.
  intros Hnd H1%(dict_In_get _ _ _ Hnd) H2%(dict_In_get _ _ _ Hnd). congruence.
Qed.

Lemma is_page_onpage r : entry_onpage r = None -> is_page r = false.
Proof. by destruct r. Qed.

(** The report of an address that was not analysed as a page. *)
Lemma loop_per_page_failure R l u r : forall st st',
  for_each (analyze_page R) l st = Ok st' ->
  NoDup (Dict.keys l) -> In (u, r) l -> is_page r = false ->
  Dict.get u (t_per_page st') = Some (failure_report r).
Proof.
  induction l as [|[url r0] l IH]; intros st st' Hrun Hnd Hin Hr; [done|].
  rewrite for_each_cons in Hrun. inv_bind Hrun as st1 Hstep.
  simpl in Hnd. apply NoDup_cons in Hnd as [Hurl Hnd].
  destruct Hin as [[= -> ->]|Hin]; [|eauto].
  destruct (loop_other_keys _ _ u _ _ Hrun) as [-> _].
  { by rewrite <- list_elem_of_In. }
  apply analyze_page_Ok in Hstep as [[_ ->]|(on & br & ex & Hp & _)];
    [|congruence].
  simpl. apply dict_get_set_eq.
Qed.

Lemma loop_listed_pages R l : forall st st',
  for_each (analyze_page R) l st = Ok st' ->
  (forall x, listed st x -> exists r, In (x, r) l /\ is_page r = true) ->
  forall x, listed st' x -> exists r, In (x, r) l /\ is_page r = true.
Proof.
  intros st st' Hrun Hst.
  eapply (for_each_inv
            (fun st => forall x, listed st x ->
                                 exists r, In (x, r) l /\ is_page r = true));
    [|exact Hst|exact Hrun].
  clear. intros st [url r] st' Hin IHst Hstep x Hx.
  apply analyze_page_Ok in Hstep as [[_ ->]|(on & br & ex & Hp & _ & _ & ->)];
    [by apply IHst|].
  assert (listed st x \/ x = url) as [Hl | ->];
    [| by apply IHst | by exists r].
  unfold listed in *; simpl in Hx.
  assert (forall (b : bool) (l : list string),
             In x (if b then l else l ++ [url]) -> In x l \/ x = url) as Hif.
  { intros [] ? ?; [tauto|]. rewrite in_app_iff in *; simpl in *.
    intuition. }
  destruct Hx as [Hx|[Hx|[Hx|[Hx|Hx]]]].
  - apply Hif in Hx; tauto.
  - apply Hif in Hx; tauto.
  - destruct (h1s on); [apply (Hif false) in Hx|]; tauto.
  - destruct (word_count on <? 300)%nat; [apply (Hif false) in Hx|]; tauto.
  - destruct (map src _); [tauto|].
    apply dict_In_keys_set in Hx. tauto.
Qed.

(** The three counters after an iteration depend on the counters before
    it and on the page, not on the rest of the tally. *)
Lemma tally_page_counters st st2 url on br br2 :
  title_counts st2 = title_counts st -> meta_counts st2 = meta_counts st ->
  word_counts st2 = word_counts st ->
  title_counts (tally_page st2 url on br2) = title_counts (tally_page st url on br)
  /\ meta_counts (tally_page st2 url on br2) = meta_counts (tally_page st url on br)
  /\ word_counts (tally_page st2 url on br2) = word_counts (tally_page st url on br).
Proof. simpl. by intros -> -> ->. Qed.

Lemma without_cons u url (r : Entry) l :
  without u ((url, r) :: l)
  = if String.eqb url u then without u l else (url, r) :: without u l.
Proof. unfold without; simpl. by destruct (String.eqb url u). Qed.

(** An [http] entry with status 200 and no page record raises. *)
Lemma analyze_page_failure R st url r st1 :
  analyze_page R st (url, r) = Ok st1 -> is_page r = false ->
  forall R' st2,
    analyze_page R' st2 (url, r) = Ok (tally_report st2 url (failure_report r)).
Proof.
  unfold analyze_page. destruct r as [e|h f|h f el hd on]; simpl; [done| |].
  - destruct (is_200 h); [discriminate|done].
  - by intros _ ->.
Qed.

(** Without the entry of an address that is not a page, the loop still
    returns, with the same counters. *)
Lemma loop_without R R' u l :
  (forall r, In (u, r) l -> is_page r = false) ->
  forall st st' st2,
    for_each (analyze_page R) l st = Ok st' ->
    title_counts st2 = title_counts st -> meta_counts st2 = meta_counts st ->
    word_counts st2 = word_counts st ->
    exists st2',
      for_each (analyze_page R') (without u l) st2 = Ok st2'
      /\ title_counts st2' = title_counts st'
      /\ meta_counts st2' = meta_counts st'
      /\ word_counts st2' = word_counts st'.
Proof.
  induction l as [|[url r] l IH]; intros Hu st st' st2 Hrun Ht Hm Hw.
  - injection Hrun as <-. by exists st2.
  - rewrite for_each_cons in Hrun. inv_bind Hrun as st1 Hstep.
    assert (forall r, In (u, r) l -> is_page r = false) as Hu' by (intros; apply Hu; by right).
    rewrite without_cons. destruct (String.eqb_spec url u) as [->|Hne].
    + apply (IH Hu' _ _ _ Hrun).
      all: apply analyze_page_Ok in Hstep
          as [[_ ->]|(on & br & ex & Hp & _)]; [done|].
      all: rewrite (Hu r) in Hp by (by left); discriminate.
    + rewrite for_each_cons. pose proof Hstep as Hstep0.
      apply analyze_page_Ok in Hstep
        as [[Hp ->]|(on & br & ex & Hp & Hon & Hl & ->)].
      * rewrite (analyze_page_failure _ _ _ _ _ Hstep0 Hp). simpl.
        by apply (IH Hu' _ _ _ Hrun).
      * destruct (check_links_Ok_any R R' url _ _ ([], []) _ Hl) as [[br2 ex2] Hl2].
        assert (analyze_page R' st2 (url, r) = Ok (tally_page st2 url on br2)) as ->.
        { unfold analyze_page. destruct r as [e|h f|h f el hd on']; simpl in *;
            try discriminate. injection Hon as ->. rewrite Hp; simpl.
          by rewrite Hl2. }
        simpl.
        destruct (tally_page_counters st st2 url on br br2) as (? & ? & ?); try done.
        by apply (IH Hu' _ _ _ Hrun).
Qed.

Lemma phrases_without u l :
  (forall r, In (u, r) l -> entry_onpage r = None) ->
  forall acc,
    fold_left phrases_of_page (without u l) acc = fold_left phrases_of_page l acc.
Proof.
  induction l as [|[url r] l IH]; intros Hu acc; [done|].
  assert (forall r, In (u, r) l -> entry_onpage r = None) as Hu'
      by (intros; apply Hu; by right).
  rewrite without_cons. destruct (String.eqb_spec url u) as [->|Hne]; simpl.
  - rewrite IH by done. f_equal. unfold phrases_of_page; simpl.
    by rewrite (Hu r) by (by left).
  - by apply IH.
Qed.

(** C9: an address whose entry is a transport error or an HTTP error
    has a per-page report that holds its error message, or its status,
    and nothing else; it is in none of the four issue lists and has no
    alt-gap entry; and the word table, the candidate phrases and the two
    duplicate groupings are the same as without that entry. *)
Theorem failed_address_only_reported results s (u : string) (r : Entry) :
  NoDup (Dict.keys results) ->
  Dict.get u results = Some r ->
  entry_onpage r = None ->
  analyze results = Ok s ->
  Dict.get u (per_page s) = Some (failure_report r)
  /\ ~ In u (pages_missing_title s)
  /\ ~ In u (pages_missing_meta_description s)
  /\ ~ In u (pages_missing_h1 s)
  /\ ~ In u (thin_pages s)
  /\ Dict.get u (images_missing_alt s) = None
  /\ exists s',
       analyze (without u results) = Ok s'
       /\ top_words s' = top_words s
       /\ candidate_phrases s' = candidate_phrases s
       /\ duplicate_titles s' = duplicate_titles s
       /\ duplicate_meta_descriptions s' = duplicate_meta_descriptions s.
Proof.
  intros Hnd Hget%dict_get_In Hon Hs.
  assert (forall r', In (u, r') results -> r' = r) as Huniq.
  { intros r' Hr'. by apply (NoDup_keys_In results u). }
  pose proof (is_page_onpage _ Hon) as Hp.
  unfold analyze in Hs. inv_bind Hs as st Hloop. injection Hs as <-. simpl.
  unfold analyze_loop in Hloop.
  assert (forall x, listed st x -> x <> u) as Hlisted.
  { intros x Hx ->.
    destruct (loop_listed_pages _ _ _ _ Hloop) with (x := u) as (r' & Hin & Hr');
      [|done|].
    - intros x; unfold listed; simpl; tauto.
    - apply Huniq in Hin as ->. congruence. }
  split; [by apply (loop_per_page_failure _ _ _ _ _ _ Hloop)|].
  repeat (split; [intros Hin; apply (Hlisted u); unfold listed; tauto|]).
  split.
  { apply dict_get_None. intros Hin; apply (Hlisted u); unfold listed; tauto. }
  destruct (loop_without results (without u results) u results) with
    (st := mkTally [] [] [] [] [] [] [] [] [] [])
    (st2 := mkTally [] [] [] [] [] [] [] [] [] []) (st' := st)
    as (st2 & Hloop2 & Ht & Hm & Hw); try done.
  { intros r' ->%Huniq. done. }
  unfold analyze, analyze_loop. rewrite Hloop2. simpl.
  eexists; split; [reflexivity|]. simpl.
  rewrite Ht, Hm, Hw, phrases_without; [done|].
  intros r' ->%Huniq. done.
Qed.

End FailureFacts.

(** ** The crawl *)

Section CrawlFacts.
Context `{UrlChecks} `{Web}.

Implicit Types (st : CrawlState) (fs futures to_visit : list string).

(** Every submitted fetch completes, once. *)
Lemma as_completed_from_Permutation d fuel pending :
  length pending = fuel -> as_completed_from d fuel pending ≡ₚ pending.
Proof.
  revert pending; induction fuel as [|fuel IH]; intros pending Hlen; simpl.
  - by destruct pending.
  - destruct pending as [|x pending]; [done|].
    set (i := (completes_next d (x :: pending) mod length (x :: pending))%nat).
    assert (i < length (x :: pending))%nat as Hi
        by (apply Nat.mod_upper_bound; simpl; lia).
    destruct (lookup_lt_is_Some_2 _ _ Hi) as [url Hurl]. rewrite Hurl.
    rewrite (delete_Permutation _ _ _ Hurl) at 2. constructor.
    apply IH. rewrite length_delete by eauto. simpl in *; lia.
Qed.

Lemma as_completed_Permutation d futures : as_completed d futures ≡ₚ futures.
Proof. by apply as_completed_from_Permutation. Qed.

Lemma as_completed_In d futures u : In u (as_completed d futures) <-> In u futures.
Proof.
  rewrite <- !list_elem_of_In. by rewrite as_completed_Permutation.
Qed.

Lemma trace_of_app fs1 fs2 : trace_of (fs1 ++ fs2) = trace_of fs1 ++ trace_of fs2.
Proof. unfold trace_of. by rewrite flat_map_app. Qed.

Lemma submitted_trace_of fs : submitted (trace_of fs) = fs.
Proof. induction fs as [|u fs IH]; simpl; [done|]. unfold submitted in *; simpl. by rewrite IH. Qed.

(** In a trace, an address is marked visited right before it is
    submitted, and neither happens a second time. *)
Lemma trace_of_split fs : forall pre u post,
  NoDup fs -> trace_of fs = pre ++ Submitted u :: post ->
  In (Visited u) pre /\ ~ In (Submitted u) pre
  /\ ~ In (Visited u) post /\ ~ In (Submitted u) post.
Proof.
  assert (forall fs u e, In e (trace_of fs) -> e = Visited u \/ e = Submitted u ->
                         In u fs) as Hin.
  { clear. induction fs as [|x fs IH]; simpl; [done|].
    intros u e [<-|[<-|He]] [Hu|Hu]; try discriminate;
      try (injection Hu as ->; tauto); eauto. }
  induction fs as [|x fs IH]; intros pre u post Hnd Heq.
  - by destruct pre.
  - apply NoDup_cons in Hnd as [Hx Hnd]. rewrite list_elem_of_In in Hx.
    simpl in Heq. destruct pre as [|e1 [|e2 pre]]; simplify_eq/=.
    + repeat split; try tauto; [intros [?|[]]; discriminate| |];
        intros Hp; apply Hx; eapply Hin; eauto.
    + match goal with Heq : trace_of fs = _ |- _ => rename Heq into Hfs end.
      destruct (IH _ _ _ Hnd Hfs) as (H1' & H2' & H3' & H4').
      assert (u <> x) as Hne.
      { intros ->. apply Hx. apply (Hin fs x (Submitted x)); [|tauto].
        rewrite Hfs. apply in_app_iff. right. by left. }
      repeat split; try tauto.
      intros [?|[?|?]]; simplify_eq; tauto.
Qed.

(** The loop that submits the fetches keeps the invariant; it submits
    addresses of [to_visit] only, and changes no result. *)
Lemma dispatch_inv max_pages to_visit : forall st futures fs st' futures',
  crawl_inv max_pages st fs ->
  dispatch max_pages to_visit st futures = (st', futures') ->
  exists new,
    futures' = futures ++ new /\ crawl_inv max_pages st' (fs ++ new)
    /\ results st' = results st /\ incl new to_visit.
Proof.
  induction to_visit as [|url rest IH]; intros st futures fs st' futures' Hinv Hd;
    simpl in Hd.
  { injection Hd as <- <-. exists []. rewrite !app_nil_r.
    split_and!; try done. by intros ? []. }
  destruct (Z.leb_spec max_pages (pages_crawled st)) as [Hfull|Hroom].
  { injection Hd as <- <-. exists []. rewrite !app_nil_r.
    split_and!; try done. by intros ? []. }
  destruct (bool_decide_reflect (url ∈ visited st)) as [Hv|Hv].
  { destruct (IH _ _ _ _ _ Hinv Hd) as (new & ? & ? & ? & ?).
    exists new. split_and!; try done. by apply incl_tl. }
  destruct Hinv as [Hev Hnd Hvis Hpg Hbud Hknd Hk].
  assert (crawl_inv max_pages
            (mkCrawl ({[url]} ∪ visited st) (results st) (pages_crawled st + 1)
                     (events st ++ [Visited url; Submitted url]))
            (fs ++ [url])) as Hinv1.
  { constructor; simpl.
    - by rewrite trace_of_app, Hev.
    - apply NoDup_app. split; [done|]. split; [|apply NoDup_singleton].
      intros x Hx ->%list_elem_of_singleton. apply Hv, Hvis.
      by apply list_elem_of_In.
    - intros u. rewrite in_app_iff, elem_of_union, elem_of_singleton, Hvis.
      simpl. intuition.
    - rewrite length_app, Hpg. simpl. lia.
    - right. rewrite length_app. simpl. lia.
    - done.
    - intros u Hu. apply in_app_iff. left. by apply Hk. }
  destruct (IH _ _ _ _ _ Hinv1 Hd) as (new & -> & Hinv' & Hres & Hincl).
  exists (url :: new). rewrite <- !app_assoc in *. simpl in *.
  split_and!; try done.
  intros x [<-|Hx]; [by left | right; by apply Hincl].
Qed.

Lemma dispatch_visited_mono max_pages to_visit u : forall st futures st' futures',
  dispatch max_pages to_visit st futures = (st', futures') ->
  u ∈ visited st -> u ∈ visited st'.
Proof.
  induction to_visit as [|url rest IH]; intros st futures st' futures' Hd Hu;
    simpl in Hd.
  { by injection Hd as <- <-. }
  destruct (max_pages <=? pages_crawled st); [by injection Hd as <- <-|].
  destruct (bool_decide (url ∈ visited st)); [eauto|].
  eapply IH; [exact Hd|]. simpl. set_solver.
Qed.

(** An address of [to_visit] is visited after the loop when the budget
    suffices for everything in front of it. *)
Lemma dispatch_reaches max_pages p B s : forall st futures st' futures',
  dispatch max_pages (p ++ B :: s) st futures = (st', futures') ->
  pages_crawled st + Z.of_nat (length p) < max_pages ->
  B ∈ visited st'.
Proof.
  induction p as [|x p IH]; intros st futures st' futures' Hd Hroom;
    simpl in Hd, Hroom.
  - destruct (Z.leb_spec max_pages (pages_crawled st)); [lia|].
    destruct (bool_decide_reflect (B ∈ visited st)).
    + by eapply dispatch_visited_mono.
    + eapply dispatch_visited_mono; [exact Hd|]. simpl. set_solver.
  - destruct (Z.leb_spec max_pages (pages_crawled st)); [lia|].
    destruct (bool_decide (x ∈ visited st)).
    + eapply IH; [exact Hd|]. lia.
    + eapply IH; [exact Hd|]. simpl. lia.
Qed.

(** Handling a completed fetch writes the entry of its address and
    nothing else. *)
Lemma handle_result_frame start_url max_pages st next_round url st' next_round' :
  handle_result start_url max_pages (st, next_round) url = Ok (st', next_round') ->
  visited st' = visited st /\ pages_crawled st' = pages_crawled st
  /\ events st' = events st
  /\ exists e, results st' = Dict.set url e (results st).
Proof.
  unfold handle_result.
  destruct (fetch url) as [? err|? code el html fin hd].
  - destruct (Py.truthy err); intros [= <- <-]; simpl; eauto 10.
  - destruct (code =? 200); cbn [negb].
    + intros Hb. inv_bind Hb as nr Hl. injection Hb as <- <-. simpl. eauto 10.
    + intros [= <- <-]; simpl; eauto 10.
Qed.

Lemma handle_result_inv start_url max_pages st next_round url st' next_round' fs :
  handle_result start_url max_pages (st, next_round) url = Ok (st', next_round') ->
  In url fs -> crawl_inv max_pages st fs ->
  crawl_inv max_pages st' fs
  /\ forall u, In u (Dict.keys (results st')) <-> u = url \/ In u (Dict.keys (results st)).
Proof.
  intros (Hv & Hp & He & e & Hr)%handle_result_frame Hurl [].
  split; [|intros u; rewrite Hr; apply dict_In_keys_set].
  constructor; rewrite ?Hv, ?Hp, ?He, ?Hr; try done.
  - by apply dict_NoDup_set.
  - intros u [->|Hu]%dict_In_keys_set; auto.
Qed.

Lemma handle_results_inv start_url max_pages fs l : forall acc acc',
  for_each (handle_result start_url max_pages) l acc = Ok acc' ->
  incl l fs -> crawl_inv max_pages (fst acc) fs ->
  crawl_inv max_pages (fst acc') fs
  /\ forall u, In u (Dict.keys (results (fst acc')))
               <-> In u l \/ In u (Dict.keys (results (fst acc))).
Proof.
  induction l as [|url l IH]; intros acc acc' Hrun Hl Hinv.
  - injection Hrun as <-. split; [done|]. simpl; tauto.
  - rewrite for_each_cons in Hrun. inv_bind Hrun as [st1 nr1] Hstep.
    destruct acc as [st nr].
    destruct (handle_result_inv _ _ _ _ _ _ _ fs Hstep) as [Hinv1 Hk1];
      [apply Hl; by left | done |].
    destruct (IH _ _ Hrun) as [Hinv' Hk']; [by intros ? ?; apply Hl; right|done|].
    split; [done|]. intros u. rewrite Hk'. cbn [fst]. rewrite Hk1.
    change (In u (url :: l)) with (url = u \/ In u l). intuition.
Qed.

(** One round of the crawl that is not cut short. *)
Lemma crawl_rounds_step n d start_url max_pages workers to_visit st st' :
  crawl_rounds (S n) d start_url max_pages workers to_visit st = Ok st' ->
  pages_crawled st < max_pages ->
  0 < workers
  /\ exists st1 futures st2 next_round,
       dispatch max_pages to_visit st [] = (st1, futures)
       /\ for_each (handle_result start_url max_pages) (as_completed d futures)
                   (st1, []) = Ok (st2, next_round)
       /\ crawl_rounds n (S d) start_url max_pages workers next_round st2 = Ok st'.
Proof.
  simpl. intros Hrun Hroom.
  destruct (Z.leb_spec max_pages (pages_crawled st)); [lia|].
  destruct (Z.leb_spec workers 0); [discriminate|]. split; [done|].
  destruct (dispatch max_pages to_visit st []) as [st1 futures].
  inv_bind Hrun as [st2 nr] Hround. by exists st1, futures, st2, nr.
Qed.

(** The invariant holds in every state that the rounds reach; entries
    are added and never removed. *)
Lemma crawl_rounds_inv n : forall d start_url max_pages workers to_visit st fs st',
  crawl_inv max_pages st fs ->
  crawl_rounds n d start_url max_pages workers to_visit st = Ok st' ->
  (exists fs', crawl_inv max_pages st' fs')
  /\ forall u, In u (Dict.keys (results st)) -> In u (Dict.keys (results st')).
Proof.
  induction n as [|n IH]; intros d start_url max_pages workers to_visit st fs st'
                                 Hinv Hrun.
  { injection Hrun as <-. eauto. }
  destruct (Z.leb_spec max_pages (pages_crawled st)) as [Hfull|Hroom].
  { simpl in Hrun. apply Z.leb_le in Hfull. rewrite Hfull in Hrun.
    injection Hrun as <-. eauto. }
  apply crawl_rounds_step in Hrun
      as (_ & st1 & futures & st2 & nr & Hd & Hround & Hrest); [|done].
  destruct (dispatch_inv _ _ _ _ _ _ _ Hinv Hd) as (new & Hf & Hinv1 & Hres & _).
  simpl in Hf; subst futures.
  destruct (handle_results_inv _ _ (fs ++ new) _ _ _ Hround) as [Hinv2 Hk2];
    [|done|].
  { intros u Hu%as_completed_In. apply in_app_iff. by right. }
  destruct (IH _ _ _ _ _ _ _ _ Hinv2 Hrest) as [Hinv' Hmono].
  split; [done|]. intros u Hu. apply Hmono, Hk2. right. simpl. by rewrite Hres.
Qed.

Lemma crawl_inv_init max_pages : crawl_inv max_pages (mkCrawl ∅ [] 0 []) [].
Proof.
  constructor; simpl; try done; [apply NoDup_nil_2|by left|apply NoDup_nil_2].
Qed.

Lemma crawl_run_inv start_url depth max_pages workers st :
  crawl_run start_url depth max_pages workers = Ok st ->
  exists fs, crawl_inv max_pages st fs.
Proof.
  intros Hrun. by apply (crawl_rounds_inv _ _ _ _ _ _ _ _ _ (crawl_inv_init _)) in Hrun as [? _].
Qed.

(** C1: with a positive [max_pages], the mapping that [crawl] returns
    has at most [max_pages] entries. *)
Theorem crawl_at_most_max_pages start_url depth max_pages workers mapping :
  0 < max_pages ->
  crawl start_url depth max_pages workers = Ok mapping ->
  Z.of_nat (length mapping) <= max_pages.
Proof.
  intros Hpos Hc. unfold crawl in Hc. inv_bind Hc as st Hrun. injection Hc as <-.
  apply crawl_run_inv in Hrun as [fs [Hev Hnd Hvis Hpg Hbud Hknd Hk]].
  assert (length (Dict.keys (results st)) <= length fs)%nat as Hlen.
  { apply NoDup_incl_length; [by apply NoDup_ListNoDup|]. intros u. apply Hk. }
  unfold Dict.keys in Hlen. rewrite length_map in Hlen.
  destruct Hbud as [->|?]; simpl in *; lia.
Qed.

(** C2: every address is fetched at most once.  In the trace of a crawl
    no address is submitted twice; an address is added to the visited
    set before its fetch is submitted, and after that it is neither
    added nor submitted again; and the keys of the result mapping are
    distinct addresses that were submitted. *)
Theorem crawl_fetches_once start_url depth max_pages workers st :
  crawl_run start_url depth max_pages workers = Ok st ->
  NoDup (submitted (events st))
  /\ (forall pre u post,
        events st = pre ++ Submitted u :: post ->
        In (Visited u) pre /\ ~ In (Submitted u) pre
        /\ ~ In (Visited u) post /\ ~ In (Submitted u) post)
  /\ NoDup (Dict.keys (results st))
  /\ forall u, In u (Dict.keys (results st)) -> In u (submitted (events st)).
Proof.
  intros [fs [Hev Hnd Hvis Hpg Hbud Hknd Hk]]%crawl_run_inv.
  rewrite Hev, submitted_trace_of.
  split_and!; try done. intros pre u post. by apply trace_of_split.
Qed.

(** *** The first round and the anchors of a page *)

Lemma in_list_In (s : string) (l : list string) : Py.in_list s l = true <-> In s l.
Proof.
  unfold Py.in_list. rewrite existsb_exists. split.
  - by intros (x & Hx & ->%String.eqb_eq).
  - intros Hs. exists s. by rewrite String.eqb_refl.
Qed.

(** The anchors of a page add at most one address each to the next
    round, at its end. *)
Lemma collect_links_grow start_url url max_pages st l : forall nr nr',
  for_each (collect_link start_url url max_pages st) l nr = Ok nr' ->
  exists extra, nr' = nr ++ extra /\ (length extra <= length l)%nat.
Proof.
  induction l as [|a l IH]; intros nr nr' Hrun.
  - injection Hrun as <-. exists []. by rewrite app_nil_r.
  - rewrite for_each_cons in Hrun. inv_bind Hrun as nr1 Hstep.
    destruct (IH _ _ Hrun) as (extra & -> & Hlen).
    assert (nr1 = nr \/ exists n, nr1 = nr ++ [n]) as [->|[n ->]].
    { unfold collect_link in Hstep. inv_bind Hstep as [n|] Hn; [|left; congruence].
      destruct (negb (Py.truthy n)); [left; congruence|].
      destruct (is_same_domain start_url n); [|left; congruence].
      destruct (_ && _); [right; exists n|left]; congruence. }
    + exists extra. split; [done|]. simpl; lia.
    + exists (n :: extra). rewrite <- app_assoc. split; [done|]. simpl; lia.
Qed.

(** The first round fetches the start address and nothing else. *)
Lemma first_round A max_pages st1 futures :
  0 < max_pages ->
  dispatch max_pages [A] (mkCrawl ∅ [] 0 []) [] = (st1, futures) ->
  st1 = mkCrawl ({[A]} ∪ ∅) [] 1 [Visited A; Submitted A] /\ futures = [A].
Proof.
  intros Hpos. simpl.
  destruct (Z.leb_spec max_pages 0); [lia|].
  rewrite bool_decide_eq_false_2 by set_solver. by intros [= <- <-].
Qed.

End CrawlFacts.

(** ** The example site *)

Section OnSite.
Local Existing Instance Site.checks.
Local Existing Instance Site.web.

Lemma site_mapping_keys : NoDup (Dict.keys Site.mapping).
Proof. apply (bool_decide_unpack _). by vm_compute. Qed.

(** The crawl of the site with depth 5 and budget 10 returns 4 entries. *)
Lemma crawl_at_most_max_pages_witness :
  0 < 10 /\ crawl "http://a.com/" 5 10 8 = Ok Site.mapping
  /\ Z.of_nat (length Site.mapping) <= 10.
Proof.
  assert (crawl "http://a.com/" 5 10 8 = Ok Site.mapping) as Hc
      by (vm_compute; reflexivity).
  split; [lia|]. split; [exact Hc|].
  apply (crawl_at_most_max_pages "http://a.com/" 5 10 8); [lia|exact Hc].
Defined.

Lemma crawl_fetches_once_witness :
  crawl_run "http://a.com/" 5 10 8 = Ok Site.final_state
  /\ NoDup (submitted (events Site.final_state))
  /\ NoDup (Dict.keys (results Site.final_state)).
Proof.
  assert (crawl_run "http://a.com/" 5 10 8 = Ok Site.final_state) as Hc
      by (vm_compute; reflexivity).
  split; [exact Hc|].
  destruct (crawl_fetches_once "http://a.com/" 5 10 8 Site.final_state Hc)
    as (Hs & _ & Hk & _).
  split; [exact Hs|exact Hk].
Defined.

(** C3 fails as stated: the front page links to [/c] and then to [/b],
    which no other page links to; with depth 1 and a budget of two pages
    the second round fetches [/c] only, and [/b] is not a key. *)
Lemma depth_one_budget_two :
  In (mkLink (Some "/b") "see b") (links (extract_onpage "http://a.com" "front"))
  /\ norm_url "http://a.com" (Some "/b") = Ok (Some "http://a.com/b")
  /\ (mapping ← crawl "http://a.com/" 1 2 8;
      Ok (Dict.keys mapping, Dict.mem "http://a.com/b" mapping))
     = Ok (["http://a.com"; "http://a.com/c"], false).
Proof.
  split; [|split]; [|vm_compute; reflexivity..].
  vm_compute. right. left. reflexivity.
Qed.

(** The front page links to [/b], whose entry is the HTTP error 404. *)
Lemma broken_link_reported_witness :
  Dict.get "http://a.com/b" Site.mapping
  = Some (HttpEntry (Some 404) (Some "http://a.com/b"))
  /\ analyze Site.mapping = Ok (Site.summary_of (analyze Site.mapping))
  /\ exists broken,
       Dict.get "http://a.com" (broken_links (Site.summary_of (analyze Site.mapping)))
       = Some broken
       /\ In (mkBroken "http://a.com/b" (Some 404)) broken.
Proof.
  assert (analyze Site.mapping = Ok (Site.summary_of (analyze Site.mapping)))
    as Hs by (vm_compute; reflexivity).
  split; [vm_compute; reflexivity|]. split; [exact Hs|].
  apply (broken_link_reported Site.mapping _ "http://a.com" "http://a.com/b"
           (Some "http://a.com/") 120 [] (extract_onpage "http://a.com" "front")
           (mkLink (Some "/b") "see b") (Some "http://a.com/b")
           site_mapping_keys);
    [vm_compute; reflexivity | vm_compute; tauto | vm_compute; reflexivity..
    | exact Hs].
Defined.

(** Two pages titled [Home] make the entry [Home: 2]; the title with a
    space after it is not counted with them. *)
Lemma duplicates_exact_witness :
  analyze Site.home_pages = Ok (Site.summary_of (analyze Site.home_pages))
  /\ duplicate_titles (Site.summary_of (analyze Site.home_pages)) = [("Home", 2%nat)]
  /\ (Dict.get "Home" (duplicate_titles (Site.summary_of (analyze Site.home_pages)))
      = Some 2%nat
      <-> 2%nat = pages_with title "Home" Site.home_pages /\ (1 < 2)%nat).
Proof.
  assert (analyze Site.home_pages = Ok (Site.summary_of (analyze Site.home_pages)))
    as Hs by (vm_compute; reflexivity).
  split; [exact Hs|]. split; [vm_compute; reflexivity|].
  exact (proj1 (duplicates_exact Site.home_pages _ "Home" 2%nat Hs)).
Defined.

(** The address [/d], whose fetch failed, is reported with its error. *)
Lemma failed_address_only_reported_witness :
  Dict.get "http://a.com/d" Site.mapping = Some (ErrorEntry "connection refused")
  /\ analyze Site.mapping = Ok (Site.summary_of (analyze Site.mapping))
  /\ Dict.get "http://a.com/d" (per_page (Site.summary_of (analyze Site.mapping)))
     = Some (ReportError "connection refused").
Proof.
  assert (Dict.get "http://a.com/d" Site.mapping
          = Some (ErrorEntry "connection refused")) as Hd
      by (vm_compute; reflexivity).
  assert (analyze Site.mapping = Ok (Site.summary_of (analyze Site.mapping)))
    as Hs by (vm_compute; reflexivity).
  split; [exact Hd|]. split; [exact Hs|].
  exact (proj1 (failed_address_only_reported Site.mapping _ "http://a.com/d" _
                  site_mapping_keys Hd eq_refl Hs)).
Defined.

(** C6 fails on the code: a site of one page with 81 different words,
    each once, whose title is the last of them.  All 81 words are among
    the 120 most frequent unigrams, so the overlap of the phrase [xdc]
    should be 1 and its score 2; the code takes the overlap with
    [top_words], which holds 80 words only, and gets 0 and 1. *)
Theorem overlap_uses_top_80 :
  (s ← analyze Site.many_words; Ok (length (top_words s), candidate_phrases s))
  = Ok (80%nat, [mkCandidate "xdc" 1 0 1])
  /\ candidate_phrases_120 Site.many_words = Ok [mkCandidate "xdc" 1 1 2].
Proof. split; vm_compute; reflexivity. Qed.

End OnSite.

(** ** Empty and blank links *)

Section BlankLinks.
Context `{UrlChecks}.

(** An absent or empty link is rejected. *)
Lemma norm_url_empty base :
  norm_url base None = Ok None /\ norm_url base (Some "") = Ok None.
Proof. done. Qed.

(** C4 fails on the code: a link of three spaces is not empty, so it
    passes the test [if not link]; it is stripped to the empty string
    afterwards, [urljoin] answers the base for it, and [norm_url]
    returns the base address instead of [None]. *)
Theorem norm_url_blank_link :
  Py.all_chars Py.isspace "   " = true
  /\ norm_url "http://a.com/x" (Some "   ") = Ok (Some "http://a.com/x").
Proof. split; reflexivity. Qed.

End BlankLinks.

(** ** Strings *)

Section StringFacts.
Implicit Types (s a b : string) (c : ascii) (f g p : ascii -> bool).
Local Arguments String.append !_ _ : simpl nomatch.

Lemma append_assoc a b s : (a +:+ b) +:+ s = a +:+ b +:+ s.
Proof. induction a as [|c a IH]; simpl; [done|]. by rewrite IH. Qed.

Lemma append_nil_r s : s +:+ "" = s.
Proof. induction s as [|c s IH]; simpl; [done|]. by rewrite IH. Qed.

Lemma all_chars_app f a b :
  Py.all_chars f (a +:+ b) = Py.all_chars f a && Py.all_chars f b.
Proof.
  induction a as [|c a IH]; simpl; [done|]. rewrite IH. by destruct (f c).
Qed.

Lemma all_chars_and f g s :
  Py.all_chars (fun c => f c && g c) s = Py.all_chars f s && Py.all_chars g s.
Proof.
  induction s as [|c s IH]; simpl; [done|]. rewrite IH.
  destruct (f c), (g c), (Py.all_chars f s); done.
Qed.

Lemma all_chars_impl f g s :
  (forall c, f c = true -> g c = true) ->
  Py.all_chars f s = true -> Py.all_chars g s = true.
Proof.
  intros Hfg. induction s as [|c s IH]; simpl; [done|].
  intros [Hc Hs]%andb_true_iff. rewrite (Hfg _ Hc). simpl. auto.
Qed.

Lemma contains_all_chars c s :
  Py.contains c s = negb (Py.all_chars (fun d => negb (Ascii.eqb c d)) s).
Proof.
  induction s as [|d s IH]; simpl; [done|]. rewrite IH.
  by destruct (Ascii.eqb c d).
Qed.

Lemma lstrip_all_chars f p s :
  Py.all_chars f s = true -> Py.all_chars f (Py.lstrip p s) = true.
Proof.
  induction s as [|c s IH]; simpl; [done|].
  intros Hs. destruct (p c); [|done]. apply andb_true_iff in Hs as [_ Hs]. auto.
Qed.

Lemma remove_chars_safe p s :
  Py.all_chars (fun c => negb (p c)) (Py.remove_chars p s) = true.
Proof.
  induction s as [|c s IH]; simpl; [done|].
  destruct (p c) eqn:E; simpl; [done|]. by rewrite E.
Qed.

Lemma remove_chars_id p s :
  Py.all_chars (fun c => negb (p c)) s = true -> Py.remove_chars p s = s.
Proof.
  induction s as [|c s IH]; simpl; [done|].
  intros [Hc Hs]%andb_true_iff. apply negb_true_iff in Hc. rewrite Hc.
  by rewrite IH.
Qed.

Lemma remove_chars_all_chars f p s :
  Py.all_chars f s = true -> Py.all_chars f (Py.remove_chars p s) = true.
Proof.
  induction s as [|c s IH]; simpl; [done|].
  intros [Hc Hs]%andb_true_iff. destruct (p c); simpl; [auto|].
  rewrite Hc. simpl. auto.
Qed.

(** [break]: the two parts make the string, the first part has no
    character of [p], and the second part starts with one or is empty. *)
Lemma break_spec p s a b :
  Py.break p s = (a, b) ->
  s = a +:+ b /\ Py.all_chars (fun c => negb (p c)) a = true
  /\ match b with
     | EmptyString => True
     | String c _ => p c = true
     end.
Proof.
  revert a b; induction s as [|c s IH]; intros a b; simpl.
  - by intros [= <- <-].
  - destruct (p c) eqn:E.
    + by intros [= <- <-].
    + destruct (Py.break p s) as [a' b'] eqn:Eb. intros [= <- <-].
      destruct (IH _ _ eq_refl) as (-> & Ha & Hb). simpl. by rewrite E.
Qed.

Lemma break_app p a b :
  Py.all_chars (fun c => negb (p c)) a = true ->
  Py.break p (a +:+ b) = (a +:+ fst (Py.break p b), snd (Py.break p b)).
Proof.
  induction a as [|c a IH]; simpl.
  - intros _. by destruct (Py.break p b).
  - intros [Hc Ha]%andb_true_iff. apply negb_true_iff in Hc. rewrite Hc.
    by rewrite IH.
Qed.

Lemma break_head p c s : p c = true -> Py.break p (String c s) = ("", String c s).
Proof. simpl. by intros ->. Qed.

Lemma break_all p s :
  Py.all_chars (fun c => negb (p c)) s = true -> Py.break p s = (s, "").
Proof.
  intros Hs. rewrite <- (append_nil_r s) at 1. rewrite break_app by done.
  simpl. by rewrite append_nil_r.
Qed.

(** The parts of a string that are cut out of it keep what holds of all
    its characters. *)
Lemma break_all_chars f p s a b :
  Py.break p s = (a, b) -> Py.all_chars f s = true ->
  Py.all_chars f a = true /\ Py.all_chars f b = true.
Proof.
  intros (-> & _ & _)%break_spec. rewrite all_chars_app.
  by intros [? ?]%andb_true_iff.
Qed.

Lemma cut_Some c s a b :
  Py.cut c s = Some (a, b) ->
  s = a +:+ String c b
  /\ Py.all_chars (fun d => negb (Ascii.eqb c d)) a = true.
Proof.
  unfold Py.cut. destruct (Py.break (Ascii.eqb c) s) as [a' b'] eqn:E.
  destruct b' as [|d b']; [discriminate|]. intros [= <- <-].
  apply break_spec in E as (-> & Ha & ->%Ascii.eqb_eq). done.
Qed.

Lemma cut_None c s :
  Py.all_chars (fun d => negb (Ascii.eqb c d)) s = true -> Py.cut c s = None.
Proof. intros Hs. unfold Py.cut. by rewrite break_all. Qed.

Lemma cut_app c a b :
  Py.all_chars (fun d => negb (Ascii.eqb c d)) a = true ->
  Py.cut c (a +:+ String c b) = Some (a, b).
Proof.
  intros Ha. unfold Py.cut. rewrite break_app by done.
  rewrite break_head by apply Ascii.eqb_refl. simpl. by rewrite append_nil_r.
Qed.

Lemma cut_all_chars f c s a b :
  Py.cut c s = Some (a, b) -> Py.all_chars f s = true ->
  Py.all_chars f a = true /\ Py.all_chars f b = true.
Proof.
  intros [-> _]%cut_Some. rewrite all_chars_app. simpl.
  intros [? [? ?]%andb_true_iff]%andb_true_iff. done.
Qed.

End StringFacts.

(** ** Parameters of the last path segment *)

Section ParamsFacts.
Implicit Types (s a b h t X : string) (c : ascii).
Local Arguments String.append !_ _ : simpl nomatch.
Local Arguments Ascii.eqb : simpl never.

Lemma cut_None_inv c s :
  Py.cut c s = None -> Py.all_chars (fun d => negb (Ascii.eqb c d)) s = true.
Proof.
  unfold Py.cut. destruct (Py.break (Ascii.eqb c) s) as [a b] eqn:E.
  destruct b; [|discriminate]. intros _.
  apply break_spec in E as (-> & Ha & _). by rewrite append_nil_r.
Qed.

Lemma rsplit_slash_spec X h t :
  Urllib.rsplit_slash X = (h, t) ->
  X = h +:+ t /\ Py.all_chars not_slash t = true
  /\ (h = "" \/ exists h', h = h' +:+ "/").
Proof.
  revert h t; induction X as [|c X IH]; intros h t; simpl.
  - intros [= <- <-]. auto.
  - destruct (Urllib.rsplit_slash X) as [h0 t0].
    destruct (IH _ _ eq_refl) as (-> & Ht & Hh).
    destruct h0 as [|c0 h0].
    + destruct (Ascii.eqb_spec c "/") as [->|Hc]; intros [= <- <-]; simpl.
      * split_and!; [done..|]. right. by exists "".
      * split_and!; [done| |by left]. unfold not_slash at 1.
        destruct (Ascii.eqb_spec "/" c); [congruence|done].
    + intros [= <- <-]. split_and!; [done..|]. right.
      destruct Hh as [?|[h' ->]]; [done|]. by exists (String c h').
Qed.

Lemma rsplit_slash_no_slash t :
  Py.all_chars not_slash t = true -> Urllib.rsplit_slash t = ("", t).
Proof.
  induction t as [|c t IH]; simpl; [done|].
  intros [Hc Ht]%andb_true_iff. rewrite IH by done.
  unfold not_slash in Hc. apply negb_true_iff in Hc.
  rewrite Ascii.eqb_sym in Hc. by rewrite Hc.
Qed.

Lemma rsplit_slash_head X :
  Py.contains "/" X = true -> Py.truthy (fst (Urllib.rsplit_slash X)) = true.
Proof.
  induction X as [|c X IH]; simpl; [done|].
  destruct (Urllib.rsplit_slash X) as [[|c0 h0] t0] eqn:E; [|done].
  rewrite (Ascii.eqb_sym "/" c).
  destruct (Ascii.eqb_spec c "/") as [->|Hc]; [done|]. simpl. done.
Qed.

(** In front of a string with a ['/'], nothing changes its last segment. *)
Lemma rsplit_slash_app a b :
  Py.contains "/" b = true ->
  snd (Urllib.rsplit_slash (a +:+ b)) = snd (Urllib.rsplit_slash b).
Proof.
  intros Hb. induction a as [|c a IH]; simpl; [done|].
  assert (Py.contains "/" (a +:+ b) = true) as Hab.
  { clear IH. induction a as [|d a IH]; simpl; [done|]. rewrite IH. apply orb_true_r. }
  apply rsplit_slash_head in Hab.
  destruct (Urllib.rsplit_slash (a +:+ b)) as [[|c0 h0] t0]; [done|]. done.
Qed.

Lemma rsplit_slash_cons_slash X :
  snd (Urllib.rsplit_slash (String "/" X)) = snd (Urllib.rsplit_slash X).
Proof. simpl. by destruct (Urllib.rsplit_slash X) as [[|c0 h0] t0]. Qed.

Lemma rsplit_slash_ends h' t :
  Py.all_chars not_slash t = true ->
  Urllib.rsplit_slash ((h' +:+ "/") +:+ t) = (h' +:+ "/", t).
Proof.
  intros Ht. induction h' as [|c h' IH]; simpl.
  - by rewrite rsplit_slash_no_slash.
  - rewrite IH. by destruct h'.
Qed.

Lemma seg_ok_no_semi t : Py.all_chars not_semi t = true -> seg_ok t = true.
Proof. intros Ht. unfold seg_ok. by rewrite cut_None. Qed.

(** [_splitparams], and writing the parameters back. *)
Lemma splitparams_rejoin X :
  seg_ok (snd (Urllib.rsplit_slash X)) = true ->
  rejoin (fst (Urllib.splitparams X)) (snd (Urllib.splitparams X)) = X.
Proof.
  unfold Urllib.splitparams, seg_ok.
  destruct (Urllib.rsplit_slash X) as [h t] eqn:E. simpl.
  apply rsplit_slash_spec in E as (-> & _ & _).
  destruct (Py.cut ";" t) as [[a b]|] eqn:Ec; [|done].
  apply cut_Some in Ec as [-> _]. destruct b as [|c b]; [done|]. intros _.
  unfold rejoin; simpl. by rewrite append_assoc.
Qed.

(** The path and the parameters that [_splitparams] returns make a
    string that it splits the same way again. *)
Lemma splitparams_seg_ok X :
  seg_ok (snd (Urllib.rsplit_slash
                 (rejoin (fst (Urllib.splitparams X)) (snd (Urllib.splitparams X)))))
  = true.
Proof.
  unfold Urllib.splitparams.
  destruct (Urllib.rsplit_slash X) as [h t] eqn:E.
  pose proof E as (-> & Ht & Hh)%rsplit_slash_spec.
  destruct (Py.cut ";" t) as [[a b]|] eqn:Ec; simpl.
  - pose proof Ec as [-> Ha]%cut_Some.
    destruct b as [|c b]; unfold rejoin; simpl.
    + (* the parameters are empty: the segment is what stood before ';' *)
      assert (Py.all_chars not_slash a = true) as Hsl.
      { rewrite all_chars_app in Ht. by apply andb_true_iff in Ht as [? _]. }
      destruct Hh as [->|[h' ->]]; [rewrite rsplit_slash_no_slash by done
                                   |rewrite rsplit_slash_ends by done];
        by apply seg_ok_no_semi.
    + rewrite append_assoc, E. simpl. unfold seg_ok. by rewrite Ec.
  - unfold rejoin; simpl. rewrite E. simpl. unfold seg_ok. by rewrite Ec.
Qed.

End ParamsFacts.

(** ** The components that [urlsplit] and [urlparse] return *)

Section ParseFacts.
Context `{UrlChecks}.
Implicit Types (s a b x d u X : string) (c : ascii).
Local Arguments String.append !_ _ : simpl nomatch.
Local Arguments Ascii.eqb : simpl never.

Lemma drop2_all_chars f s :
  Py.all_chars f s = true -> Py.all_chars f (Py.drop2 s) = true.
Proof.
  destruct s as [|c1 [|c2 s]]; simpl; try done.
  by intros [_ [_ ?]%andb_true_iff]%andb_true_iff.
Qed.

Lemma split_scheme_rest f url d sch rest :
  Urllib.split_scheme url d = (sch, rest) ->
  Py.all_chars f url = true -> Py.all_chars f rest = true.
Proof.
  unfold Urllib.split_scheme.
  destruct (Py.cut ":" url) as [[[|c0 pre] r]|] eqn:E;
    [by intros [= <- <-]| |by intros [= <- <-]].
  destruct (_ && _); intros [= <- <-]; [|done].
  intros Hu. by apply (cut_all_chars _ _ _ _ _ E) in Hu as [_ ?].
Qed.

Lemma nchar_pchar c : nchar c = true -> pchar c = true.
Proof.
  unfold nchar, pchar, not_delim, Urllib.netloc_delim, not_hash, not_qmark.
  rewrite !(Ascii.eqb_sym c).
  destruct (safe c), (Ascii.eqb "/" c), (Ascii.eqb "?" c), (Ascii.eqb "#" c);
    simpl; try done.
Qed.

Lemma nchar_not_slash c : nchar c = true -> not_slash c = true.
Proof.
  unfold nchar, not_delim, Urllib.netloc_delim, not_slash.
  rewrite !(Ascii.eqb_sym c).
  destruct (safe c), (Ascii.eqb "/" c); simpl; done.
Qed.

Lemma all_chars_3 f g h s :
  Py.all_chars f s = true -> Py.all_chars g s = true -> Py.all_chars h s = true ->
  Py.all_chars (fun c => f c && g c && h c) s = true.
Proof. intros Hf Hg Hh. by rewrite !all_chars_and, Hf, Hg, Hh. Qed.

Lemma all_chars_2 f g s :
  Py.all_chars f s = true -> Py.all_chars g s = true ->
  Py.all_chars (fun c => f c && g c) s = true.
Proof. intros Hf Hg. by rewrite !all_chars_and, Hf, Hg. Qed.

(** The characters of the components of a split address. *)
Lemma urlsplit_components x d sp :
  Urllib.urlsplit x d = Ok sp ->
  Py.all_chars nchar (Urllib.s_netloc sp) = true
  /\ Py.all_chars pchar (Urllib.s_path sp) = true
  /\ Py.all_chars qchar (Urllib.s_query sp) = true.
Proof.
  unfold Urllib.urlsplit.
  set (url1 := Py.remove_chars Urllib.unsafe_byte (Py.lstrip Urllib.c0_or_space x)).
  assert (Py.all_chars safe url1 = true) as H1 by apply remove_chars_safe.
  destruct (Urllib.split_scheme url1 _) as [sch url2] eqn:E2.
  pose proof (split_scheme_rest _ _ _ _ _ E2 H1) as H2.
  intros Hb. inv_bind Hb as [nl url3] Hnl.
  assert (Py.all_chars nchar nl = true /\ Py.all_chars safe url3 = true) as [Hn H3].
  { destruct (String.eqb _ "//").
    - unfold Urllib.splitnetloc2 in Hnl.
      destruct (Py.break _ _) as [nl' rest] eqn:Eb.
      inv_bind Hnl as [] Hbr. injection Hnl as <- <-.
      pose proof (break_all_chars safe _ _ _ _ Eb (drop2_all_chars _ _ H2))
        as [Hs1 Hs2].
      apply break_spec in Eb as (_ & Hd & _).
      split; [|done]. by apply all_chars_2.
    - by injection Hnl as <- <-. }
  destruct (Py.cut "#" url3) as [[url4 frag]|] eqn:E4.
  - pose proof (cut_all_chars safe _ _ _ _ E4 H3) as [H4 _].
    apply cut_Some in E4 as [_ Hh4].
    destruct (Py.cut "?" url4) as [[url5 qry]|] eqn:E5.
    + pose proof (cut_all_chars safe _ _ _ _ E5 H4) as [H5 H5'].
      pose proof (cut_all_chars _ _ _ _ _ E5 Hh4) as [Hh5 Hh5'].
      apply cut_Some in E5 as [_ Hq5].
      inv_bind Hb as [] Hck. injection Hb as <-. simpl.
      split_and!; [done|by apply all_chars_3|by apply all_chars_2].
    + apply cut_None_inv in E5.
      inv_bind Hb as [] Hck. injection Hb as <-. simpl.
      split_and!; [done|by apply all_chars_3|done].
  - apply cut_None_inv in E4.
    destruct (Py.cut "?" url3) as [[url5 qry]|] eqn:E5.
    + pose proof (cut_all_chars safe _ _ _ _ E5 H3) as [H5 H5'].
      pose proof (cut_all_chars _ _ _ _ _ E5 E4) as [Hh5 Hh5'].
      apply cut_Some in E5 as [_ Hq5].
      inv_bind Hb as [] Hck. injection Hb as <-. simpl.
      split_and!; [done|by apply all_chars_3|by apply all_chars_2].
    + apply cut_None_inv in E5.
      inv_bind Hb as [] Hck. injection Hb as <-. simpl.
      split_and!; [done|by apply all_chars_3|done].
Qed.

Lemma contains_app c a b :
  Py.contains c (a +:+ b) = Py.contains c a || Py.contains c b.
Proof.
  induction a as [|c0 a IH]; simpl; [done|]. rewrite IH. by rewrite orb_assoc.
Qed.

Lemma splitparams_all_chars f X :
  Py.all_chars f X = true ->
  Py.all_chars f (fst (Urllib.splitparams X)) = true
  /\ Py.all_chars f (snd (Urllib.splitparams X)) = true.
Proof.
  unfold Urllib.splitparams.
  destruct (Urllib.rsplit_slash X) as [h t] eqn:E.
  apply rsplit_slash_spec in E as (-> & _ & _).
  rewrite all_chars_app. intros [Hh Ht]%andb_true_iff.
  destruct (Py.cut ";" t) as [[a b]|] eqn:Ec; simpl.
  - apply (cut_all_chars f) in Ec as [Ha Hb]; [|done].
    by rewrite all_chars_app, Hh, Ha, Hb.
  - by rewrite all_chars_app, Hh, Ht.
Qed.

Lemma rejoin_all_chars f a b :
  f ";"%char = true -> Py.all_chars f a = true -> Py.all_chars f b = true ->
  Py.all_chars f (rejoin a b) = true.
Proof.
  intros Hf Ha Hb. unfold rejoin. destruct (Py.truthy b); [|done].
  rewrite !all_chars_app. simpl. by rewrite Ha, Hb, Hf.
Qed.

(** The characters of the components of a parsed address, and the shape
    of its last path segment. *)
Lemma urlparse_components x d p :
  Urllib.urlparse x d = Ok p ->
  Py.all_chars nchar (Urllib.netloc p) = true
  /\ Py.all_chars pchar (rejoin (Urllib.path p) (Urllib.params p)) = true
  /\ Py.all_chars qchar (Urllib.query p) = true
  /\ (Py.in_list (Urllib.scheme p) Urllib.uses_params = true ->
      seg_ok (snd (Urllib.rsplit_slash (rejoin (Urllib.path p) (Urllib.params p))))
      = true).
Proof.
  unfold Urllib.urlparse. intros Hb. inv_bind Hb as sp Hsp.
  apply urlsplit_components in Hsp as (Hn & Hp & Hq).
  destruct (Py.in_list _ _ && Py.contains ";" _) eqn:E.
  - destruct (Urllib.splitparams (Urllib.s_path sp)) as [pth prm] eqn:Es.
    injection Hb as <-. simpl.
    pose proof (splitparams_all_chars pchar _ Hp) as [Ha Hb].
    pose proof (splitparams_seg_ok (Urllib.s_path sp)) as Hok.
    rewrite Es in Ha, Hb, Hok. simpl in Ha, Hb, Hok.
    split_and!; try done. by apply rejoin_all_chars.
  - injection Hb as <-.
    cbn [Urllib.netloc Urllib.path Urllib.params Urllib.query Urllib.scheme].
    unfold rejoin; cbn [Py.truthy].
    split_and!; try done. intros Hs. rewrite Hs in E. simpl in E.
    rewrite contains_all_chars in E. apply negb_false_iff in E.
    destruct (Urllib.rsplit_slash (Urllib.s_path sp)) as [h t] eqn:Er.
    apply rsplit_slash_spec in Er as (Hx & _ & _). rewrite Hx in E.
    rewrite all_chars_app in E. apply andb_true_iff in E as [_ Ht].
    by apply seg_ok_no_semi.
Qed.

Lemma all_chars_pchar_parts X :
  Py.all_chars pchar X = true ->
  Py.all_chars safe X = true /\ Py.all_chars not_hash X = true
  /\ Py.all_chars not_qmark X = true.
Proof.
  unfold pchar. rewrite !all_chars_and. by intros [[? ?]%andb_true_iff ?]%andb_true_iff.
Qed.

Lemma all_chars_qchar_parts q :
  Py.all_chars qchar q = true ->
  Py.all_chars safe q = true /\ Py.all_chars not_hash q = true.
Proof. unfold qchar. rewrite !all_chars_and. by intros [? ?]%andb_true_iff. Qed.

(** The address that [urlunsplit] writes for an http(s) scheme without
    fragment: the scheme, [://], a part [X] and the query. *)
Lemma urlunsplit_shape s n url0 q :
  s = "http" \/ s = "https" ->
  Py.all_chars nchar n = true -> Py.all_chars pchar url0 = true ->
  seg_ok (snd (Urllib.rsplit_slash url0)) = true ->
  exists X,
    Urllib.urlunsplit s n url0 q "" = s +:+ "://" +:+ X +:+ query_suffix q
    /\ Py.all_chars pchar X = true
    /\ (Py.contains "/" X = true -> seg_ok (snd (Urllib.rsplit_slash X)) = true).
Proof.
  intros Hs Hn Hu Hok. unfold Urllib.urlunsplit.
  assert (Py.truthy s = true /\ Py.in_list s Urllib.uses_netloc = true) as [-> ->]
      by (by destruct Hs as [-> | ->]).
  cbn [andb]. fold (query_suffix q).
  destruct (Py.truthy n || negb (String.eqb (Py.take2 url0) "//")) eqn:Ec.
  - set (url0' := if Py.truthy url0 && negb (String.eqb (Py.take1 url0) "/")
                  then "/" +:+ url0 else url0).
    exists (n +:+ url0').
    assert (Py.all_chars pchar url0' = true) as Hu'.
    { unfold url0'. by destruct (_ && _). }
    assert (snd (Urllib.rsplit_slash url0') = snd (Urllib.rsplit_slash url0)) as Hseg.
    { unfold url0'. destruct (_ && _); [|done]. apply rsplit_slash_cons_slash. }
    split_and!.
    + replace (if Py.truthy q then (s +:+ ":" +:+ "//" +:+ n +:+ url0') +:+ "?" +:+ q
               else s +:+ ":" +:+ "//" +:+ n +:+ url0')
        with ((s +:+ ":" +:+ "//" +:+ n +:+ url0') +:+ query_suffix q).
      2:{ unfold query_suffix. destruct (Py.truthy q); [done|]. apply append_nil_r. }
      rewrite !append_assoc. by destruct Hs as [-> | ->].
    + rewrite all_chars_app, Hu'. rewrite andb_true_r.
      eapply all_chars_impl; [apply nchar_pchar|done].
    + rewrite contains_app. intros Hc.
      assert (Py.contains "/" n = false) as Hn'.
      { rewrite contains_all_chars. apply negb_false_iff.
        eapply all_chars_impl; [apply nchar_not_slash|done]. }
      rewrite Hn' in Hc. simpl in Hc.
      by rewrite rsplit_slash_app, Hseg.
  - apply orb_false_iff in Ec as [En Et]. apply negb_false_iff in Et.
    destruct n; [|discriminate].
    apply String.eqb_eq in Et.
    destruct url0 as [|c1 [|c2 t]]; try discriminate.
    simpl in Et. injection Et as -> ->.
    exists t. split_and!.
    + replace (if Py.truthy q then (s +:+ ":" +:+ String "/" (String "/" t)) +:+ "?" +:+ q
               else s +:+ ":" +:+ String "/" (String "/" t))
        with ((s +:+ ":" +:+ String "/" (String "/" t)) +:+ query_suffix q).
      2:{ unfold query_suffix. destruct (Py.truthy q); [done|]. apply append_nil_r. }
      rewrite !append_assoc. by destruct Hs as [-> | ->].
    + by simpl in Hu.
    + intros Hc. rewrite <- Hok. f_equal.
      symmetry. by apply (rsplit_slash_app "//").
Qed.

Lemma query_suffix_chars f q :
  f "?"%char = true -> Py.all_chars f q = true ->
  Py.all_chars f (query_suffix q) = true.
Proof.
  intros Hf Hq. unfold query_suffix. destruct (Py.truthy q); [|done].
  simpl. by rewrite Hf, Hq.
Qed.

(** Where the network location of [X] followed by a query ends. *)
Lemma break_netloc_query X q N P :
  Py.break Urllib.netloc_delim X = (N, P) ->
  Py.break Urllib.netloc_delim (X +:+ query_suffix q) = (N, P +:+ query_suffix q).
Proof.
  intros (-> & HN & HP)%break_spec. rewrite append_assoc, break_app by done.
  destruct P as [|c P]; simpl.
  - unfold query_suffix. destruct (Py.truthy q); simpl; by rewrite append_nil_r.
  - rewrite HP. simpl. by rewrite append_nil_r.
Qed.

(** Splitting a path with a query, when there is no ['#']. *)
Lemma cut_path_query P q :
  Py.all_chars not_hash P = true -> Py.all_chars not_hash q = true ->
  Py.all_chars not_qmark P = true ->
  Py.cut "#" (P +:+ query_suffix q) = None
  /\ match Py.cut "?" (P +:+ query_suffix q) with
     | Some (a, b) => (a, b)
     | None => (P +:+ query_suffix q, "")
     end = (P, q).
Proof.
  intros HP Hq HPq. split.
  - apply cut_None. rewrite all_chars_app. fold not_hash. rewrite HP. simpl.
    by apply query_suffix_chars.
  - unfold query_suffix. destruct q as [|c q]; simpl.
    + rewrite append_nil_r, cut_None; [done|]. by fold not_qmark.
    + by rewrite cut_app.
Qed.

(** [urlsplit] on an address of the shape that [urlunsplit] writes. *)
Lemma urlsplit_shaped s X q d N P :
  s = "http" \/ s = "https" ->
  Py.all_chars pchar X = true -> Py.all_chars qchar q = true ->
  Py.break Urllib.netloc_delim X = (N, P) ->
  Urllib.urlsplit (s +:+ "://" +:+ X +:+ query_suffix q) d
  = (Urllib.check_brackets N ≫= fun _ =>
     Urllib.checknetloc N ≫= fun _ => Ok (Urllib.mkSplit s N P q "")).
Proof.
  intros Hs HX Hq Hbreak.
  pose proof (all_chars_pchar_parts _ HX) as (HXs & HXh & HXq).
  pose proof (all_chars_qchar_parts _ Hq) as (Hqs & Hqh).
  set (R := X +:+ query_suffix q).
  assert (Py.all_chars safe R = true) as HR.
  { unfold R. rewrite all_chars_app, HXs. simpl. by apply query_suffix_chars. }
  pose proof (break_all_chars not_hash _ _ _ _ Hbreak HXh) as [_ HPh].
  pose proof (break_all_chars not_qmark _ _ _ _ Hbreak HXq) as [_ HPq].
  destruct (cut_path_query P q HPh Hqh HPq) as [Ehash Eq].
  unfold Urllib.urlsplit.
  assert (Py.remove_chars Urllib.unsafe_byte
            (Py.lstrip Urllib.c0_or_space (s +:+ "://" +:+ R))
          = s +:+ "://" +:+ R) as ->.
  { destruct Hs as [-> | ->].
    - change (Py.lstrip Urllib.c0_or_space ("http" +:+ "://" +:+ R))
        with ("http" +:+ "://" +:+ R).
      apply remove_chars_id. by rewrite !all_chars_app.
    - change (Py.lstrip Urllib.c0_or_space ("https" +:+ "://" +:+ R))
        with ("https" +:+ "://" +:+ R).
      apply remove_chars_id. by rewrite !all_chars_app. }
  assert (forall dflt, Urllib.split_scheme (s +:+ "://" +:+ R) dflt = (s, "//" +:+ R))
    as -> by (by destruct Hs as [-> | ->]).
  change (String.eqb (Py.take2 ("//" +:+ R)) "//") with true. cbv iota.
  change (Urllib.splitnetloc2 ("//" +:+ R)) with (Py.break Urllib.netloc_delim R).
  unfold R at 1. rewrite (break_netloc_query _ _ _ _ Hbreak).
  destruct (Urllib.check_brackets N) as [[]|e]; [|done]. simpl.
  rewrite Ehash, Eq. by destruct (Urllib.checknetloc N) as [[]|e].
Qed.

Lemma delim_pchar_slash c :
  Urllib.netloc_delim c = true -> pchar c = true -> c = "/"%char.
Proof.
  unfold Urllib.netloc_delim, pchar, not_hash, not_qmark.
  rewrite !(Ascii.eqb_sym c).
  destruct (Ascii.eqb_spec "/" c) as [<-|_]; [done|].
  destruct (Ascii.eqb "?" c), (Ascii.eqb "#" c), (safe c); simpl; done.
Qed.

(** Parsing an address of the shape that [urlunsplit] writes, and
    writing it again, gives the same address when its network location
    is not empty.  The scheme that [urlparse] is given as a default
    plays no role. *)
Lemma urlparse_shaped s X q d p :
  s = "http" \/ s = "https" ->
  Py.all_chars pchar X = true -> Py.all_chars qchar q = true ->
  (Py.contains "/" X = true -> seg_ok (snd (Urllib.rsplit_slash X)) = true) ->
  Urllib.urlparse (s +:+ "://" +:+ X +:+ query_suffix q) d = Ok p ->
  Py.truthy (Urllib.netloc p) = true ->
  Urllib.urlunparse p = s +:+ "://" +:+ X +:+ query_suffix q
  /\ Urllib.fragment p = "" /\ Urllib.scheme p = s
  /\ forall d', Urllib.urlparse (s +:+ "://" +:+ X +:+ query_suffix q) d' = Ok p.
Proof.
  intros Hs HX Hq Hseg Hp Hnl.
  destruct (Py.break Urllib.netloc_delim X) as [N P] eqn:Hbreak.
  pose proof (fun d => urlsplit_shaped s X q d N P Hs HX Hq Hbreak) as Hsplit.
  unfold Urllib.urlparse in *. rewrite Hsplit in Hp.
  destruct (Urllib.check_brackets N) as [[]|e] eqn:Eb; [|discriminate].
  destruct (Urllib.checknetloc N) as [[]|e] eqn:Ec; [|discriminate].
  cbn [mbind result_bind Urllib.s_scheme Urllib.s_netloc Urllib.s_path
       Urllib.s_query Urllib.s_fragment] in Hp.
  set (pp := if Py.in_list s Urllib.uses_params && Py.contains ";" P
             then Urllib.splitparams P else (P, "")) in *.
  assert (rejoin (fst pp) (snd pp) = P) as Hpp.
  { pose proof Hbreak as (-> & HN & HP)%break_spec.
    unfold pp. destruct (_ && _); [|done].
    apply splitparams_rejoin. destruct P as [|c P]; [done|].
    rewrite <- (rsplit_slash_app N).
    2:{ rewrite all_chars_app in HX. apply andb_true_iff in HX as [_ HX].
        simpl in HX. apply andb_true_iff in HX as [Hc _].
        by rewrite (delim_pchar_slash c HP Hc). }
    apply Hseg. rewrite contains_app.
    rewrite all_chars_app in HX. apply andb_true_iff in HX as [_ HX].
    simpl in HX. apply andb_true_iff in HX as [Hc _].
    rewrite (delim_pchar_slash c HP Hc).
    change (Py.contains "/" (String "/" P)) with true. apply orb_true_r. }
  destruct pp as [a b] eqn:Epp. injection Hp as <-. simpl in Hnl, Hpp.
  split_and!; try done.
  - unfold Urllib.urlunparse. cbn [Urllib.scheme Urllib.netloc Urllib.path
                                    Urllib.params Urllib.query Urllib.fragment].
    fold (rejoin a b). rewrite Hpp.
    pose proof Hbreak as (-> & HN & HP)%break_spec.
    unfold Urllib.urlunsplit. rewrite Hnl. cbn [orb Py.truthy].
    fold (query_suffix q).
    assert ((if Py.truthy P && negb (String.eqb (Py.take1 P) "/")
             then "/" +:+ P else P) = P) as ->.
    { destruct P as [|c P]; [done|].
      rewrite all_chars_app in HX. apply andb_true_iff in HX as [_ HX].
      simpl in HX. apply andb_true_iff in HX as [Hc _].
      by rewrite (delim_pchar_slash c HP Hc). }
    assert (Py.truthy s = true) as -> by (by destruct Hs as [-> | ->]).
    replace (if Py.truthy q then (s +:+ ":" +:+ "//" +:+ N +:+ P) +:+ "?" +:+ q
             else s +:+ ":" +:+ "//" +:+ N +:+ P)
      with ((s +:+ ":" +:+ "//" +:+ N +:+ P) +:+ query_suffix q).
    2:{ unfold query_suffix. destruct (Py.truthy q); [done|]. apply append_nil_r. }
    rewrite !append_assoc. by destruct Hs as [-> | ->].
  - intros d'. rewrite Hsplit.
    cbn [mbind result_bind Urllib.s_scheme Urllib.s_netloc Urllib.s_path
         Urllib.s_query Urllib.s_fragment].
    fold pp. by rewrite Epp.
Qed.

(** The shape of a normalised address. *)
Lemma norm_url_shape base link u :
  norm_url base link = Ok (Some u) ->
  exists s X q,
    (s = "http" \/ s = "https")
    /\ u = s +:+ "://" +:+ X +:+ query_suffix q
    /\ Py.all_chars pchar X = true /\ Py.all_chars qchar q = true
    /\ (Py.contains "/" X = true -> seg_ok (snd (Urllib.rsplit_slash X)) = true).
Proof.
  intros (l & joined & parsed & _ & _ & _ & Hp & Hs%in_http_https & ->)%norm_url_Some.
  apply urlparse_components in Hp as (Hn & Hu & Hq & Hok).
  destruct (urlunsplit_shape (Urllib.scheme parsed) (Urllib.netloc parsed)
              (rejoin (Urllib.path parsed) (Urllib.params parsed))
              (Urllib.query parsed) Hs Hn Hu) as (X & HX & HXp & HXs).
  { apply Hok. by destruct Hs as [-> | ->]. }
  exists (Urllib.scheme parsed), X, (Urllib.query parsed).
  by split_and!.
Qed.

(** When [urljoin] and the parse of its result return, the base (if
    there is one) parses. *)
Lemma urljoin_base_parses base l joined parsed :
  Py.truthy base = true ->
  Urllib.urljoin base l = Ok joined -> Urllib.urlparse joined "" = Ok parsed ->
  exists pb, Urllib.urlparse base "" = Ok pb.
Proof.
  intros Hb. unfold Urllib.urljoin. rewrite Hb. cbn [negb].
  destruct (Py.truthy l); cbn [negb].
  - intros Hj _. inv_bind Hj as pb Hbase. eauto.
  - intros [= <-] Hp. eauto.
Qed.

(** C10, as the code has it: [norm_url] returns an address that it has
    returned unchanged, provided that the address neither starts nor
    ends with whitespace and that it parses with a network location
    that is not empty. *)
Theorem norm_url_idempotent base link u p :
  norm_url base link = Ok (Some u) ->
  Py.strip u = u ->
  Urllib.urlparse u "" = Ok p ->
  Py.truthy (Urllib.netloc p) = true ->
  norm_url base (Some u) = Ok (Some u).
Proof.
  intros Hn Hstrip Hp Hnl.
  pose proof (norm_url_truthy _ _ _ Hn) as Hu.
  destruct (norm_url_shape _ _ _ Hn) as (s & X & q & Hs & Eu & HX & Hq & Hseg).
  rewrite Eu in Hp.
  destruct (urlparse_shaped s X q "" p Hs HX Hq Hseg Hp Hnl)
    as (Hun & Hfrag & Hsch & Hany).
  rewrite <- Eu in Hun, Hany.
  assert (Py.startswith u "javascript:" || Py.startswith u "mailto:"
          || Py.startswith u "tel:" = false) as Hstart.
  { rewrite Eu. by destruct Hs as [-> | ->]. }
  assert (Py.in_list s ["http"; "https"] = true
          /\ Py.in_list s Urllib.uses_relative = true
          /\ Py.in_list s Urllib.uses_netloc = true) as (Hhttp & Hrel & Hnet)
      by (by destruct Hs as [-> | ->]).
  assert (Urllib.urljoin base u = Ok u) as Hjoin.
  { unfold Urllib.urljoin. destruct (Py.truthy base) eqn:Eb; cbn [negb]; [|done].
    rewrite Hu. cbn [negb].
    apply norm_url_Some in Hn as (l & joined & parsed & _ & _ & Hj & Hpj & _).
    destruct (urljoin_base_parses _ _ _ _ Eb Hj Hpj) as [pb ->].
    cbn [mbind result_bind]. rewrite Hany. cbn [mbind result_bind].
    rewrite Hsch, Hrel, Hnet, Hnl. cbn [negb andb orb].
    rewrite orb_false_r. destruct (negb _); [done|]. by rewrite Hun. }
  unfold norm_url. rewrite Hu. cbn [negb]. rewrite Hstrip, Hstart, Hjoin.
  cbn [mbind result_bind]. rewrite (Hany ""). cbn [mbind result_bind].
  rewrite Hsch, Hhttp. cbn [negb]. do 2 f_equal.
  destruct p as [ps pn pp ppr pq pf]. simpl in Hfrag. subst pf. exact Hun.
Qed.

End ParseFacts.

Section NormalizerOnSite.
Local Existing Instance Site.checks.

(** C10 fails as stated.  A space in front of the fragment is left at
    the end of the address, and the next call strips it.  An address
    without network location is resolved against the base once more,
    which removes the dot segments that the first call took over from
    the base. *)
Lemma norm_url_not_idempotent :
  (norm_url "http://a.com/" (Some "http://a.com/x #f") = Ok (Some "http://a.com/x ")
   /\ norm_url "http://a.com/" (Some "http://a.com/x ") = Ok (Some "http://a.com/x"))
  /\ (norm_url "http:/a/../b" (Some "?q") = Ok (Some "http:///a/../b?q")
      /\ norm_url "http:/a/../b" (Some "http:///a/../b?q") = Ok (Some "http:///b?q")).
Proof. repeat split; vm_compute; reflexivity. Qed.

Lemma norm_url_idempotent_witness :
  norm_url "http://a.com" (Some "/c#again") = Ok (Some "http://a.com/c")
  /\ Py.strip "http://a.com/c" = "http://a.com/c"
  /\ Urllib.urlparse "http://a.com/c" ""
     = Ok (Urllib.mkParse "http" "a.com" "/c" "" "" "")
  /\ norm_url "http://a.com" (Some "http://a.com/c") = Ok (Some "http://a.com/c").
Proof.
  split_and!; [reflexivity..|].
  apply (norm_url_idempotent "http://a.com" (Some "/c#again") "http://a.com/c"
           (Urllib.mkParse "http" "a.com" "/c" "" "" "")); reflexivity.
Defined.

End NormalizerOnSite.

(** ** The crawl and the analysis return *)

Section Returns.
Context `{UrlChecks} `{Web}.

(** The loop over the anchors of a fetched page has called [norm_url]
    on each of them. *)
Lemma collect_links_Ok_norm start_url url max_pages st l : forall nr nr',
  for_each (collect_link start_url url max_pages st) l nr = Ok nr' ->
  forall a, In a l -> exists r, norm_url url (href a) = Ok r.
Proof.
  induction l as [|a0 l IH]; intros nr nr' Hrun a Ha; [done|].
  rewrite for_each_cons in Hrun. inv_bind Hrun as nr1 Hstep.
  destruct Ha as [<-|Ha]; [|eauto].
  unfold collect_link in Hstep. inv_bind Hstep as r Hr. eauto.
Qed.

Lemma dict_set_Forall {V} (P : string * V -> Prop) k v (d : list (string * V)) :
  Forall P d -> P (k, v) -> Forall P (Dict.set k v d).
Proof.
  intros Hd Hkv. induction Hd as [|[k' v'] d Hx Hd IH]; simpl.
  - by constructor.
  - destruct (String.eqb k k'); by constructor.
Qed.

Lemma handle_result_shaped start_url max_pages st next_round url st' next_round' :
  handle_result start_url max_pages (st, next_round) url = Ok (st', next_round') ->
  Forall crawl_shaped (results st) -> Forall crawl_shaped (results st').
Proof.
  unfold handle_result. intros Hh Hst.
  destruct (fetch url) as [? err|? code el html fin hd].
  - destruct (Py.truthy err); injection Hh as <- <-; simpl;
      by apply dict_set_Forall.
  - destruct (Z.eqb_spec code 200) as [->|Hne]; cbn [negb] in Hh.
    + inv_bind Hh as nr Hl. injection Hh as <- <-. simpl.
      apply dict_set_Forall; [done|]. split; [done|].
      by apply (collect_links_Ok_norm _ _ _ _ _ _ _ Hl).
    + injection Hh as <- <-. simpl. apply dict_set_Forall; [done|].
      unfold crawl_shaped; simpl. by apply Z.eqb_neq.
Qed.

Lemma dispatch_results max_pages to_visit : forall st futures st' futures',
  dispatch max_pages to_visit st futures = (st', futures') ->
  results st' = results st.
Proof.
  induction to_visit as [|url rest IH]; intros st futures st' futures' Hd;
    simpl in Hd.
  - by injection Hd as <- _.
  - destruct (max_pages <=? pages_crawled st); [by injection Hd as <- _|].
    destruct (bool_decide _); [eauto|]. by apply IH in Hd.
Qed.

Lemma crawl_rounds_shaped n : forall d start_url max_pages workers to_visit st st',
  crawl_rounds n d start_url max_pages workers to_visit st = Ok st' ->
  Forall crawl_shaped (results st) -> Forall crawl_shaped (results st').
Proof.
  induction n as [|n IH]; intros d start_url max_pages workers to_visit st st'
                                 Hrun Hst.
  { by injection Hrun as <-. }
  destruct (Z.leb_spec max_pages (pages_crawled st)) as [Hfull|Hroom].
  { simpl in Hrun. apply Z.leb_le in Hfull. rewrite Hfull in Hrun.
    by injection Hrun as <-. }
  apply crawl_rounds_step in Hrun
      as (_ & st1 & futures & st2 & nr & Hd & Hround & Hrest); [|done].
  pose proof (dispatch_results _ _ _ _ _ _ Hd) as Hres.
  eapply IH; [exact Hrest|].
  apply (for_each_inv (fun acc => Forall crawl_shaped (results (fst acc)))
           (handle_result start_url max_pages) (as_completed d futures))
    with (st := (st1, [])) (st' := (st2, nr)); [|by simpl; rewrite Hres|done].
  intros [s1 n1] url [s2 n2] _ Hs1 Hh. by apply handle_result_shaped in Hh.
Qed.

(** Every entry of a mapping that [crawl] returns has one of the three
    shapes. *)
Lemma crawl_results_shaped start_url depth max_pages workers mapping :
  crawl start_url depth max_pages workers = Ok mapping ->
  Forall crawl_shaped mapping.
Proof.
  unfold crawl, crawl_run. intros Hc. inv_bind Hc as st Hrun.
  injection Hc as <-. by apply crawl_rounds_shaped in Hrun.
Qed.

Lemma check_links_Ok R url l :
  (forall a, In a l -> exists r, norm_url url (href a) = Ok r) ->
  forall acc, exists acc', for_each (check_link R url) l acc = Ok acc'.
Proof.
  induction l as [|a l IH]; intros Hl acc; [by exists acc|].
  rewrite for_each_cons.
  assert (exists acc1, check_link R url acc a = Ok acc1) as [acc1 ->].
  { destruct (Hl a) as [r Hr]; [by left|].
    unfold check_link. destruct acc as [br ex]. rewrite Hr. simpl.
    destruct r as [n|]; [|eauto]. destruct (Py.truthy n); simpl; [|eauto].
    destruct (is_same_domain url n); [|eauto].
    destruct (Dict.get n R) as [rr|]; [|eauto]. destruct (_ && _); eauto. }
  simpl. apply IH. intros; apply Hl. by right.
Qed.

(** On entries of these shapes the first loop of [analyze] does not
    raise. *)
Lemma analyze_loop_returns R l :
  Forall crawl_shaped l ->
  forall st, exists st', for_each (analyze_page R) l st = Ok st'.
Proof.
  induction 1 as [|[url r] l Hr Hl IH]; intros st; [by exists st|].
  rewrite for_each_cons.
  assert (exists st1, analyze_page R st (url, r) = Ok st1) as [st1 ->].
  { unfold analyze_page, crawl_shaped in *.
    destruct r as [e|h f|h f el hd on]; simpl in *; [eauto|by rewrite Hr; eauto|].
    destruct Hr as [-> Hlinks]. simpl.
    destruct (check_links_Ok R url _ Hlinks ([], [])) as [[br ex] ->].
    simpl. eauto. }
  simpl. apply IH.
Qed.

(** The analysis of a mapping that the crawl has returned returns. *)
Lemma analyze_of_crawl_returns start_url depth max_pages workers mapping :
  crawl start_url depth max_pages workers = Ok mapping ->
  exists s, analyze mapping = Ok s.
Proof.
  intros Hs%crawl_results_shaped. unfold analyze, analyze_loop.
  destruct (analyze_loop_returns mapping mapping Hs
              (mkTally [] [] [] [] [] [] [] [] [] [])) as [st ->].
  simpl. eauto.
Qed.

End Returns.

(** * Further properties *)

(** ** Normalised addresses *)

Section NormalizedFacts.
Context `{UrlChecks}.
Local Arguments String.append !_ _ : simpl nomatch.
Local Arguments Ascii.eqb : simpl never.

Lemma contains_false_all_chars c s :
  Py.all_chars (fun d => negb (Ascii.eqb c d)) s = true -> Py.contains c s = false.
Proof. intros Hs. by rewrite contains_all_chars, Hs. Qed.

(** X1: an address that [norm_url] returns holds no ['#']: the fragment
    is removed, and no other component can hold one. *)
Theorem norm_url_no_fragment base link u :
  norm_url base link = Ok (Some u) -> Py.contains "#" u = false.
Proof.
  intros (s & X & q & Hs & -> & HX & Hq & _)%norm_url_shape.
  apply all_chars_pchar_parts in HX as (_ & HX & _).
  apply all_chars_qchar_parts in Hq as (_ & Hq).
  rewrite !contains_app.
  rewrite (contains_false_all_chars "#" X HX).
  assert (Py.contains "#" (query_suffix q) = false) as ->.
  { apply contains_false_all_chars. by apply (query_suffix_chars not_hash). }
  by destruct Hs as [-> | ->].
Qed.


End NormalizedFacts.

Section NormalizedOnSite.
Local Existing Instance Site.checks.

Lemma norm_url_no_fragment_witness :
  norm_url "http://a.com" (Some "/c#again") = Ok (Some "http://a.com/c")
  /\ Py.contains "#" "http://a.com/c" = false.
Proof.
  split; [reflexivity|].
  apply (norm_url_no_fragment "http://a.com" (Some "/c#again")). reflexivity.
Defined.


End NormalizedOnSite.

(** ** Same site *)

Section SameDomainFacts.
Context `{Web}.

(** X3: [is_same_domain] is an equivalence on addresses, whatever
    [tldextract] answers: an address is on its own site, the order of
    the two addresses does not matter, and the relation is transitive. *)
Theorem is_same_domain_equivalence :
  (forall u, is_same_domain u u = true)
  /\ (forall u v, is_same_domain u v = is_same_domain v u)
  /\ (forall u v w, is_same_domain u v = true -> is_same_domain v w = true ->
                    is_same_domain u w = true).
Proof.
  unfold is_same_domain. split_and!.
  - intros u. by rewrite !String.eqb_refl.
  - intros u v. by rewrite (String.eqb_sym (domain _)), (String.eqb_sym (suffix _)).
  - intros u v w [Hd1 Hs1]%andb_true_iff [Hd2 Hs2]%andb_true_iff.
    apply String.eqb_eq in Hd1, Hs1, Hd2, Hs2.
    rewrite Hd1, Hd2, Hs1, Hs2. by rewrite !String.eqb_refl.
Qed.

End SameDomainFacts.

Section SameDomainOnSite.
Local Existing Instance Site.web.

Lemma is_same_domain_equivalence_witness :
  is_same_domain "http://a.com" "http://a.com/b" = true
  /\ is_same_domain "http://a.com/b" "http://a.com/c" = true
  /\ is_same_domain "http://a.com" "http://a.com/c" = true.
Proof.
  split; [reflexivity|]. split; [reflexivity|].
  apply (proj2 (proj2 is_same_domain_equivalence)
           "http://a.com" "http://a.com/b" "http://a.com/c"); reflexivity.
Defined.

End SameDomainOnSite.

(** ** What the crawl fetches *)

Section ReachFacts.
Context `{UrlChecks} `{Web}.

Lemma reach_S seed n u : reach seed n u -> reach seed (S n) u.
Proof. intros; by left. Qed.

Lemma reach_mono seed n m u : (n <= m)%nat -> reach seed n u -> reach seed m u.
Proof. induction 1; [done|]. intros. by apply reach_S, IHle. Qed.

Lemma dispatch_from max_pages to_visit : forall st futures st' futures',
  dispatch max_pages to_visit st futures = (st', futures') ->
  (forall u, u ∈ visited st' -> u ∈ visited st \/ In u to_visit)
  /\ (forall u, In u futures' -> In u futures \/ In u to_visit).
Proof.
  induction to_visit as [|url rest IH]; intros st futures st' futures' Hd;
    simpl in Hd.
  { injection Hd as <- <-. auto. }
  destruct (max_pages <=? pages_crawled st); [injection Hd as <- <-; auto|].
  destruct (bool_decide (url ∈ visited st)).
  - destruct (IH _ _ _ _ Hd) as [Hv Hf].
    split; intros u Hu; [destruct (Hv u Hu)|destruct (Hf u Hu)]; simpl; auto.
  - destruct (IH _ _ _ _ Hd) as [Hv Hf]. simpl in Hv.
    split; intros u Hu.
    + destruct (Hv u Hu) as [[->%elem_of_singleton|?]%elem_of_union|?];
        simpl; auto.
    + destruct (Hf u Hu) as [[?|[<-|[]]]%in_app_iff|?]; simpl; auto.
Qed.

(** What lines 185-199 write is a function of the address. *)
Lemma handle_result_entry start_url max_pages st next_round url st' next_round' :
  handle_result start_url max_pages (st, next_round) url = Ok (st', next_round') ->
  results st' = Dict.set url (entry_of url) (results st).
Proof.
  unfold handle_result, entry_of, fetch.
  destruct (session_get url) as [err|r el].
  - destruct (Py.truthy err); by intros [= <- <-].
  - destruct (Z.eqb_spec (r_status_code r) 200) as [E|E]; cbn [negb].
    + intros Hb. inv_bind Hb as nr Hl. by injection Hb as <- <-.
    + by intros [= <- <-].
Qed.

(** The addresses that a page adds to the next round are linked from it. *)
Lemma collect_links_linked start_url url max_pages st r elapsed l :
  session_get url = GetReturned r elapsed -> r_status_code r = 200 ->
  incl l (links (extract_onpage url (r_text r))) ->
  forall nr nr',
    for_each (collect_link start_url url max_pages st) l nr = Ok nr' ->
    forall u, In u nr' -> In u nr \/ links_to start_url url u.
Proof.
  intros Hget H200. induction l as [|a l IH]; intros Hl nr nr' Hrun u Hu.
  - injection Hrun as <-. by left.
  - rewrite for_each_cons in Hrun. inv_bind Hrun as nr1 Hstep.
    destruct (IH (fun x Hx => Hl x (or_intror Hx)) _ _ Hrun u Hu) as [Hu1|?];
      [|by right].
    unfold collect_link in Hstep. inv_bind Hstep as [n|] Hn;
      [|injection Hstep as <-; by left].
    destruct (negb (Py.truthy n)); [injection Hstep as <-; by left|].
    destruct (is_same_domain start_url n) eqn:Ed;
      [|injection Hstep as <-; by left].
    destruct (_ && _); injection Hstep as <-; [|by left].
    apply in_app_iff in Hu1 as [?|[<-|[]]]; [by left|]. right.
    exists r, elapsed, a. split_and!; try done. apply Hl. by left.
Qed.

Lemma handle_result_next start_url max_pages st nr url st' nr' :
  handle_result start_url max_pages (st, nr) url = Ok (st', nr') ->
  forall u, In u nr' -> In u nr \/ links_to start_url url u.
Proof.
  unfold handle_result, fetch.
  destruct (session_get url) as [err|r el] eqn:Hget.
  - destruct (Py.truthy err); intros [= <- <-]; auto.
  - destruct (Z.eqb_spec (r_status_code r) 200) as [E|E]; cbn [negb].
    + intros Hb. inv_bind Hb as nr1 Hl. injection Hb as <- <-.
      exact (collect_links_linked _ _ _ _ _ _ _ Hget E (incl_refl _) _ _ Hl).
    + intros [= <- <-]; auto.
Qed.

Lemma handle_results_next start_url max_pages d l : forall acc acc',
  for_each (handle_result start_url max_pages) l acc = Ok acc' ->
  (forall u, In u l -> reach start_url d u) ->
  (forall u, In u (snd acc) -> reach start_url (S d) u) ->
  visited (fst acc') = visited (fst acc)
  /\ forall u, In u (snd acc') -> reach start_url (S d) u.
Proof.
  induction l as [|url l IH]; intros [st nr] [st' nr'] Hrun Hl Hnr.
  - by injection Hrun as <- <-.
  - rewrite for_each_cons in Hrun. inv_bind Hrun as [st1 nr1] Hstep.
    destruct (IH _ _ Hrun) as [Hv Hr].
    + intros; apply Hl; by right.
    + simpl. intros u [Hu|(r & el & a & ?)]%(handle_result_next _ _ _ _ _ _ _ Hstep).
      * by apply Hnr.
      * right. exists url. split; [apply Hl; by left|]. by exists r, el, a.
    + split; [|done]. rewrite Hv. simpl.
      by apply handle_result_frame in Hstep as (-> & _).
Qed.

(** After the rounds [d], ..., [d+n-1] every visited address is within
    [d+n-1] links of the start address. *)
Lemma crawl_rounds_reach n : forall d start_url max_pages workers to_visit st st',
  crawl_rounds n d start_url max_pages workers to_visit st = Ok st' ->
  (forall u, u ∈ visited st -> reach start_url (pred d) u) ->
  (forall u, In u to_visit -> reach start_url d u) ->
  forall u, u ∈ visited st' -> reach start_url (pred (d + n)) u.
Proof.
  induction n as [|n IH]; intros d start_url max_pages workers to_visit st st'
                                 Hrun Hv Htv u Hu.
  { injection Hrun as <-. rewrite Nat.add_0_r. by apply Hv. }
  destruct (Z.leb_spec max_pages (pages_crawled st)) as [Hfull|Hroom].
  { simpl in Hrun. apply Z.leb_le in Hfull. rewrite Hfull in Hrun.
    injection Hrun as <-. eapply reach_mono; [|by apply Hv]. lia. }
  apply crawl_rounds_step in Hrun
      as (_ & st1 & futures & st2 & nr & Hd & Hround & Hrest); [|done].
  destruct (dispatch_from _ _ _ _ _ _ Hd) as [Hv1 Hf1].
  assert (forall x, x ∈ visited st1 -> reach start_url d x) as Hreach1.
  { intros x [Hx|Hx]%Hv1; [|by apply Htv].
    eapply reach_mono; [|by apply Hv]. lia. }
  destruct (handle_results_next _ _ d _ _ _ Hround) as [Hv2 Hnr].
  - intros x Hx%as_completed_In. destruct (Hf1 x Hx) as [[]|?]. by apply Htv.
  - by intros x [].
  - simpl in Hv2. replace (d + S n)%nat with (S d + n)%nat by lia.
    eapply IH; [exact Hrest| |exact Hnr|exact Hu].
    intros x Hx. apply Hreach1. by rewrite <- Hv2.
Qed.

Lemma crawl_keys_visited start_url depth max_pages workers st u :
  crawl_run start_url depth max_pages workers = Ok st ->
  In u (Dict.keys (results st)) -> u ∈ visited st.
Proof.
  intros [fs [_ _ Hvis _ _ _ Hk]]%crawl_run_inv Hu. by apply Hvis, Hk.
Qed.

Lemma reach_same_site seed n u :
  reach seed n u -> u = seed \/ is_same_domain seed u = true.
Proof.
  induction n as [|n IH]; simpl; [by left|].
  intros [?|(v & _ & r & el & a & _ & _ & _ & _ & ?)]; auto.
Qed.

(** X4: every key of the mapping that [crawl] returns is at most
    [depth] links away from the start address, each link an anchor of a
    page that answers 200 whose target is on the site of the start
    address. *)
Theorem crawl_keys_within_depth start_url depth max_pages workers mapping u :
  crawl start_url depth max_pages workers = Ok mapping ->
  In u (Dict.keys mapping) ->
  reach (Py.rstrip (Ascii.eqb "/") start_url) (Z.to_nat depth) u.
Proof.
  intros Hc Hu. unfold crawl in Hc. inv_bind Hc as st Hrun. injection Hc as <-.
  pose proof (crawl_keys_visited _ _ _ _ _ _ Hrun Hu) as Hv.
  unfold crawl_run in Hrun.
  eapply reach_mono; [|eapply (crawl_rounds_reach _ _ _ _ _ _ _ _ Hrun); [| |exact Hv]].
  - simpl. lia.
  - intros x Hx. set_solver.
  - by intros x [<-|[]].
Qed.

(** X5: the crawl stays on the site of the start address: every key of
    the mapping is the start address (without its trailing slashes) or
    an address that [is_same_domain] accepts for it. *)
Theorem crawl_stays_on_site start_url depth max_pages workers mapping u :
  crawl start_url depth max_pages workers = Ok mapping ->
  In u (Dict.keys mapping) ->
  u = Py.rstrip (Ascii.eqb "/") start_url
  \/ is_same_domain (Py.rstrip (Ascii.eqb "/") start_url) u = true.
Proof.
  intros Hc Hu. unfold crawl in Hc. inv_bind Hc as st Hrun. injection Hc as <-.
  pose proof (crawl_keys_visited _ _ _ _ _ _ Hrun Hu) as Hv.
  unfold crawl_run in Hrun.
  eapply reach_same_site, (crawl_rounds_reach _ _ _ _ _ _ _ _ Hrun); [| |exact Hv].
  - intros x Hx. set_solver.
  - by intros x [<-|[]].
Qed.

End ReachFacts.

(** ** What the crawl records *)

Section RecordFacts.
Context `{UrlChecks} `{Web}.

(** A property of the mapping that every assignment of lines 185-199
    keeps is kept by the rounds. *)
Lemma crawl_rounds_results (P : list (string * Entry) -> Prop) :
  (forall m url, P m -> P (Dict.set url (entry_of url) m)) ->
  forall n d start_url max_pages workers to_visit st st',
    crawl_rounds n d start_url max_pages workers to_visit st = Ok st' ->
    P (results st) -> P (results st').
Proof.
  intros Hset.
  induction n as [|n IH]; intros d start_url max_pages workers to_visit st st'
                                 Hrun Hst.
  { by injection Hrun as <-. }
  destruct (Z.leb_spec max_pages (pages_crawled st)) as [Hfull|Hroom].
  { simpl in Hrun. apply Z.leb_le in Hfull. rewrite Hfull in Hrun.
    by injection Hrun as <-. }
  apply crawl_rounds_step in Hrun
      as (_ & st1 & futures & st2 & nr & Hd & Hround & Hrest); [|done].
  pose proof (dispatch_results _ _ _ _ _ _ Hd) as Hres.
  eapply IH; [exact Hrest|].
  apply (for_each_inv (fun acc => P (results (fst acc)))
           (handle_result start_url max_pages) (as_completed d futures))
    with (st := (st1, [])) (st' := (st2, nr)); [|by simpl; rewrite Hres|done].
  intros [s1 n1] url [s2 n2] _ Hs1 Hh. simpl in *.
  apply handle_result_entry in Hh as ->. by apply Hset.
Qed.

(** At the end of a round every submitted address has its entry. *)
Lemma crawl_rounds_complete n : forall d start_url max_pages workers to_visit st fs st',
  crawl_inv max_pages st fs ->
  (forall u, In u fs -> In u (Dict.keys (results st))) ->
  crawl_rounds n d start_url max_pages workers to_visit st = Ok st' ->
  exists fs', crawl_inv max_pages st' fs'
              /\ forall u, In u fs' -> In u (Dict.keys (results st')).
Proof.
  induction n as [|n IH]; intros d start_url max_pages workers to_visit st fs st'
                                 Hinv Hall Hrun.
  { injection Hrun as <-. eauto. }
  destruct (Z.leb_spec max_pages (pages_crawled st)) as [Hfull|Hroom].
  { simpl in Hrun. apply Z.leb_le in Hfull. rewrite Hfull in Hrun.
    injection Hrun as <-. eauto. }
  apply crawl_rounds_step in Hrun
      as (_ & st1 & futures & st2 & nr & Hd & Hround & Hrest); [|done].
  destruct (dispatch_inv _ _ _ _ _ _ _ Hinv Hd) as (new & Hf & Hinv1 & Hres & _).
  simpl in Hf; subst futures.
  destruct (handle_results_inv _ _ (fs ++ new) _ _ _ Hround) as [Hinv2 Hk2];
    [|done|].
  { intros u Hu%as_completed_In. apply in_app_iff. by right. }
  eapply IH; [exact Hinv2| |exact Hrest].
  intros u [Hu|Hu]%in_app_iff; apply Hk2; simpl.
  - right. rewrite Hres. by apply Hall.
  - left. by apply as_completed_In.
Qed.

(** X6: the entry that the mapping holds under a key is the outcome of
    the request for that key: the error message when the request
    raised with a non-empty message, the status and final address when
    it answered with another status than 200, and for a 200 the status,
    final address, elapsed time, headers and the on-page data extracted
    from the body with the key as page address.  A request that raised
    with an empty message is recorded with no status and no final
    address. *)
Theorem crawl_entry_of_fetch start_url depth max_pages workers mapping u e :
  crawl start_url depth max_pages workers = Ok mapping ->
  Dict.get u mapping = Some e ->
  e = entry_of u.
Proof.
  intros Hc Hget. unfold crawl in Hc. inv_bind Hc as st Hrun. injection Hc as <-.
  unfold crawl_run in Hrun.
  apply (crawl_rounds_results
           (Forall (fun kv : string * Entry => snd kv = entry_of (fst kv)))) in Hrun.
  - apply dict_get_In in Hget. rewrite Forall_forall in Hrun.
    by apply (Hrun (u, e)), list_elem_of_In.
  - intros m url Hm. by apply dict_set_Forall.
  - constructor.
Qed.

(** X7: when [crawl] returns, the keys of the mapping are the addresses
    whose fetch was submitted, which are the addresses marked visited,
    and their number is the page counter: no fetch is lost and none is
    recorded under a key that was not fetched. *)
Theorem crawl_records_every_fetch start_url depth max_pages workers st :
  crawl_run start_url depth max_pages workers = Ok st ->
  (forall u, In u (Dict.keys (results st)) <-> In u (submitted (events st)))
  /\ (forall u, In u (Dict.keys (results st)) <-> u ∈ visited st)
  /\ Z.of_nat (length (results st)) = pages_crawled st.
Proof.
  intros Hrun. unfold crawl_run in Hrun.
  apply (crawl_rounds_complete _ _ _ _ _ _ _ _ _ (crawl_inv_init _)) in Hrun
      as (fs & [Hev Hnd Hvis Hpages _ Hknd Hk] & Hall); [|by intros ? []].
  rewrite Hev, submitted_trace_of, Hpages.
  split_and!.
  - intros u; split; auto.
  - intros u; rewrite Hvis; split; auto.
  - f_equal. rewrite <- (length_map fst). apply Permutation_length.
    apply NoDup_Permutation; [done..|].
    intros u. rewrite !list_elem_of_In. split; auto.
Qed.

(** X8: with a positive page budget and a non-negative depth, the first
    key of the mapping is the start address without its trailing
    slashes, with the outcome of its request. *)
Theorem crawl_seed_first start_url depth max_pages workers mapping :
  0 < max_pages -> 0 <= depth ->
  crawl start_url depth max_pages workers = Ok mapping ->
  exists rest,
    mapping = (Py.rstrip (Ascii.eqb "/") start_url,
               entry_of (Py.rstrip (Ascii.eqb "/") start_url)) :: rest.
Proof.
  intros Hpos Hdepth Hc. unfold crawl in Hc. inv_bind Hc as st Hrun.
  injection Hc as <-. unfold crawl_run in Hrun.
  set (A := Py.rstrip (Ascii.eqb "/") start_url) in *.
  destruct (Z.to_nat (depth + 1)) as [|n] eqn:En; [lia|]. clear En.
  apply crawl_rounds_step in Hrun
      as (_ & st1 & futures & st2 & nr & Hd & Hround & Hrest); [|simpl; lia].
  apply first_round in Hd as [-> ->]; [|done].
  change (as_completed 0 [A]) with
    (match [A] !! (completes_next 0 [A] mod 1)%nat with
     | Some url => [url] | None => [] end) in Hround.
  rewrite Nat.mod_1_r in Hround. cbn [lookup list_lookup] in Hround.
  rewrite for_each_cons in Hround. inv_bind Hround as [s1 n1] Hstep.
  injection Hround as -> ->.
  apply handle_result_entry in Hstep. simpl in Hstep.
  apply (crawl_rounds_results
           (fun m => exists rest, m = (A, entry_of A) :: rest)) in Hrest; [done| |].
  - intros m url [rest ->]. simpl.
    destruct (String.eqb_spec url A) as [->|_]; eauto.
  - rewrite Hstep. eauto.
Qed.

(** X9: with a page budget of zero or less, or a negative depth,
    [crawl] fetches nothing and returns the empty mapping, whatever the
    number of workers. *)
Theorem crawl_nothing_to_fetch start_url depth max_pages workers :
  max_pages <= 0 \/ depth < 0 ->
  crawl start_url depth max_pages workers = Ok [].
Proof.
  intros Hedge. unfold crawl, crawl_run.
  destruct (Z.to_nat (depth + 1)) as [|n] eqn:En; [done|].
  destruct Hedge as [Hmax|?]; [|lia]. simpl.
  by destruct (Z.leb_spec max_pages 0); [|lia].
Qed.


End RecordFacts.

Section CrawlOnSite.
Local Existing Instance Site.checks.
Local Existing Instance Site.web.

Lemma crawl_keys_within_depth_witness :
  crawl "http://a.com/" 5 10 8 = Ok Site.mapping
  /\ In "http://a.com/d" (Dict.keys Site.mapping)
  /\ reach "http://a.com" 5 "http://a.com/d".
Proof.
  assert (crawl "http://a.com/" 5 10 8 = Ok Site.mapping) as Hc
      by (vm_compute; reflexivity).
  assert (In "http://a.com/d" (Dict.keys Site.mapping)) as Hin
      by (vm_compute; tauto).
  split; [exact Hc|split; [exact Hin|]].
  exact (crawl_keys_within_depth "http://a.com/" 5 10 8 Site.mapping
                                 "http://a.com/d" Hc Hin).
Defined.

Lemma crawl_stays_on_site_witness :
  crawl "http://a.com/" 5 10 8 = Ok Site.mapping
  /\ In "http://a.com/d" (Dict.keys Site.mapping)
  /\ ("http://a.com/d" = "http://a.com"
      \/ is_same_domain "http://a.com" "http://a.com/d" = true).
Proof.
  assert (crawl "http://a.com/" 5 10 8 = Ok Site.mapping) as Hc
      by (vm_compute; reflexivity).
  assert (In "http://a.com/d" (Dict.keys Site.mapping)) as Hin
      by (vm_compute; tauto).
  split; [exact Hc|split; [exact Hin|]].
  exact (crawl_stays_on_site "http://a.com/" 5 10 8 Site.mapping
                             "http://a.com/d" Hc Hin).
Defined.

Lemma crawl_entry_of_fetch_witness :
  crawl "http://a.com/" 5 10 8 = Ok Site.mapping
  /\ Dict.get "http://a.com/b" Site.mapping
     = Some (HttpEntry (Some 404) (Some "http://a.com/b"))
  /\ HttpEntry (Some 404) (Some "http://a.com/b") = entry_of "http://a.com/b".
Proof.
  assert (crawl "http://a.com/" 5 10 8 = Ok Site.mapping) as Hc
      by (vm_compute; reflexivity).
  assert (Dict.get "http://a.com/b" Site.mapping
          = Some (HttpEntry (Some 404) (Some "http://a.com/b"))) as Hget
      by (vm_compute; reflexivity).
  split; [exact Hc|split; [exact Hget|]].
  exact (crawl_entry_of_fetch "http://a.com/" 5 10 8 Site.mapping
                              "http://a.com/b" _ Hc Hget).
Defined.

Lemma crawl_records_every_fetch_witness :
  crawl_run "http://a.com/" 5 10 8 = Ok Site.final_state
  /\ Z.of_nat (length (results Site.final_state)) = pages_crawled Site.final_state.
Proof.
  assert (crawl_run "http://a.com/" 5 10 8 = Ok Site.final_state) as Hc
      by (vm_compute; reflexivity).
  split; [exact Hc|].
  destruct (crawl_records_every_fetch "http://a.com/" 5 10 8 Site.final_state Hc)
    as (_ & _ & Hlen).
  exact Hlen.
Defined.

Lemma crawl_seed_first_witness :
  0 < 10 /\ 0 <= 5 /\ crawl "http://a.com/" 5 10 8 = Ok Site.mapping
  /\ exists rest, Site.mapping = ("http://a.com", entry_of "http://a.com") :: rest.
Proof.
  assert (crawl "http://a.com/" 5 10 8 = Ok Site.mapping) as Hc
      by (vm_compute; reflexivity).
  split; [lia|split; [lia|split; [exact Hc|]]].
  apply (crawl_seed_first "http://a.com/" 5 10 8 Site.mapping); [lia|lia|exact Hc].
Defined.

Lemma crawl_nothing_to_fetch_witness :
  (0 <= 0 \/ 5 < 0) /\ crawl "http://a.com/" 5 0 8 = Ok [].
Proof.
  split; [left; lia|].
  apply (crawl_nothing_to_fetch "http://a.com/" 5 0 8). left. lia.
Defined.


End CrawlOnSite.

(** ** What the analysis lists *)

Section IssueFacts.
Context `{UrlChecks} `{Web}.

Implicit Types (R results : list (string * Entry)) (st : Tally).

Lemma pages_where_cons c url r l :
  pages_where c ((url, r) :: l)
  = match r with
    | PageEntry h _ _ _ on => if is_200 h && c on then url :: pages_where c l
                              else pages_where c l
    | _ => pages_where c l
    end.
Proof.
  unfold pages_where; simpl. destruct r as [e|h f|h f el hd on]; try done.
  by destruct (is_200 h && c on).
Qed.

(** A list of the tally to which an iteration adds the address of the
    page when the page satisfies [c] holds the pages that satisfy [c],
    in the order of the mapping. *)
Lemma loop_pages_where R (fld : Tally -> list string) (c : OnPage -> bool) :
  (forall st url rep, fld (tally_report st url rep) = fld st) ->
  (forall st url on br,
      fld (tally_page st url on br) = fld st ++ (if c on then [url] else [])) ->
  forall l st st',
    for_each (analyze_page R) l st = Ok st' ->
    fld st' = fld st ++ pages_where c l.
Proof.
  intros Hrep Hpage. induction l as [|[url r] l IH]; intros st st' Hrun.
  - injection Hrun as <-. by rewrite app_nil_r.
  - rewrite for_each_cons in Hrun. inv_bind Hrun as st1 Hstep.
    rewrite (IH _ _ Hrun), pages_where_cons.
    apply analyze_page_Ok in Hstep as [[Hp ->]|(on & br & ex & Hp & Hon & _ & ->)].
    + rewrite Hrep. destruct r as [e|h f|h f el hd on]; try done.
      simpl in Hp. by rewrite Hp.
    + rewrite Hpage. destruct r as [e|h f|h f el hd on']; try done.
      simpl in Hp, Hon. injection Hon as ->. rewrite Hp. simpl.
      destruct (c on); [by rewrite <- app_assoc|by rewrite app_nil_r].
Qed.

(** The four issue lists of the tally. *)
Lemma loop_issue_lists R l st st' :
  for_each (analyze_page R) l st = Ok st' ->
  t_missing_title st'
  = t_missing_title st ++ pages_where (fun on => negb (Py.truthy (title on))) l
  /\ t_missing_meta_description st'
     = t_missing_meta_description st
       ++ pages_where (fun on => negb (Py.truthy (meta_description on))) l
  /\ t_missing_h1 st'
     = t_missing_h1 st
       ++ pages_where (fun on => match h1s on with [] => true | _ => false end) l
  /\ t_thin_pages st'
     = t_thin_pages st ++ pages_where (fun on => (word_count on <? 300)%nat) l.
Proof.
  intros Hloop. split_and!.
  - apply (loop_pages_where _ t_missing_title
             (fun on => negb (Py.truthy (title on)))) in Hloop; [done|done|].
    intros st0 url on br. simpl. destruct (Py.truthy (title on)); simpl;
      by rewrite ?app_nil_r.
  - apply (loop_pages_where _ t_missing_meta_description
             (fun on => negb (Py.truthy (meta_description on)))) in Hloop;
      [done|done|].
    intros st0 url on br. simpl.
    destruct (Py.truthy (meta_description on)); simpl; by rewrite ?app_nil_r.
  - apply (loop_pages_where _ t_missing_h1
             (fun on => match h1s on with [] => true | _ => false end))
      in Hloop; [done|done|].
    intros st0 url on br. simpl. destruct (h1s on); by rewrite ?app_nil_r.
  - apply (loop_pages_where _ t_thin_pages
             (fun on => (word_count on <? 300)%nat)) in Hloop; [done|done|].
    intros st0 url on br. simpl. destruct (word_count on <? 300)%nat;
      by rewrite ?app_nil_r.
Qed.

(** X11: the four issue lists hold, in the order of the mapping, the
    addresses of the pages with a 200 outcome that have an empty title,
    an empty meta description, no [h1] heading, and fewer than 300
    words. *)
Theorem issue_lists_exact results s :
  analyze results = Ok s ->
  pages_missing_title s
  = pages_where (fun on => negb (Py.truthy (title on))) results
  /\ pages_missing_meta_description s
     = pages_where (fun on => negb (Py.truthy (meta_description on))) results
  /\ pages_missing_h1 s
     = pages_where (fun on => match h1s on with [] => true | _ => false end)
                   results
  /\ thin_pages s = pages_where (fun on => (word_count on <? 300)%nat) results.
Proof.
  unfold analyze, analyze_loop. intros Hb. inv_bind Hb as st Hloop.
  injection Hb as <-. simpl. by apply loop_issue_lists in Hloop.
Qed.

(** The loop at the entry of [u], when [u] is a key once. *)
Lemma loop_split R l u r :
  NoDup (Dict.keys l) -> In (u, r) l ->
  forall st st',
    for_each (analyze_page R) l st = Ok st' ->
    exists l1 l2 st1 st2,
      l = l1 ++ (u, r) :: l2
      /\ ~ In u (Dict.keys l1) /\ ~ In u (Dict.keys l2)
      /\ for_each (analyze_page R) l1 st = Ok st1
      /\ analyze_page R st1 (u, r) = Ok st2
      /\ for_each (analyze_page R) l2 st2 = Ok st'.
Proof.
  intros Hnd (l1 & l2 & ->)%in_split st st' Hrun.
  rewrite for_each_app in Hrun. inv_bind Hrun as st1 Hl1.
  rewrite for_each_cons in Hrun. inv_bind Hrun as st2 Hstep.
  exists l1, l2, st1, st2. split_and!; try done.
  - unfold Dict.keys in Hnd. rewrite map_app in Hnd. simpl in Hnd.
    apply NoDup_app in Hnd as (_ & Hdis & _).
    intros Hin%list_elem_of_In. apply (Hdis u Hin). by left.
  - unfold Dict.keys in Hnd. rewrite map_app in Hnd. simpl in Hnd.
    apply NoDup_app in Hnd as (_ & _ & [Hu _]%NoDup_cons).
    by rewrite <- list_elem_of_In.
Qed.

Lemma loop_other_alt R l u : forall st st',
  for_each (analyze_page R) l st = Ok st' ->
  ~ In u (Dict.keys l) ->
  Dict.get u (t_images_missing_alt st') = Dict.get u (t_images_missing_alt st).
Proof.
  induction l as [|[url r] l IH]; intros st st' Hrun Hu; simpl in Hrun.
  - by injection Hrun as <-.
  - inv_bind Hrun as st1 Hstep. simpl in Hu.
    rewrite (IH _ _ Hrun) by tauto.
    assert (url <> u) by tauto.
    apply analyze_page_Ok in Hstep as [[_ ->]|(on & br & ex & _ & _ & _ & ->)];
      simpl; [done|].
    destruct (map src _); [done|]. by rewrite dict_get_set_ne.
Qed.

(** The alt-gap table holds pages of the mapping only. *)
Lemma loop_alt_keys R l : forall st st' u,
  for_each (analyze_page R) l st = Ok st' ->
  In u (Dict.keys (t_images_missing_alt st')) ->
  In u (Dict.keys (t_images_missing_alt st)) \/ In u (Dict.keys l).
Proof.
  induction l as [|[url r] l IH]; intros st st' u Hrun Hu; simpl in Hrun.
  - injection Hrun as <-. by left.
  - inv_bind Hrun as st1 Hstep.
    destruct (IH _ _ _ Hrun Hu) as [Hu1|?]; [|right; by right].
    apply analyze_page_Ok in Hstep as [[_ ->]|(on & br & ex & _ & _ & _ & ->)];
      simpl in Hu1; [by left|].
    destruct (map src _); [by left|].
    apply dict_In_keys_set in Hu1 as [->|?]; [right; by left|by left].
Qed.

(** X12: for a page with a 200 outcome, the per-page report holds its
    title, meta description and their lengths, its [h1] headings, its
    word count and its number of images; and the alt-gap table maps
    the page to the [src] of its images with an empty or missing [alt],
    and has no entry for the page when there is no such image. *)
Theorem page_reported results s (u : string) h f el hd on :
  NoDup (Dict.keys results) ->
  Dict.get u results = Some (PageEntry h f el hd on) ->
  is_200 h = true ->
  analyze results = Ok s ->
  Dict.get u (per_page s)
  = Some (ReportPage (title on) (String.length (title on))
                     (meta_description on)
                     (String.length (meta_description on))
                     (h1s on) (word_count on) (length (images on)))
  /\ Dict.get u (images_missing_alt s)
     = match missing_alts on with [] => None | m => Some m end.
Proof.
  intros Hnd Hget%dict_get_In H200 Hs.
  unfold analyze, analyze_loop in Hs. inv_bind Hs as st Hloop.
  injection Hs as <-. simpl.
  destruct (loop_split _ _ _ _ Hnd Hget _ _ Hloop)
    as (l1 & l2 & st1 & st2 & _ & Hu1 & Hu2 & Hl1 & Hstep & Hl2).
  destruct (loop_other_keys _ _ u _ _ Hl2 Hu2) as [-> _].
  rewrite (loop_other_alt _ _ u _ _ Hl2 Hu2).
  pose proof (loop_other_alt _ _ u _ _ Hl1 Hu1) as Halt1. simpl in Halt1.
  apply analyze_page_Ok in Hstep
    as [[Hp _]|(on' & br & ex & _ & [= <-] & _ & ->)];
    [simpl in Hp; congruence|].
  simpl. split; [apply dict_get_set_eq|].
  fold (missing_alts on). destruct (missing_alts on); [done|].
  apply dict_get_set_eq.
Qed.

(** What the loop over the anchors puts into [broken]. *)
Lemma check_links_sound R url l : forall acc acc',
  for_each (check_link R url) l acc = Ok acc' ->
  forall b, In b (fst acc') ->
    In b (fst acc)
    \/ exists a rr,
         In a l /\ norm_url url (href a) = Ok (Some (b_href b))
         /\ is_same_domain url (b_href b) = true
         /\ Dict.get (b_href b) R = Some rr
         /\ b_http b = entry_http rr
         /\ z_truthy (entry_http rr) = true
         /\ is_200 (entry_http rr) = false.
Proof.
  induction l as [|a0 l IH]; intros acc acc' Hrun b Hb.
  - injection Hrun as <-. by left.
  - rewrite for_each_cons in Hrun. inv_bind Hrun as acc1 Hc.
    destruct (IH _ _ Hrun b Hb) as [Hb1|(a & rr & Ha & Hrest)].
    2:{ right. exists a, rr. split; [by right|done]. }
    unfold check_link in Hc. destruct acc as [br ex].
    inv_bind Hc as [n|] Hn; [|injection Hc as <-; by left].
    destruct (Py.truthy n); cbn [negb] in Hc; [|injection Hc as <-; by left].
    destruct (is_same_domain url n) eqn:Hd; [|injection Hc as <-; by left].
    destruct (Dict.get n R) as [rr|] eqn:Hr; [|injection Hc as <-; by left].
    destruct (_ && _) eqn:Hcode; injection Hc as <-; [|by left].
    simpl in Hb1. apply in_app_iff in Hb1 as [?|[<-|[]]]; [by left|].
    right. exists a0, rr. simpl.
    apply andb_true_iff in Hcode as [Hz Hn200%negb_true_iff].
    split_and!; try done. by left.
Qed.

(** X13: every broken link that the analysis reports for an address
    comes from an anchor of a page with a 200 outcome at this address:
    the anchor normalises, against the page, to the reported target,
    the target is on the site of the page, and the mapping holds for
    the target an entry with the reported status, which is neither
    absent nor 0 nor 200.  An address whose fetch failed without a
    status is never reported as broken. *)
Theorem broken_links_sound results s (A : string) broken b :
  analyze results = Ok s ->
  Dict.get A (broken_links s) = Some broken ->
  In b broken ->
  exists r on a rr code,
    In (A, r) results /\ is_page r = true /\ entry_onpage r = Some on
    /\ In a (links on)
    /\ norm_url A (href a) = Ok (Some (b_href b))
    /\ is_same_domain A (b_href b) = true
    /\ Dict.get (b_href b) results = Some rr
    /\ entry_http rr = Some code /\ b_http b = Some code
    /\ code <> 0 /\ code <> 200.
Proof.
  intros Hs. unfold analyze, analyze_loop in Hs. inv_bind Hs as st Hloop.
  injection Hs as <-. simpl. revert A broken b.
  apply (for_each_inv
            (fun st => forall A broken b,
                 Dict.get A (t_broken_links st) = Some broken -> In b broken ->
                 exists r on a rr code,
                   In (A, r) results /\ is_page r = true
                   /\ entry_onpage r = Some on /\ In a (links on)
                   /\ norm_url A (href a) = Ok (Some (b_href b))
                   /\ is_same_domain A (b_href b) = true
                   /\ Dict.get (b_href b) results = Some rr
                   /\ entry_http rr = Some code /\ b_http b = Some code
                   /\ code <> 0 /\ code <> 200)
            (analyze_page results) results)
    with (st := mkTally [] [] [] [] [] [] [] [] [] []) (st' := st);
    [|intros A0 br0 b0 Hx; simpl in Hx; discriminate|exact Hloop].
  intros st0 [url r] st1 Hin IHst Hstep A broken b Hget Hb.
  apply analyze_page_Ok in Hstep as [[_ ->]|(on & br & ex & Hp & Hon & Hl & ->)];
    [by eapply IHst|].
  simpl in Hget. destruct br as [|b0 br]; [by eapply IHst|].
  destruct (String.eqb_spec url A) as [->|Hne];
    [|rewrite dict_get_set_ne in Hget by done; by eapply IHst].
  rewrite dict_get_set_eq in Hget. injection Hget as <-.
  destruct (check_links_sound _ _ _ _ _ Hl b Hb)
    as [[]|(a & rr & Ha & Hn & Hd & Hrr & Hhttp & Hz & Hn200)].
  destruct (entry_http rr) as [code|] eqn:Ecode; [|done].
  exists r, on, a, rr, code. split_and!; try done.
  - simpl in Hz. by intros ->.
  - simpl in Hn200. by apply Z.eqb_neq.
Qed.

Lemma loop_per_page_keys R l : forall st st',
  for_each (analyze_page R) l st = Ok st' ->
  NoDup (Dict.keys (t_per_page st) ++ Dict.keys l) ->
  Dict.keys (t_per_page st') = Dict.keys (t_per_page st) ++ Dict.keys l.
Proof.
  induction l as [|[url r] l IH]; intros st st' Hrun Hnd.
  - injection Hrun as <-. by rewrite app_nil_r.
  - rewrite for_each_cons in Hrun. inv_bind Hrun as st1 Hstep.
    assert (Dict.keys (t_per_page st1) = Dict.keys (t_per_page st) ++ [url])
      as Hk1.
    { assert (Dict.mem url (t_per_page st) = false) as Hmem.
      { unfold Dict.mem.
        destruct (Dict.get url (t_per_page st)) eqn:E; [|done].
        apply dict_get_In, (in_map fst) in E. simpl in E.
        apply NoDup_app in Hnd as (_ & Hdis & _).
        exfalso. apply (Hdis url); [by apply list_elem_of_In|]. simpl. by left. }
      apply analyze_page_Ok in Hstep as [[_ ->]|(on & br & ex & _ & _ & _ & ->)];
        simpl; by rewrite dict_keys_set, Hmem. }
    rewrite (IH _ _ Hrun); rewrite Hk1, <- app_assoc; [done|].
    simpl in *. done.
Qed.

(** X14: the analysis of a mapping that [crawl] has returned does not
    raise; it reports one page per fetched address, in the order of the
    mapping. *)
Theorem analyze_crawl_reports_all start_url depth max_pages workers mapping :
  crawl start_url depth max_pages workers = Ok mapping ->
  exists s,
    analyze mapping = Ok s
    /\ total_pages s = length mapping
    /\ Dict.keys (per_page s) = Dict.keys mapping.
Proof.
  intros Hc. destruct (analyze_of_crawl_returns _ _ _ _ _ Hc) as [s Hs].
  exists s. split; [done|].
  assert (NoDup (Dict.keys mapping)) as Hnd.
  { unfold crawl in Hc. inv_bind Hc as st Hrun. injection Hc as <-.
    by apply crawl_run_inv in Hrun as [fs []]. }
  unfold analyze, analyze_loop in Hs. inv_bind Hs as st Hloop.
  injection Hs as <-. simpl. split; [done|].
  by apply loop_per_page_keys in Hloop.
Qed.

End IssueFacts.

Section IssuesOnSite.
Local Existing Instance Site.checks.
Local Existing Instance Site.web.

(** The front page and [/c] have fewer than 300 words. *)
Lemma issue_lists_exact_witness :
  analyze Site.mapping = Ok (Site.summary_of (analyze Site.mapping))
  /\ thin_pages (Site.summary_of (analyze Site.mapping))
     = ["http://a.com"; "http://a.com/c"]
  /\ thin_pages (Site.summary_of (analyze Site.mapping))
     = pages_where (fun on => (word_count on <? 300)%nat) Site.mapping.
Proof.
  assert (analyze Site.mapping = Ok (Site.summary_of (analyze Site.mapping)))
    as Hs by (vm_compute; reflexivity).
  split; [exact Hs|]. split; [vm_compute; reflexivity|].
  exact (proj2 (proj2 (proj2 (issue_lists_exact Site.mapping _ Hs)))).
Defined.

(** The image of the front page has no [alt]. *)
Lemma page_reported_witness :
  Dict.get "http://a.com" Site.mapping
  = Some (PageEntry (Some 200) (Some "http://a.com/") 120 []
                    (extract_onpage "http://a.com" "front"))
  /\ analyze Site.mapping = Ok (Site.summary_of (analyze Site.mapping))
  /\ Dict.get "http://a.com"
              (images_missing_alt (Site.summary_of (analyze Site.mapping)))
     = Some ["logo.png"].
Proof.
  assert (Dict.get "http://a.com" Site.mapping
          = Some (PageEntry (Some 200) (Some "http://a.com/") 120 []
                            (extract_onpage "http://a.com" "front"))) as Hf
      by (vm_compute; reflexivity).
  assert (analyze Site.mapping = Ok (Site.summary_of (analyze Site.mapping)))
    as Hs by (vm_compute; reflexivity).
  split; [exact Hf|]. split; [exact Hs|].
  exact (proj2 (page_reported Site.mapping _ "http://a.com" _ _ _ _ _
                  site_mapping_keys Hf eq_refl Hs)).
Defined.

(** The broken link of the front page is its anchor to [/b]. *)
Lemma broken_links_sound_witness :
  analyze Site.mapping = Ok (Site.summary_of (analyze Site.mapping))
  /\ Dict.get "http://a.com" (broken_links (Site.summary_of (analyze Site.mapping)))
     = Some [mkBroken "http://a.com/b" (Some 404)]
  /\ exists r on a rr code,
       In ("http://a.com", r) Site.mapping /\ is_page r = true
       /\ entry_onpage r = Some on /\ In a (links on)
       /\ norm_url "http://a.com" (href a) = Ok (Some "http://a.com/b")
       /\ is_same_domain "http://a.com" "http://a.com/b" = true
       /\ Dict.get "http://a.com/b" Site.mapping = Some rr
       /\ entry_http rr = Some code /\ Some 404 = Some code
       /\ code <> 0 /\ code <> 200.
Proof.
  assert (analyze Site.mapping = Ok (Site.summary_of (analyze Site.mapping)))
    as Hs by (vm_compute; reflexivity).
  assert (Dict.get "http://a.com"
                   (broken_links (Site.summary_of (analyze Site.mapping)))
          = Some [mkBroken "http://a.com/b" (Some 404)]) as Hb
      by (vm_compute; reflexivity).
  split; [exact Hs|]. split; [exact Hb|].
  exact (broken_links_sound Site.mapping _ "http://a.com" _
           (mkBroken "http://a.com/b" (Some 404)) Hs Hb (or_introl eq_refl)).
Defined.

Lemma analyze_crawl_reports_all_witness :
  crawl "http://a.com/" 5 10 8 = Ok Site.mapping
  /\ exists s,
       analyze Site.mapping = Ok s
       /\ total_pages s = length Site.mapping
       /\ Dict.keys (per_page s) = Dict.keys Site.mapping.
Proof.
  assert (crawl "http://a.com/" 5 10 8 = Ok Site.mapping) as Hc
      by (vm_compute; reflexivity).
  split; [exact Hc|].
  exact (analyze_crawl_reports_all "http://a.com/" 5 10 8 Site.mapping Hc).
Defined.

End IssuesOnSite.

(** ** The most common entries of a counter *)

Section SortFacts.
Context {A : Type} (before : A -> A -> bool) (R : A -> A -> Prop).
Hypothesis before_R : forall y x, before y x = true -> R y x.
Hypothesis not_before_R : forall y x, before y x = false -> R x y.
Hypothesis R_trans : forall x y z, R x y -> R y z -> R x z.

Lemma insert_sorted_Permutation x l :
  Counter.insert_sorted before x l ≡ₚ x :: l.
Proof.
  induction l as [|y l IH]; simpl; [done|].
  destruct (before y x); [|done]. rewrite IH. apply Permutation_swap.
Qed.

Lemma stable_sort_Permutation l : Counter.stable_sort before l ≡ₚ l.
Proof.
  induction l as [|x l IH]; simpl; [done|].
  by rewrite insert_sorted_Permutation, IH.
Qed.

Lemma insert_sorted_Sorted x l :
  StronglySorted R l -> StronglySorted R (Counter.insert_sorted before x l).
Proof.
  induction 1 as [|y l Hl IH Hy]; simpl.
  - repeat constructor.
  - destruct (before y x) eqn:E.
    + constructor; [done|].
      rewrite insert_sorted_Permutation. constructor; [by apply before_R|done].
    + constructor; [by constructor|].
      constructor; [by apply not_before_R|].
      eapply Forall_impl; [exact Hy|]. intros z Hz.
      eapply R_trans; [|exact Hz]. by apply not_before_R.
Qed.

Lemma stable_sort_Sorted l : StronglySorted R (Counter.stable_sort before l).
Proof.
  induction l as [|x l IH]; simpl; [constructor|]. by apply insert_sorted_Sorted.
Qed.

End SortFacts.

Section MostCommonFacts.

Implicit Types (c : list (string * nat)).

Lemma most_common_Sorted n c :
  StronglySorted (fun a b => (snd b <= snd a)%nat) (Counter.most_common n c).
Proof.
  unfold Counter.most_common.
  assert (StronglySorted (fun a b : string * nat => (snd b <= snd a)%nat)
            (Counter.stable_sort (fun a b => (snd b <? snd a)%nat) c)) as Hs.
  { apply stable_sort_Sorted.
    - intros y x Hlt%Nat.ltb_lt. lia.
    - intros y x Hge%Nat.ltb_ge. lia.
    - intros x y z ? ?. lia. }
  rewrite <- (take_drop n) in Hs. by apply StronglySorted_app_1_l in Hs.
Qed.

Lemma most_common_In n c kv : In kv (Counter.most_common n c) -> In kv c.
Proof.
  unfold Counter.most_common. intros Hin%list_elem_of_In%elem_of_take.
  destruct Hin as (i & Hi & _). apply list_elem_of_lookup_2 in Hi.
  rewrite stable_sort_Permutation in Hi. by apply list_elem_of_In.
Qed.

Lemma most_common_length n c : (length (Counter.most_common n c) <= n)%nat.
Proof. unfold Counter.most_common. rewrite length_take. lia. Qed.

Lemma most_common_NoDup n c :
  NoDup (Dict.keys c) -> NoDup (Dict.keys (Counter.most_common n c)).
Proof.
  unfold Counter.most_common, Dict.keys. intros Hnd.
  rewrite <- (stable_sort_Permutation (fun a b => (snd b <? snd a)%nat) c) in Hnd.
  rewrite <- (take_drop n (Counter.stable_sort _ c)), fmap_app in Hnd.
  by apply NoDup_app in Hnd as [? _].
Qed.

(** An entry that [most_common n] leaves out is not above any that it
    keeps, and [n] entries are kept. *)
Lemma most_common_top n c kv :
  In kv c -> ~ In kv (Counter.most_common n c) ->
  length (Counter.most_common n c) = n
  /\ forall kv', In kv' (Counter.most_common n c) -> (snd kv <= snd kv')%nat.
Proof.
  unfold Counter.most_common. intros Hin Hout.
  set (sorted := Counter.stable_sort (fun a b => (snd b <? snd a)%nat) c) in *.
  assert (StronglySorted (fun a b : string * nat => (snd b <= snd a)%nat) sorted)
    as Hs.
  { apply stable_sort_Sorted.
    - intros y x Hlt%Nat.ltb_lt. lia.
    - intros y x Hge%Nat.ltb_ge. lia.
    - intros x y z ? ?. lia. }
  assert (kv ∈ drop n sorted) as Hdrop.
  { apply list_elem_of_In in Hin.
    rewrite <- (stable_sort_Permutation (fun a b => (snd b <? snd a)%nat) c) in Hin.
    fold sorted in Hin. rewrite <- (take_drop n sorted) in Hin.
    apply elem_of_app in Hin as [Hin|Hin]; [|done].
    by apply list_elem_of_In in Hin. }
  split.
  - rewrite length_take. apply Nat.min_l.
    destruct (le_lt_dec n (length sorted)) as [?|Hlt]; [done|].
    rewrite drop_ge in Hdrop by lia. by apply elem_of_nil in Hdrop.
  - intros kv' Hin'%list_elem_of_In.
    rewrite <- (take_drop n sorted) in Hs.
    by apply (StronglySorted_app_1_elem_of _ _ _ kv' kv Hs).
Qed.

Lemma update_tally ks : forall c k,
  tally k (Counter.update ks c) = (tally k c + count_occ string_dec ks k)%nat.
Proof.
  unfold Counter.update.
  induction ks as [|k0 ks IH]; intros c k; simpl; [lia|].
  rewrite IH, tally_incr.
  destruct (string_dec k0 k) as [->|Hne].
  - rewrite String.eqb_refl. lia.
  - apply String.eqb_neq in Hne. rewrite Hne. lia.
Qed.

Lemma update_NoDup ks : forall c,
  NoDup (Dict.keys c) -> NoDup (Dict.keys (Counter.update ks c)).
Proof.
  unfold Counter.update. induction ks as [|k0 ks IH]; intros c Hc; simpl; [done|].
  by apply IH, incr_NoDup.
Qed.

Lemma update_Forall (P : string -> Prop) ks : forall c,
  Forall P ks ->
  Forall (fun kv => P (fst kv) /\ (0 < snd kv)%nat) c ->
  Forall (fun kv => P (fst kv) /\ (0 < snd kv)%nat) (Counter.update ks c).
Proof.
  unfold Counter.update.
  induction ks as [|k0 ks IH]; intros c Hks Hc; simpl; [done|].
  apply Forall_cons in Hks as [Hk0 Hks]. apply IH; [done|].
  unfold Counter.incr. apply dict_set_Forall; [done|]. simpl. split; [done|lia].
Qed.

Lemma count_occ_filter (p : string -> bool) ws w :
  count_occ string_dec (List.filter p ws) w
  = if p w then count_occ string_dec ws w else 0%nat.
Proof.
  induction ws as [|x ws IH]; simpl; [by destruct (p w)|].
  destruct (p x) eqn:Ex; simpl; destruct (string_dec x w) as [->|Hne];
    rewrite IH; try done.
  - by rewrite Ex.
  - by rewrite Ex.
Qed.

End MostCommonFacts.

Section WordFacts.
Context `{UrlChecks} `{Web}.

Implicit Types (R results : list (string * Entry)) (st : Tally).

Lemma word_total_cons w url r l :
  word_total w ((url, r) :: l)
  = (match r with
     | PageEntry h _ _ _ on =>
         if is_200 h then count_occ string_dec (words on) w else 0
     | _ => 0
     end + word_total w l)%nat.
Proof. done. Qed.

(** The word counter counts the words of the pages that are not stop
    words. *)
Lemma loop_word_counts R l : forall st st',
  for_each (analyze_page R) l st = Ok st' ->
  (forall w, tally w (word_counts st')
             = (tally w (word_counts st)
                + if is_stopword w then 0 else word_total w l)%nat)
  /\ (NoDup (Dict.keys (word_counts st)) -> NoDup (Dict.keys (word_counts st')))
  /\ (Forall (fun kv => is_stopword (fst kv) = false /\ (0 < snd kv)%nat)
             (word_counts st) ->
      Forall (fun kv => is_stopword (fst kv) = false /\ (0 < snd kv)%nat)
             (word_counts st')).
Proof.
  induction l as [|[url r] l IH]; intros st st' Hrun.
  - injection Hrun as <-. split; [|done]. intros w.
    unfold word_total; simpl. destruct (is_stopword w); lia.
  - rewrite for_each_cons in Hrun. inv_bind Hrun as st1 Hstep.
    destruct (IH _ _ Hrun) as (Ht & Hnd & Hall).
    apply analyze_page_Ok in Hstep as [[Hp ->]|(on & br & ex & Hp & Hon & _ & ->)].
    + split; [|done]. intros w. rewrite Ht, word_total_cons. simpl.
      destruct r as [e|h f|h f el hd on]; try done.
      simpl in Hp. by rewrite Hp.
    + destruct r as [e|h f|h f el hd on']; try done.
      simpl in Hp, Hon. injection Hon as ->.
      split_and!.
      * intros w. rewrite Ht, word_total_cons, Hp. simpl.
        rewrite update_tally, count_occ_filter.
        destruct (is_stopword w); simpl; lia.
      * intros Hst. apply Hnd. simpl. by apply update_NoDup.
      * intros Hst. apply Hall. simpl.
        apply (update_Forall (fun w => is_stopword w = false)); [|done].
        apply Forall_forall. intros w [_ Hw]%list_elem_of_In%filter_In.
        by apply negb_true_iff.
Qed.

(** X15: [top_words] are the at most 80 most frequent words of the
    pages with a 200 outcome that are not stop words: every entry holds
    a word that is not a stop word with the number of its occurrences,
    no word has two entries, the counts do not increase along the
    list, and a word that occurs and is left out occurs no more often
    than any of the 80 words listed. *)
Theorem top_words_most_frequent results s :
  analyze results = Ok s ->
  (length (top_words s) <= 80)%nat
  /\ NoDup (Dict.keys (top_words s))
  /\ StronglySorted (fun a b => (snd b <= snd a)%nat) (top_words s)
  /\ (forall w c, In (w, c) (top_words s) ->
                  is_stopword w = false /\ c = word_total w results /\ (0 < c)%nat)
  /\ (forall w, is_stopword w = false -> (0 < word_total w results)%nat ->
                ~ In w (Dict.keys (top_words s)) ->
                length (top_words s) = 80%nat
                /\ forall w' c', In (w', c') (top_words s) ->
                                 (word_total w results <= c')%nat).
Proof.
  unfold analyze, analyze_loop. intros Hb. inv_bind Hb as st Hloop.
  injection Hb as <-. simpl.
  destruct (loop_word_counts _ _ _ _ Hloop) as (Ht & Hnd & Hall).
  simpl in Ht. specialize (Hnd (NoDup_nil_2)). specialize (Hall (Forall_nil_2 _)).
  assert (forall w c, In (w, c) (word_counts st) ->
                      is_stopword w = false /\ c = word_total w results
                      /\ (0 < c)%nat) as Hentry.
  { intros w c Hin. rewrite Forall_forall in Hall.
    destruct (Hall (w, c)) as [Hw Hc]; [by apply list_elem_of_In|]. simpl in *.
    split_and!; try done.
    apply (dict_In_get _ _ _ Hnd) in Hin. specialize (Ht w).
    unfold tally in Ht. rewrite Hin, Hw in Ht. simpl in Ht. lia. }
  split_and!.
  - apply most_common_length.
  - by apply most_common_NoDup.
  - apply most_common_Sorted.
  - intros w c Hin%most_common_In. by apply Hentry.
  - intros w Hw Hpos Hout.
    assert (In (w, word_total w results) (word_counts st)) as Hin.
    { specialize (Ht w). rewrite Hw in Ht. unfold tally in Ht. simpl in Ht.
      destruct (Dict.get w (word_counts st)) as [c|] eqn:E; simpl in Ht; [|lia].
      apply dict_get_In in E. by subst c. }
    destruct (most_common_top 80 _ _ Hin) as [Hlen Htop].
    { intros Hin'. apply Hout.
      change w with (fst (w, word_total w results)). by apply in_map. }
    split; [done|]. intros w' c' Hin'. apply (Htop (w', c') Hin').
Qed.

End WordFacts.

Section WordsOnSite.
Local Existing Instance Site.checks.
Local Existing Instance Site.web.

(** On the site the front page says [Fast fast slow]. *)
Lemma top_words_most_frequent_witness :
  analyze Site.mapping = Ok (Site.summary_of (analyze Site.mapping))
  /\ top_words (Site.summary_of (analyze Site.mapping))
     = [("fast", 2%nat); ("slow", 1%nat)]
  /\ StronglySorted (fun a b : string * nat => (snd b <= snd a)%nat)
                    (top_words (Site.summary_of (analyze Site.mapping))).
Proof.
  assert (analyze Site.mapping = Ok (Site.summary_of (analyze Site.mapping)))
    as Hs by (vm_compute; reflexivity).
  split; [exact Hs|]. split; [vm_compute; reflexivity|].
  exact (proj1 (proj2 (proj2 (top_words_most_frequent Site.mapping _ Hs)))).
Defined.

End WordsOnSite.

(** ** Words and phrases *)

Section RunFacts.
Local Arguments String.append !_ _ : simpl nomatch.

(** The runs that [findall] returns have at least two characters, all
    of the class, and all with a property [Q] that every character of
    the text has. *)
Lemma runs_from_Forall (cls Q : ascii -> bool) s : forall cur,
  Py.all_chars Q s = true ->
  Py.all_chars (fun c => cls c && Q c) cur = true ->
  Forall (fun w => (2 <= String.length w)%nat
                   /\ Py.all_chars (fun c => cls c && Q c) w = true)
         (runs_from cls s cur).
Proof.
  induction s as [|c s IH]; intros cur Hs Hcur; cbn [runs_from].
  - destruct (Nat.leb_spec 2 (String.length cur)); by repeat constructor.
  - simpl in Hs. apply andb_true_iff in Hs as [Hc Hs].
    destruct (cls c) eqn:Ec.
    + apply IH; [done|]. rewrite all_chars_app, Hcur. simpl. by rewrite Ec, Hc.
    + apply Forall_app. split; [|by apply IH].
      destruct (Nat.leb_spec 2 (String.length cur)); by repeat constructor.
Qed.

Lemma lower_char_not_upper c : negb (Py.is_upper (Py.lower_char c)) = true.
Proof. destruct c as [[] [] [] [] [] [] [] []]; by vm_compute. Qed.

Lemma lower_not_upper s :
  Py.all_chars (fun c => negb (Py.is_upper c)) (Py.lower s) = true.
Proof.
  induction s as [|c s IH]; simpl; [done|].
  by rewrite lower_char_not_upper, IH.
Qed.

(** The words of a lower-cased text: two or more small ASCII letters. *)
Lemma words_of_lower s :
  Forall (fun w => (2 <= String.length w)%nat
                   /\ Py.all_chars Py.is_lower w = true)
         (WORD_RE_findall (Py.lower s)).
Proof.
  unfold WORD_RE_findall, findall_runs.
  eapply Forall_impl;
    [apply (runs_from_Forall Py.is_letter (fun c => negb (Py.is_upper c)));
     [apply lower_not_upper|done]|].
  intros w [Hlen Hw]. split; [done|].
  eapply all_chars_impl; [|exact Hw]. intros c. unfold Py.is_letter.
  by destruct (Py.is_upper c), (Py.is_lower c).
Qed.

Lemma is_lower_not_space c : Py.is_lower c = true -> Py.isspace c = false.
Proof. destruct c as [[] [] [] [] [] [] [] []]; by vm_compute. Qed.

Lemma split_ws_from_word w : forall cur rest,
  Py.all_chars Py.is_lower w = true ->
  split_ws_from (w +:+ rest) cur = split_ws_from rest (cur +:+ w).
Proof.
  induction w as [|c w IH]; intros cur rest Hw; simpl.
  - by rewrite append_nil_r.
  - simpl in Hw. apply andb_true_iff in Hw as [Hc Hw].
    rewrite (is_lower_not_space _ Hc), IH by done.
    by rewrite append_assoc.
Qed.

Lemma split_ws_from_space s cur :
  split_ws_from (String " " s) cur
  = (if Py.truthy cur then [cur] else []) ++ split_ws_from s "".
Proof. done. Qed.

(** [' '.join(words).split()] gives the words again. *)
Lemma split_ws_join ws :
  Forall (fun w => (2 <= String.length w)%nat
                   /\ Py.all_chars Py.is_lower w = true) ws ->
  split_ws (Py.join " " ws) = ws.
Proof.
  unfold split_ws. induction 1 as [|w ws [Hlen Hw] Hws IH]; [done|].
  assert (Py.truthy w = true) as Hne by (destruct w; [simpl in Hlen; lia|done]).
  destruct ws as [|w' ws].
  - simpl. rewrite <- (append_nil_r w) at 1.
    rewrite split_ws_from_word by done. simpl. by rewrite Hne.
  - change (Py.join " " (w :: w' :: ws))
      with (w +:+ " " +:+ Py.join " " (w' :: ws)).
    rewrite split_ws_from_word by done.
    change ("" +:+ w) with w.
    change (" " +:+ Py.join " " (w' :: ws))
      with (String " " (Py.join " " (w' :: ws))).
    rewrite split_ws_from_space, Hne. cbn [app]. by rewrite IH.
Qed.

End RunFacts.

Section ExtractWords.
Context `{Web}.

(** X16: the words that [extract_onpage] returns are runs of two or
    more small ASCII letters, and [word_count] is their number. *)
Theorem extract_words_shape url html :
  Forall (fun w => (2 <= String.length w)%nat
                   /\ Py.all_chars Py.is_lower w = true)
         (words (extract_onpage url html))
  /\ word_count (extract_onpage url html)
     = length (words (extract_onpage url html)).
Proof. split; [apply words_of_lower|done]. Qed.

End ExtractWords.

Section PhraseFacts.
Context `{UrlChecks} `{Web}.

Implicit Types (R results : list (string * Entry)) (st : Tally).

Lemma count_phrase_keys pc c :
  Forall (fun kv => (0 < snd kv)%nat /\ exists ws, phrase_words (fst kv) ws) pc ->
  Forall (fun kv => (0 < snd kv)%nat /\ exists ws, phrase_words (fst kv) ws)
         (count_phrase pc c).
Proof.
  intros Hpc. unfold count_phrase.
  set (ws := List.filter (fun w => negb (is_stopword w))
                         (WORD_RE_findall (Py.lower c))).
  destruct (Nat.leb_spec 1 (length ws)); [|done].
  destruct (Nat.leb_spec (length ws) 5); [|done]. simpl.
  unfold Counter.incr. apply dict_set_Forall; [done|]. simpl.
  split; [lia|]. exists ws. split_and!; try done.
  apply Forall_forall. intros w [Hw Hstop]%list_elem_of_In%filter_In.
  pose proof (words_of_lower c) as Hwords. rewrite Forall_forall in Hwords.
  apply list_elem_of_In, Hwords in Hw as [? ?].
  split_and!; try done. by apply negb_true_iff.
Qed.

Lemma phrase_counts_keys results :
  Forall (fun kv => (0 < snd kv)%nat /\ exists ws, phrase_words (fst kv) ws)
         (fold_left phrases_of_page results []).
Proof.
  assert (forall cands pc,
             Forall (fun kv => (0 < snd kv)%nat
                               /\ exists ws, phrase_words (fst kv) ws) pc ->
             Forall (fun kv => (0 < snd kv)%nat
                               /\ exists ws, phrase_words (fst kv) ws)
                    (fold_left count_phrase cands pc)) as Hcands.
  { induction cands as [|c cands IH]; intros pc Hpc; simpl; [done|].
    by apply IH, count_phrase_keys. }
  generalize (Forall_nil_2 (fun kv : string * nat =>
                (0 < snd kv)%nat /\ exists ws, phrase_words (fst kv) ws)).
  generalize (@nil (string * nat)).
  induction results as [|item results IH]; intros pc Hpc; simpl; [done|].
  apply IH. unfold phrases_of_page.
  destruct (entry_onpage (snd item)); [|done]. by apply Hcands.
Qed.

Lemma rank_phrases_In tus pc c :
  In c (rank_phrases tus pc) -> exists kv, In kv pc /\ c = score_phrase tus kv.
Proof.
  unfold rank_phrases. intros Hin%list_elem_of_In%elem_of_take.
  destruct Hin as (i & Hi & _). apply list_elem_of_lookup_2 in Hi.
  rewrite stable_sort_Permutation in Hi.
  apply list_elem_of_In, in_map_iff in Hi as (kv & <- & Hkv%most_common_In).
  eauto.
Qed.

Lemma rank_phrases_Sorted tus pc :
  StronglySorted (fun a b => (score b < score a)%nat
                             \/ (score b = score a /\ (count b <= count a)%nat))
                 (rank_phrases tus pc).
Proof.
  unfold rank_phrases.
  set (l := map (score_phrase tus) (Counter.most_common 40 pc)).
  assert (StronglySorted
            (fun a b => (score b < score a)%nat
                        \/ (score b = score a /\ (count b <= count a)%nat))
            (Counter.stable_sort candidate_before l)) as Hs.
  { apply stable_sort_Sorted; unfold candidate_before.
    - intros y x [Hlt%Nat.ltb_lt|[He%Nat.eqb_eq Hc%Nat.ltb_lt]%andb_true_iff]%orb_true_iff;
        lia.
    - intros y x [Hge%Nat.ltb_ge Hc]%orb_false_iff.
      destruct (Nat.eqb_spec (score y) (score x)) as [He|Hne]; [|lia].
      simpl in Hc. apply Nat.ltb_ge in Hc. lia.
    - intros x y z ? ?. lia. }
  rewrite <- (take_drop 40) in Hs. by apply StronglySorted_app_1_l in Hs.
Qed.

(** X17: [candidate_phrases] holds at most 40 candidates, by falling
    score and, at equal scores, by falling count.  Each has a phrase of
    one to five words that are not stop words, a positive count, as
    overlap the number of its words that are among [top_words], and as
    score the sum of count and overlap. *)
Theorem candidate_phrases_ranked results s :
  analyze results = Ok s ->
  (length (candidate_phrases s) <= 40)%nat
  /\ StronglySorted (fun a b => (score b < score a)%nat
                                \/ (score b = score a
                                    /\ (count b <= count a)%nat))
                    (candidate_phrases s)
  /\ Forall (fun c =>
               (0 < count c)%nat
               /\ score c = (count c + overlap_with_top_unigrams c)%nat
               /\ exists ws,
                    phrase_words (phrase c) ws
                    /\ overlap_with_top_unigrams c
                       = length (List.filter
                                   (fun w => Py.in_list w (Dict.keys (top_words s)))
                                   ws))
            (candidate_phrases s).
Proof.
  unfold analyze. intros Hb. inv_bind Hb as st Hloop.
  injection Hb as <-. simpl. split_and!.
  - unfold rank_phrases. rewrite length_take. lia.
  - apply rank_phrases_Sorted.
  - apply Forall_forall. intros c (kv & Hkv & ->)%list_elem_of_In%rank_phrases_In.
    pose proof (phrase_counts_keys results) as Hkeys.
    rewrite Forall_forall in Hkeys.
    apply list_elem_of_In, Hkeys in Hkv as (Hpos & ws & Hp & Hlen & Hws).
    destruct kv as [p n]. simpl in *. split_and!; try done.
    exists ws. split; [done|].
    rewrite firstn_all2 by (pose proof (most_common_length 80 (word_counts st)); lia).
    rewrite Hp, split_ws_join; [done|].
    eapply Forall_impl; [exact Hws|]. by intros w (_ & ? & ?).
Qed.

End PhraseFacts.

Section PhrasesOnSite.
Local Existing Instance Site.checks.
Local Existing Instance Site.web.

(** On the site two pages are titled [Home], and the front page has the
    heading [Best Running Shoes]. *)
Lemma candidate_phrases_ranked_witness :
  analyze Site.mapping = Ok (Site.summary_of (analyze Site.mapping))
  /\ candidate_phrases (Site.summary_of (analyze Site.mapping))
     = [mkCandidate "home" 2 0 2; mkCandidate "best running shoes" 1 0 1]
  /\ (length (candidate_phrases (Site.summary_of (analyze Site.mapping))) <= 40)%nat.
Proof.
  assert (analyze Site.mapping = Ok (Site.summary_of (analyze Site.mapping)))
    as Hs by (vm_compute; reflexivity).
  split; [exact Hs|]. split; [vm_compute; reflexivity|].
  exact (proj1 (candidate_phrases_ranked Site.mapping _ Hs)).
Defined.

End PhrasesOnSite.

(** ** The checklist *)

Section ChecklistFacts.
Context `{UrlChecks} `{Web}.

Implicit Types (R results : list (string * Entry)) (st : Tally).

(** The broken-links table holds pages of the mapping only, each with
    at least one broken link; the alt-gap table holds no empty list. *)
Lemma loop_tables R l : forall st st',
  for_each (analyze_page R) l st = Ok st' ->
  (forall x, In x (Dict.keys (t_broken_links st)) ->
             exists r, In (x, r) l /\ is_page r = true) ->
  Forall (fun kv => snd kv <> []) (t_broken_links st) ->
  Forall (fun kv => snd kv <> []) (t_images_missing_alt st) ->
  (forall x, In x (Dict.keys (t_broken_links st')) ->
             exists r, In (x, r) l /\ is_page r = true)
  /\ Forall (fun kv => snd kv <> []) (t_broken_links st')
  /\ Forall (fun kv => snd kv <> []) (t_images_missing_alt st').
Proof.
  intros st st' Hrun Hb Hbne Hane.
  apply (for_each_inv
           (fun st => (forall x, In x (Dict.keys (t_broken_links st)) ->
                                 exists r, In (x, r) l /\ is_page r = true)
                      /\ Forall (fun kv => snd kv <> []) (t_broken_links st)
                      /\ Forall (fun kv => snd kv <> []) (t_images_missing_alt st))
           (analyze_page R) l) with (st := st) (st' := st');
    [|done|exact Hrun].
  clear. intros st [url r] st' Hin (IHb & IHbne & IHane) Hstep.
  apply analyze_page_Ok in Hstep as [[_ ->]|(on & br & ex & Hp & _ & _ & ->)];
    [done|]. simpl. split_and!.
  - destruct br as [|b br]; [done|].
    intros x [->|Hx]%dict_In_keys_set; [by exists r|by apply IHb].
  - destruct br as [|b br]; [done|]. by apply dict_set_Forall.
  - destruct (map src _) eqn:E; [done|]. by apply dict_set_Forall.
Qed.

Lemma pages_where_In c u h f el hd on l :
  In (u, PageEntry h f el hd on) l -> is_200 h = true -> c on = true ->
  In u (pages_where c l).
Proof.
  intros Hin Hh Hc. unfold pages_where.
  change u with (fst (u, PageEntry h f el hd on)). apply in_map.
  apply filter_In. split; [done|]. simpl. by rewrite Hh, Hc.
Qed.

(** X18: every item of the checklist that names an address names a key
    of the mapping whose entry is a page with a 200 outcome: an address
    whose fetch failed, or answered with another status, gets no
    item. *)
Theorem checklist_pages_only results s item (u : string) :
  analyze results = Ok s ->
  In item (checklist s) ->
  c_url item = Some u ->
  exists r, In (u, r) results /\ is_page r = true.
Proof.
  unfold analyze, analyze_loop. intros Hb. inv_bind Hb as st Hloop.
  injection Hb as <-. unfold checklist. simpl.
  destruct (loop_tables _ _ _ _ Hloop) as (Hbroken & _ & _);
    [by intros ? []|done|done|].
  pose proof (loop_listed_pages _ _ _ _ Hloop) as Hlisted.
  assert (forall x, listed st x -> exists r, In (x, r) results /\ is_page r = true)
    as Hl.
  { apply Hlisted. intros x. unfold listed; simpl. tauto. }
  clear Hlisted. unfold listed in Hl.
  rewrite !in_app_iff, !in_map_iff.
  intros [(x & <- & Hx)|[(x & <- & Hx)|[(x & <- & Hx)|[(x & <- & Hx)
         |[([x imgs] & <- & Hx)|[([x br] & <- & Hx)|[Hd|Hd]]]]]]];
    simpl; intros Hu.
  - injection Hu as <-. apply Hl. tauto.
  - injection Hu as <-. apply Hl. tauto.
  - injection Hu as <-. apply Hl. tauto.
  - injection Hu as <-. apply Hl. tauto.
  - injection Hu as <-. apply Hl. do 4 right.
    change x with (fst (x, imgs)). by apply in_map.
  - injection Hu as <-. apply Hbroken.
    change x with (fst (x, br)). by apply in_map.
  - destruct (duplicates (title_counts st)); [done|].
    destruct Hd as [<-|[]]. discriminate.
  - destruct (duplicates (meta_counts st)); [done|].
    destruct Hd as [<-|[]]. discriminate.
Qed.

(** X19: a page with a 200 outcome gets the item [Missing title], with
    priority P0, when its title is empty, and with priority P1 the
    items [Missing meta description], [Missing H1] and
    [Thin content (<300 words)] when its meta description is empty,
    when it has no [h1] heading, and when it has fewer than 300
    words. *)
Theorem checklist_flags_page results s (u : string) h f el hd on :
  analyze results = Ok s ->
  In (u, PageEntry h f el hd on) results ->
  is_200 h = true ->
  (title on = "" ->
   In (mkItem "Missing title" (Some u) "P0"
              "Title is critical for ranking and CTR") (checklist s))
  /\ (meta_description on = "" ->
      In (mkItem "Missing meta description" (Some u) "P1"
                 "Improve CTR in SERPs") (checklist s))
  /\ (h1s on = [] ->
      In (mkItem "Missing H1" (Some u) "P1" "H1 signals page topic")
         (checklist s))
  /\ ((word_count on < 300)%nat ->
      In (mkItem "Thin content (<300 words)" (Some u) "P1"
                 "Create more useful, in-depth content") (checklist s)).
Proof.
  unfold analyze, analyze_loop. intros Hb Hin H200. inv_bind Hb as st Hloop.
  injection Hb as <-. unfold checklist. simpl.
  destruct (loop_issue_lists _ _ _ _ Hloop) as (-> & -> & -> & ->). simpl.
  split_and!; intros Hc; rewrite !in_app_iff, !in_map_iff.
  - left. exists u. split; [done|].
    apply (pages_where_In _ _ _ _ _ _ _ _ Hin H200). by rewrite Hc.
  - right; left. exists u. split; [done|].
    apply (pages_where_In _ _ _ _ _ _ _ _ Hin H200). by rewrite Hc.
  - do 2 right; left. exists u. split; [done|].
    apply (pages_where_In _ _ _ _ _ _ _ _ Hin H200). by rewrite Hc.
  - do 3 right; left. exists u. split; [done|].
    apply (pages_where_In _ _ _ _ _ _ _ _ Hin H200). by apply Nat.ltb_lt.
Qed.

(** X20: the alt-gap table and the broken-links table of a summary hold
    no empty list, so that no item of the checklist counts zero images
    or zero broken links; and the checklist has one item for each
    address of the four issue lists and of the two tables, and one for
    each of the two duplicate groupings that is not empty. *)
Theorem checklist_counts results s :
  analyze results = Ok s ->
  Forall (fun kv => snd kv <> []) (images_missing_alt s)
  /\ Forall (fun kv => snd kv <> []) (broken_links s)
  /\ length (checklist s)
     = (length (pages_missing_title s)
        + length (pages_missing_meta_description s)
        + length (pages_missing_h1 s) + length (thin_pages s)
        + length (images_missing_alt s) + length (broken_links s)
        + (if Nat.eqb (length (duplicate_titles s)) 0 then 0 else 1)
        + (if Nat.eqb (length (duplicate_meta_descriptions s)) 0 then 0 else 1))%nat.
Proof.
  intros Hs. split_and!.
  - unfold analyze, analyze_loop in Hs. inv_bind Hs as st Hloop.
    injection Hs as <-. simpl.
    by destruct (loop_tables _ _ _ _ Hloop) as (_ & _ & ?); [by intros ? []|..].
  - unfold analyze, analyze_loop in Hs. inv_bind Hs as st Hloop.
    injection Hs as <-. simpl.
    by destruct (loop_tables _ _ _ _ Hloop) as (_ & ? & _); [by intros ? []|..].
  - unfold checklist. rewrite !length_app, !length_map.
    destruct (duplicate_titles s), (duplicate_meta_descriptions s); simpl; lia.
Qed.

End ChecklistFacts.

Section ChecklistOnSite.
Local Existing Instance Site.checks.
Local Existing Instance Site.web.

(** The item for the broken link of the front page. *)
Lemma checklist_pages_only_witness :
  analyze Site.mapping = Ok (Site.summary_of (analyze Site.mapping))
  /\ In (mkItem "Broken links (1)" (Some "http://a.com") "P1"
                "Fix or remove broken links")
        (checklist (Site.summary_of (analyze Site.mapping)))
  /\ exists r, In ("http://a.com", r) Site.mapping /\ is_page r = true.
Proof.
  assert (analyze Site.mapping = Ok (Site.summary_of (analyze Site.mapping)))
    as Hs by (vm_compute; reflexivity).
  assert (In (mkItem "Broken links (1)" (Some "http://a.com") "P1"
                     "Fix or remove broken links")
             (checklist (Site.summary_of (analyze Site.mapping)))) as Hin
      by (vm_compute; tauto).
  split; [exact Hs|]. split; [exact Hin|].
  exact (checklist_pages_only Site.mapping _ _ "http://a.com" Hs Hin eq_refl).
Defined.

(** The page [/c] has no meta description. *)
Lemma checklist_flags_page_witness :
  analyze Site.mapping = Ok (Site.summary_of (analyze Site.mapping))
  /\ In ("http://a.com/c",
         PageEntry (Some 200) (Some "http://a.com/c") 80 []
                   (extract_onpage "http://a.com/c" "c")) Site.mapping
  /\ In (mkItem "Missing meta description" (Some "http://a.com/c") "P1"
                "Improve CTR in SERPs")
        (checklist (Site.summary_of (analyze Site.mapping))).
Proof.
  assert (analyze Site.mapping = Ok (Site.summary_of (analyze Site.mapping)))
    as Hs by (vm_compute; reflexivity).
  assert (In ("http://a.com/c",
              PageEntry (Some 200) (Some "http://a.com/c") 80 []
                        (extract_onpage "http://a.com/c" "c")) Site.mapping)
    as Hin by (vm_compute; tauto).
  split; [exact Hs|]. split; [exact Hin|].
  exact (proj1 (proj2 (checklist_flags_page Site.mapping _ "http://a.com/c"
                         _ _ _ _ _ Hs Hin eq_refl)) eq_refl).
Defined.

Lemma checklist_counts_witness :
  analyze Site.mapping = Ok (Site.summary_of (analyze Site.mapping))
  /\ length (checklist (Site.summary_of (analyze Site.mapping))) = 7%nat
  /\ Forall (fun kv : string * list Broken => snd kv <> [])
            (broken_links (Site.summary_of (analyze Site.mapping))).
Proof.
  assert (analyze Site.mapping = Ok (Site.summary_of (analyze Site.mapping)))
    as Hs by (vm_compute; reflexivity).
  split; [exact Hs|]. split; [vm_compute; reflexivity|].
  exact (proj1 (proj2 (checklist_counts Site.mapping _ Hs))).
Defined.

End ChecklistOnSite.

(** ** Trimmed fields *)

Section StripFacts.

Lemma rstrip_idem p s : Py.rstrip p (Py.rstrip p s) = Py.rstrip p s.
Proof.
  induction s as [|c s IH]; [done|]. cbn [Py.rstrip].
  destruct (Py.rstrip p s) as [|a r] eqn:E.
  - destruct (p c) eqn:Ec; [done|]. cbn [Py.rstrip]. by rewrite Ec.
  - cbn [Py.rstrip] in IH |- *.
    change (Py.rstrip p (String c (String a r)))
      with (match Py.rstrip p (String a r) with
            | EmptyString => if p c then EmptyString else String c EmptyString
            | String a' r' => String c (String a' r')
            end).
    by rewrite IH.
Qed.

Lemma lstrip_idem p s : Py.lstrip p (Py.lstrip p s) = Py.lstrip p s.
Proof.
  induction s as [|c s IH]; [done|]. simpl.
  destruct (p c) eqn:Ec; [done|]. simpl. by rewrite Ec.
Qed.

(** Cutting at the front keeps a text that is trimmed at the back
    trimmed at the back. *)
Lemma rstrip_lstrip p s :
  Py.rstrip p s = s -> Py.rstrip p (Py.lstrip p s) = Py.lstrip p s.
Proof.
  induction s as [|c s IH]; [done|]. intros Hs. cbn [Py.lstrip].
  destruct (p c) eqn:Ec; [|done]. apply IH.
  cbn [Py.rstrip] in Hs. destruct (Py.rstrip p s) as [|a r] eqn:E.
  - rewrite Ec in Hs. discriminate.
  - by injection Hs.
Qed.

Lemma strip_idem s : Py.strip (Py.strip s) = Py.strip s.
Proof.
  unfold Py.strip.
  rewrite (rstrip_lstrip _ _ (rstrip_idem _ s)). apply lstrip_idem.
Qed.

End StripFacts.

Section TrimmedFields.
Context `{Web}.

(** X21: the title, the meta description, the robots field and the
    canonical address that [extract_onpage] returns have no white space
    at either end: trimming them again changes nothing. *)
Theorem extract_fields_trimmed url html :
  Py.strip (title (extract_onpage url html)) = title (extract_onpage url html)
  /\ Py.strip (meta_description (extract_onpage url html))
     = meta_description (extract_onpage url html)
  /\ Py.strip (meta_robots (extract_onpage url html))
     = meta_robots (extract_onpage url html)
  /\ Py.strip (canonical (extract_onpage url html))
     = canonical (extract_onpage url html).
Proof.
  unfold extract_onpage, meta_loop. cbn [title meta_description meta_robots canonical].
  destruct (meta_loop_fields (soup_meta (BeautifulSoup html)) (mkMeta "" "" [] []))
    as [-> ->].
  split_and!.
  - destruct (soup_title _) as [[s|]|]; try done.
    destruct (Py.truthy s); [apply strip_idem|done].
  - destruct (last _); [apply strip_idem|done].
  - destruct (last _); [apply strip_idem|done].
  - destruct (soup_canonical _) as [t|]; [|done].
    destruct (opt_truthy _); [apply strip_idem|done].
Qed.

End TrimmedFields.

(** ** Addresses on which nothing raises *)

Section PlainFacts.
Context `{UrlChecks}.
Local Arguments String.append !_ _ : simpl nomatch.
Local Arguments Ascii.eqb : simpl never.

Implicit Types (s url base : string).

Lemma plain_no_bracket s :
  Py.all_chars plain s = true ->
  Py.contains "[" s = false /\ Py.contains "]" s = false.
Proof.
  intros Hs. rewrite !contains_all_chars.
  split; apply negb_false_iff; (eapply all_chars_impl; [|exact Hs]);
    intros c; unfold plain; rewrite (Ascii.eqb_sym _ c);
    intros [[_ ?]%andb_true_iff ?]%andb_true_iff; done.
Qed.

Lemma plain_isascii s :
  Py.all_chars plain s = true -> Py.all_chars Py.isascii s = true.
Proof.
  apply all_chars_impl. intros c. unfold plain.
  by intros [[? _]%andb_true_iff _]%andb_true_iff.
Qed.

Lemma check_brackets_plain s :
  Py.all_chars plain s = true -> Urllib.check_brackets s = Ok tt.
Proof.
  intros [Ho Hc]%plain_no_bracket. unfold Urllib.check_brackets.
  by rewrite Ho, Hc.
Qed.

Lemma checknetloc_plain s :
  Py.all_chars plain s = true -> Urllib.checknetloc s = Ok tt.
Proof.
  intros Hs%plain_isascii. unfold Urllib.checknetloc.
  by rewrite Hs, orb_true_r.
Qed.

Lemma lower_char_plain c : plain c = true -> plain (Py.lower_char c) = true.
Proof. destruct c as [[] [] [] [] [] [] [] []]; by vm_compute. Qed.

Lemma lower_plain s :
  Py.all_chars plain s = true -> Py.all_chars plain (Py.lower s) = true.
Proof.
  induction s as [|c s IH]; simpl; [done|].
  intros [Hc Hs]%andb_true_iff. by rewrite (lower_char_plain _ Hc), IH.
Qed.

Lemma rstrip_all_chars f p s :
  Py.all_chars f s = true -> Py.all_chars f (Py.rstrip p s) = true.
Proof.
  induction s as [|c s IH]; [done|]. cbn [Py.rstrip Py.all_chars].
  intros [Hc Hs]%andb_true_iff. specialize (IH Hs).
  destruct (Py.rstrip p s) as [|a r].
  - destruct (p c); [done|]. simpl. by rewrite Hc.
  - cbn [Py.all_chars] in IH |- *. by rewrite Hc.
Qed.

Lemma strip_all_chars f s :
  Py.all_chars f s = true -> Py.all_chars f (Py.strip s) = true.
Proof. intros Hs. by apply lstrip_all_chars, rstrip_all_chars. Qed.

Lemma split_scheme_plain url d sch rest :
  Urllib.split_scheme url d = (sch, rest) ->
  Py.all_chars plain url = true -> Py.all_chars plain d = true ->
  Py.all_chars plain sch = true /\ Py.all_chars plain rest = true.
Proof.
  unfold Urllib.split_scheme.
  destruct (Py.cut ":" url) as [[[|c0 pre] r]|] eqn:E;
    [by intros [= <- <-]| |by intros [= <- <-]].
  destruct (_ && _); intros [= <- <-]; [|done].
  intros Hu _. apply (cut_all_chars _ _ _ _ _ E) in Hu as [Hpre Hr].
  split; [|done]. by apply (lower_plain (String c0 pre)).
Qed.

(** On a plain text, [urlsplit] returns, and the parts are plain. *)
Lemma urlsplit_plain url d :
  Py.all_chars plain url = true -> Py.all_chars plain d = true ->
  exists sp,
    Urllib.urlsplit url d = Ok sp
    /\ Py.all_chars plain (Urllib.s_scheme sp) = true
    /\ Py.all_chars plain (Urllib.s_netloc sp) = true
    /\ Py.all_chars plain (Urllib.s_path sp) = true
    /\ Py.all_chars plain (Urllib.s_query sp) = true
    /\ Py.all_chars plain (Urllib.s_fragment sp) = true.
Proof.
  intros Hu Hd. unfold Urllib.urlsplit.
  set (url1 := Py.remove_chars Urllib.unsafe_byte (Py.lstrip Urllib.c0_or_space url)).
  set (d1 := Py.remove_chars Urllib.unsafe_byte
               (Py.lstrip Urllib.c0_or_space (Py.rstrip Urllib.c0_or_space d))).
  assert (Py.all_chars plain url1 = true) as H1
      by (by apply remove_chars_all_chars, lstrip_all_chars).
  assert (Py.all_chars plain d1 = true) as Hd1
      by (by apply remove_chars_all_chars, lstrip_all_chars, rstrip_all_chars).
  destruct (Urllib.split_scheme url1 d1) as [sch url2] eqn:E2.
  destruct (split_scheme_plain _ _ _ _ E2 H1 Hd1) as [Hsch H2].
  assert (exists nl url3,
             (if String.eqb (Py.take2 url2) "//"
              then let '(nl, rest) := Urllib.splitnetloc2 url2 in
                   _ ← Urllib.check_brackets nl; Ok (nl, rest)
              else Ok (EmptyString, url2)) = Ok (nl, url3)
             /\ Py.all_chars plain nl = true /\ Py.all_chars plain url3 = true)
    as (nl & url3 & -> & Hnl & H3).
  { destruct (String.eqb _ "//"); [|by exists "", url2].
    unfold Urllib.splitnetloc2.
    destruct (Py.break _ _) as [nl rest] eqn:Eb.
    destruct (break_all_chars plain _ _ _ _ Eb (drop2_all_chars _ _ H2))
      as [Hn Hr].
    rewrite (check_brackets_plain _ Hn). by exists nl, rest. }
  cbn [mbind result_bind].
  assert (exists url4 frag,
             match Py.cut "#" url3 with
             | Some (a, b) => (a, b)
             | None => (url3, EmptyString)
             end = (url4, frag)
             /\ Py.all_chars plain url4 = true /\ Py.all_chars plain frag = true)
    as (url4 & frag & -> & H4 & Hfrag).
  { destruct (Py.cut "#" url3) as [[a b]|] eqn:E4; [|by exists url3, ""].
    destruct (cut_all_chars plain _ _ _ _ E4 H3). by exists a, b. }
  assert (exists url5 qry,
             match Py.cut "?" url4 with
             | Some (a, b) => (a, b)
             | None => (url4, EmptyString)
             end = (url5, qry)
             /\ Py.all_chars plain url5 = true /\ Py.all_chars plain qry = true)
    as (url5 & qry & -> & H5 & Hqry).
  { destruct (Py.cut "?" url4) as [[a b]|] eqn:E5; [|by exists url4, ""].
    destruct (cut_all_chars plain _ _ _ _ E5 H4). by exists a, b. }
  rewrite (checknetloc_plain _ Hnl). cbn [mbind result_bind].
  eexists. split; [reflexivity|]. by simpl.
Qed.

Lemma urlparse_plain url d :
  Py.all_chars plain url = true -> Py.all_chars plain d = true ->
  exists p,
    Urllib.urlparse url d = Ok p
    /\ Py.all_chars plain (Urllib.scheme p) = true
    /\ Py.all_chars plain (Urllib.netloc p) = true
    /\ Py.all_chars plain (Urllib.path p) = true
    /\ Py.all_chars plain (Urllib.params p) = true
    /\ Py.all_chars plain (Urllib.query p) = true
    /\ Py.all_chars plain (Urllib.fragment p) = true.
Proof.
  intros Hu Hd. unfold Urllib.urlparse.
  destruct (urlsplit_plain _ _ Hu Hd) as (sp & -> & Hs & Hn & Hp & Hq & Hf).
  cbn [mbind result_bind].
  destruct (splitparams_all_chars plain _ Hp) as [Hp1 Hp2].
  destruct (_ && _).
  - destruct (Urllib.splitparams (Urllib.s_path sp)) as [p prm].
    eexists. split; [reflexivity|]. by simpl.
  - eexists. split; [reflexivity|]. by simpl.
Qed.

Lemma urlunsplit_plain sch nl url qry frag :
  Py.all_chars plain sch = true -> Py.all_chars plain nl = true ->
  Py.all_chars plain url = true -> Py.all_chars plain qry = true ->
  Py.all_chars plain frag = true ->
  Py.all_chars plain (Urllib.urlunsplit sch nl url qry frag) = true.
Proof.
  intros Hs Hn Hu Hq Hf. unfold Urllib.urlunsplit.
  repeat match goal with
         | |- context [if ?b then _ else _] => destruct b
         end;
    rewrite ?all_chars_app, ?Hs, ?Hn, ?Hu, ?Hq, ?Hf; done.
Qed.

Lemma urlunparse_plain p :
  Py.all_chars plain (Urllib.scheme p) = true ->
  Py.all_chars plain (Urllib.netloc p) = true ->
  Py.all_chars plain (Urllib.path p) = true ->
  Py.all_chars plain (Urllib.params p) = true ->
  Py.all_chars plain (Urllib.query p) = true ->
  Py.all_chars plain (Urllib.fragment p) = true ->
  Py.all_chars plain (Urllib.urlunparse p) = true.
Proof.
  intros Hs Hn Hp Hprm Hq Hf. unfold Urllib.urlunparse.
  apply urlunsplit_plain; try done.
  destruct (Py.truthy _); [|done]. by rewrite !all_chars_app, Hp, Hprm.
Qed.

Lemma split_all_chars f c s :
  Py.all_chars f s = true ->
  Forall (fun w => Py.all_chars f w = true) (Py.split c s).
Proof.
  induction s as [|d s IH]; [by repeat constructor|].
  cbn [Py.split Py.all_chars]. intros [Hd Hs]%andb_true_iff.
  specialize (IH Hs). destruct (Py.split c s) as [|w ws]; [by repeat constructor|].
  apply Forall_cons in IH as [Hw Hws].
  destruct (Ascii.eqb c d); repeat constructor; try done.
  simpl. by rewrite Hd.
Qed.

Lemma join_all_chars f sep ws :
  Py.all_chars f sep = true ->
  Forall (fun w => Py.all_chars f w = true) ws ->
  Py.all_chars f (Py.join sep ws) = true.
Proof.
  intros Hsep. induction 1 as [|w ws Hw Hws IH]; [done|].
  cbn [Py.join]. destruct ws as [|w' ws]; [done|].
  by rewrite !all_chars_app, Hw, Hsep, IH.
Qed.

Lemma Forall_removelast {A} (P : A -> Prop) (l : list A) :
  Forall P l -> Forall P (removelast l).
Proof.
  induction 1 as [|x l Hx Hl IH]; [done|]. simpl.
  destruct l; [constructor|by constructor].
Qed.

Lemma Forall_last {A} (P : A -> Prop) (l : list A) z :
  Forall P l -> last l = Some z -> P z.
Proof.
  intros Hl Hz. rewrite Forall_forall in Hl. apply Hl.
  by apply last_Some_elem_of.
Qed.

Lemma resolve_Forall (P : string -> Prop) segs : forall rp,
  Forall P segs -> Forall P rp -> Forall P (Urllib.resolve segs rp).
Proof.
  induction segs as [|seg segs IH]; intros rp Hsegs Hrp; [done|].
  apply Forall_cons in Hsegs as [Hseg Hsegs]. simpl.
  destruct (String.eqb seg ".."); [by apply IH, Forall_removelast|].
  destruct (String.eqb seg "."); [by apply IH|].
  apply IH; [done|]. apply Forall_app. by repeat constructor.
Qed.

Lemma filter_middle_Forall (P : string -> Prop) l :
  Forall P l -> Forall P (Urllib.filter_middle l).
Proof.
  intros Hl. unfold Urllib.filter_middle. destruct l as [|x r]; [done|].
  apply Forall_cons in Hl as [Hx Hr].
  destruct (last r) as [z|] eqn:Ez; [|by repeat constructor].
  constructor; [done|]. apply Forall_app. split.
  - apply Forall_forall. intros w [Hw _]%list_elem_of_In%filter_In.
    pose proof (Forall_removelast _ _ Hr) as Hrl. rewrite Forall_forall in Hrl.
    by apply Hrl, list_elem_of_In.
  - repeat constructor. by apply (Forall_last _ _ _ Hr).
Qed.

(** On plain texts, [urljoin] returns a plain text. *)
Lemma urljoin_plain base url :
  Py.all_chars plain base = true -> Py.all_chars plain url = true ->
  exists joined,
    Urllib.urljoin base url = Ok joined /\ Py.all_chars plain joined = true.
Proof.
  intros Hb Hu. unfold Urllib.urljoin.
  destruct (Py.truthy base); cbn [negb]; [|by exists url].
  destruct (Py.truthy url); cbn [negb]; [|by exists base].
  destruct (urlparse_plain base "" Hb eq_refl)
    as (b & -> & Hbs & Hbn & Hbp & Hbprm & Hbq & Hbf).
  cbn [mbind result_bind].
  destruct (urlparse_plain url (Urllib.scheme b) Hu Hbs)
    as (u & -> & Hus & Hun & Hup & Huprm & Huq & Huf).
  cbn [mbind result_bind].
  destruct (_ || _); [by exists url|].
  destruct (_ && _); [eexists; split; [reflexivity|by apply urlunparse_plain]|].
  set (nl := if Py.in_list (Urllib.scheme u) Urllib.uses_netloc
             then Urllib.netloc b else Urllib.netloc u).
  assert (Py.all_chars plain nl = true) as Hnl
      by (subst nl; by destruct (Py.in_list _ _)).
  destruct (_ && _).
  - eexists; split; [reflexivity|]. apply urlunparse_plain; simpl; try done.
    by destruct (negb _).
  - eexists; split; [reflexivity|]. apply urlunparse_plain; simpl; try done.
    match goal with
    | |- context [Py.join "/" ?rp] =>
        assert (Forall (fun w => Py.all_chars plain w = true) rp) as Hrp
    end.
    { pose proof (split_all_chars plain "/" _ Hbp) as Hbparts.
      pose proof (split_all_chars plain "/" _ Hup) as Huparts.
      match goal with
      | |- Forall _ (match last ?segs with _ => _ end) =>
          assert (Forall (fun w => Py.all_chars plain w = true) segs) as Hsegs;
            [|revert Hsegs; generalize segs as sg; intros sg Hsegs]
      end.
      { destruct (String.eqb _ "/"); [done|].
        apply filter_middle_Forall, Forall_app. split; [|done].
        destruct (last _) as [[|? ?]|]; try done;
          by apply Forall_removelast. }
      pose proof (resolve_Forall _ _ [] Hsegs (Forall_nil_2 _)) as Hres.
      destruct (last sg) as [seg|]; [|done].
      destruct (_ || _); [|done]. apply Forall_app. by repeat constructor. }
    pose proof (join_all_chars plain "/" _ eq_refl Hrp) as Hj.
    by destruct (Py.truthy _).
Qed.

(** On plain texts, [norm_url] returns, and it returns a plain text. *)
Lemma norm_url_plain base link :
  Py.all_chars plain base = true ->
  (forall l, link = Some l -> Py.all_chars plain l = true) ->
  exists r, norm_url base link = Ok r
            /\ forall u, r = Some u -> Py.all_chars plain u = true.
Proof.
  intros Hb Hl. unfold norm_url. destruct link as [l|]; [|by exists None].
  specialize (Hl l eq_refl).
  destruct (Py.truthy l); cbn [negb]; [|by exists None].
  destruct (_ || _); [by exists None|].
  destruct (urljoin_plain base (Py.strip l) Hb (strip_all_chars _ _ Hl))
    as (joined & -> & Hj).
  cbn [mbind result_bind].
  destruct (urlparse_plain joined "" Hj eq_refl)
    as (p & -> & Hs & Hn & Hp & Hprm & Hq & Hf).
  cbn [mbind result_bind].
  destruct (negb _); [by exists None|].
  eexists; split; [reflexivity|]. intros u [= <-].
  unfold Urllib.geturl. by apply urlunparse_plain.
Qed.

(** X22: [norm_url] does not raise when the base address and the link
    are ASCII texts without square brackets, whatever [ipaddress] and
    [unicodedata] would say; and the address that it returns is again
    such a text. *)
Theorem norm_url_returns_on_plain base l :
  Py.all_chars plain base = true ->
  Py.all_chars plain l = true ->
  exists r, norm_url base (Some l) = Ok r
            /\ match r with
               | Some u => Py.all_chars plain u = true
               | None => True
               end.
Proof.
  intros Hb Hl.
  destruct (norm_url_plain base (Some l) Hb) as (r & Hr & Hu);
    [by intros ? [= <-]|].
  exists r. split; [done|]. destruct r as [u|]; [by apply Hu|done].
Qed.

(** The link [http://[] cannot be parsed. *)
Lemma urlparse_open_bracket d :
  Urllib.urlparse "http://[" d = Raise (ValueError "Invalid IPv6 URL").
Proof. by vm_compute. Qed.

(** X23: on the link [http://[], whose host opens a square bracket
    that it does not close, [norm_url] raises for every base address,
    whatever [ipaddress] and [unicodedata] would say. *)
Theorem norm_url_open_bracket_raises base :
  exists e, norm_url base (Some "http://[") = Raise e.
Proof.
  unfold norm_url. change (Py.strip "http://[") with "http://[".
  cbn [Py.truthy negb]. change (_ || _ || _) with false. cbv iota.
  unfold Urllib.urljoin. destruct (Py.truthy base); cbn [negb Py.truthy].
  - destruct (Urllib.urlparse base "") as [b|e]; cbn [mbind result_bind];
      [|by exists e].
    rewrite urlparse_open_bracket. cbn [mbind result_bind]. eauto.
  - cbn [mbind result_bind]. rewrite urlparse_open_bracket.
    cbn [mbind result_bind]. eauto.
Qed.

End PlainFacts.

Section PlainOnSite.
Local Existing Instance Site.checks.

Lemma norm_url_returns_on_plain_witness :
  Py.all_chars plain "http://a.com/x/" = true
  /\ Py.all_chars plain "../y?z#f" = true
  /\ exists r, norm_url "http://a.com/x/" (Some "../y?z#f") = Ok r
               /\ match r with
                  | Some u => Py.all_chars plain u = true
                  | None => True
                  end.
Proof.
  split; [reflexivity|]. split; [reflexivity|].
  apply (norm_url_returns_on_plain "http://a.com/x/" "../y?z#f"); reflexivity.
Defined.

End PlainOnSite.

(** ** When the crawl returns and when it raises *)

Section CrawlTotality.
Context `{UrlChecks} `{Web}.

Lemma for_each_raises {A S} (body : S -> A -> result S) l x :
  In x l -> (forall st, exists e, body st x = Raise e) ->
  forall st, exists e, for_each body l st = Raise e.
Proof.
  induction l as [|y l IH]; intros Hin Hx st; [done|].
  rewrite for_each_cons. destruct Hin as [->|Hin].
  - destruct (Hx st) as [e ->]. by exists e.
  - destruct (body st y) as [st1|e]; simpl; [by apply IH|by exists e].
Qed.

(** A fetched page one of whose links makes [norm_url] raise makes the
    round raise. *)
Lemma handle_result_raises start_url max_pages url r elapsed a e0 :
  session_get url = GetReturned r elapsed -> r_status_code r = 200 ->
  In a (links (extract_onpage url (r_text r))) ->
  norm_url url (href a) = Raise e0 ->
  forall acc, exists e, handle_result start_url max_pages acc url = Raise e.
Proof.
  intros Hget H200 Ha Hn [st nr]. unfold handle_result, fetch.
  rewrite Hget, H200. change (200 =? 200) with true. cbn [negb]. cbv iota.
  match goal with
  | |- context [for_each ?body ?l ?st0] =>
      destruct (for_each_raises body l a Ha) with (st := st0) as [e ->]
  end.
  - intros nr0. exists e0. unfold collect_link. by rewrite Hn.
  - by exists e.
Qed.

(** X24: when the start address answers 200 with a page one of whose
    links makes [norm_url] raise, [crawl] raises: one link that cannot
    be parsed aborts the crawl, and no mapping is returned. *)
Theorem crawl_aborts_on_raising_link start_url depth max_pages workers
        r elapsed a e0 :
  0 < max_pages -> 0 <= depth -> 0 < workers ->
  session_get (Py.rstrip (Ascii.eqb "/") start_url) = GetReturned r elapsed ->
  r_status_code r = 200 ->
  In a (links (extract_onpage (Py.rstrip (Ascii.eqb "/") start_url) (r_text r))) ->
  norm_url (Py.rstrip (Ascii.eqb "/") start_url) (href a) = Raise e0 ->
  exists e, crawl start_url depth max_pages workers = Raise e.
Proof.
  intros Hpos Hdepth Hw Hget H200 Ha Hn. unfold crawl, crawl_run.
  set (A := Py.rstrip (Ascii.eqb "/") start_url) in *.
  destruct (Z.to_nat (depth + 1)) as [|n] eqn:En; [lia|]. clear En.
  cbn [crawl_rounds]. change (pages_crawled (mkCrawl ∅ [] 0 [])) with 0.
  destruct (Z.leb_spec max_pages 0); [lia|].
  destruct (Z.leb_spec workers 0); [lia|].
  destruct (dispatch max_pages [A] (mkCrawl ∅ [] 0 []) []) as [st1 futures] eqn:Hd.
  apply first_round in Hd as [-> ->]; [|done].
  change (as_completed 0 [A]) with
    (match [A] !! (completes_next 0 [A] mod 1)%nat with
     | Some url => [url] | None => [] end).
  rewrite Nat.mod_1_r. cbn [lookup list_lookup]. rewrite for_each_cons.
  match goal with
  | |- context [handle_result ?s ?m ?acc A] =>
      destruct (handle_result_raises s m A r elapsed a e0 Hget H200 Ha Hn acc)
        as [e ->]
  end.
  by exists e.
Qed.

(** The anchors of a fetched page whose links are plain: the loop
    returns, and what it adds is plain and one link further. *)
Lemma collect_links_plain start_url url max_pages st r elapsed d l :
  session_get url = GetReturned r elapsed -> r_status_code r = 200 ->
  Py.all_chars plain url = true -> reach start_url d url ->
  incl l (links (extract_onpage url (r_text r))) ->
  (forall a h, In a l -> href a = Some h -> Py.all_chars plain h = true) ->
  forall nr,
    Forall (fun u => Py.all_chars plain u = true /\ reach start_url (S d) u) nr ->
    exists nr',
      for_each (collect_link start_url url max_pages st) l nr = Ok nr'
      /\ Forall (fun u => Py.all_chars plain u = true
                           /\ reach start_url (S d) u) nr'.
Proof.
  intros Hget H200 Hurl Hreach. induction l as [|a l IH];
    intros Hincl Hl nr Hnr; [by exists nr|].
  rewrite for_each_cons.
  destruct (norm_url_plain url (href a) Hurl) as (x & Hx & Hu).
  { intros h Hh. apply (Hl a h); [by left|done]. }
  assert (exists nr1,
             collect_link start_url url max_pages st nr a = Ok nr1
             /\ Forall (fun u => Py.all_chars plain u = true
                                  /\ reach start_url (S d) u) nr1)
    as (nr1 & -> & Hnr1).
  { unfold collect_link. rewrite Hx. cbn [mbind result_bind].
    destruct x as [n|]; [|by exists nr].
    destruct (negb (Py.truthy n)); [by exists nr|].
    destruct (is_same_domain start_url n) eqn:Ed; [|by exists nr].
    destruct (_ && _); [|by exists nr].
    eexists; split; [reflexivity|]. apply Forall_app. split; [done|].
    constructor; [|constructor]. split; [by apply Hu|].
    right. exists url. split; [done|]. exists r, elapsed, a.
    split_and!; try done. apply Hincl. by left. }
  cbn [mbind result_bind]. apply IH; [| |done].
  - intros a' Ha'. apply Hincl. by right.
  - intros a' h Ha'. apply Hl. by right.
Qed.

Lemma handle_results_plain start_url max_pages D d l :
  (d <= D)%nat ->
  (forall url r elapsed a h,
      reach start_url D url ->
      session_get url = GetReturned r elapsed -> r_status_code r = 200 ->
      In a (links (extract_onpage url (r_text r))) -> href a = Some h ->
      Py.all_chars plain h = true) ->
  Forall (fun u => Py.all_chars plain u = true /\ reach start_url d u) l ->
  forall acc,
    Forall (fun u => Py.all_chars plain u = true /\ reach start_url (S d) u)
           (snd acc) ->
    exists acc',
      for_each (handle_result start_url max_pages) l acc = Ok acc'
      /\ Forall (fun u => Py.all_chars plain u = true
                           /\ reach start_url (S d) u) (snd acc').
Proof.
  intros Hd Hsite. induction 1 as [|url l [Hurl Hreach] Hl IH];
    intros [st nr] Hnr; [by exists (st, nr)|].
  rewrite for_each_cons.
  assert (exists acc1,
             handle_result start_url max_pages (st, nr) url = Ok acc1
             /\ Forall (fun u => Py.all_chars plain u = true
                                  /\ reach start_url (S d) u) (snd acc1))
    as (acc1 & -> & Hacc1).
  { unfold handle_result, fetch.
    destruct (session_get url) as [err|r el] eqn:Hget.
    - destruct (Py.truthy err); by eexists.
    - destruct (Z.eqb_spec (r_status_code r) 200) as [E|E]; cbn [negb];
        [|by eexists].
      match goal with
      | |- context [for_each (collect_link ?s ?u ?m ?st0) ?ls nr] =>
          destruct (collect_links_plain s u m st0 r el d ls Hget E Hurl Hreach
                      (incl_refl _)) with (nr := nr) as (nr' & -> & Hnr')
      end; [|done|by eexists].
      intros a h Ha Hh.
      apply (Hsite url r el a h); try done. by apply (reach_mono _ d). }
  cbn [mbind result_bind]. by apply IH.
Qed.

Lemma crawl_rounds_plain D n : forall d start_url max_pages workers to_visit st,
  0 < workers ->
  (d + n <= S D)%nat ->
  (forall url r elapsed a h,
      reach start_url D url ->
      session_get url = GetReturned r elapsed -> r_status_code r = 200 ->
      In a (links (extract_onpage url (r_text r))) -> href a = Some h ->
      Py.all_chars plain h = true) ->
  Forall (fun u => Py.all_chars plain u = true /\ reach start_url d u) to_visit ->
  exists st', crawl_rounds n d start_url max_pages workers to_visit st = Ok st'.
Proof.
  induction n as [|n IH]; intros d start_url max_pages workers to_visit st
                                 Hw Hd Hsite Htv; cbn [crawl_rounds]; [eauto|].
  destruct (max_pages <=? pages_crawled st); [eauto|].
  destruct (Z.leb_spec workers 0); [lia|].
  destruct (dispatch max_pages to_visit st []) as [st1 futures] eqn:Hdisp.
  destruct (dispatch_from _ _ _ _ _ _ Hdisp) as [_ Hf].
  destruct (handle_results_plain start_url max_pages D d (as_completed d futures))
    with (acc := (st1, @nil string)) as ([st2 nr] & -> & Hnr); try done.
  - lia.
  - apply Forall_forall. intros u Hu%list_elem_of_In%as_completed_In.
    destruct (Hf u Hu) as [[]|Hin]. rewrite Forall_forall in Htv.
    by apply Htv, list_elem_of_In.
  - cbn [mbind result_bind]. apply IH; try done. lia.
Qed.


End CrawlTotality.

Section TotalityOnSite.
Local Existing Instance Site.checks.

Lemma crawl_aborts_on_raising_link_witness :
  exists e, @crawl Site.checks BadSite.world "http://a.com/" 1 10 8 = Raise e.
Proof.
  apply (@crawl_aborts_on_raising_link Site.checks BadSite.world
           "http://a.com/" 1 10 8
           (mkResponse 200 "page" "http://a.com" []) 10
           (mkLink (Some "http://[") "bad")
           (ValueError "Invalid IPv6 URL"));
    [lia|lia|lia|reflexivity|reflexivity|vm_compute; tauto
    |vm_compute; reflexivity].
Defined.


End TotalityOnSite.

(** ** The crawl under an ample budget *)

Section AmpleBudget.
Context `{UrlChecks} `{Web}.

(** A next round: distinct addresses, none of them visited. *)
Lemma collect_link_all start_url url max_pages st nr a nr' :
  collect_link start_url url max_pages st nr a = Ok nr' ->
  NoDup nr -> (forall x, In x nr -> x ∉ visited st) ->
  NoDup nr' /\ (forall x, In x nr' -> x ∉ visited st)
  /\ incl nr nr' /\ (length nr <= length nr')%nat
  /\ forall u, norm_url url (href a) = Ok (Some u) ->
               is_same_domain start_url u = true ->
               u ∈ visited st \/ In u nr'
               \/ max_pages <= Z.of_nat (length nr') + pages_crawled st.
Proof.
  intros Hstep Hnd Hnv. unfold collect_link in Hstep.
  inv_bind Hstep as r Hn.
  match goal with
  | |- ?G =>
      assert (nr' = nr ->
              (forall u, r = Some u -> is_same_domain start_url u = true ->
                         u ∈ visited st \/ In u nr
                         \/ max_pages <= Z.of_nat (length nr) + pages_crawled st) ->
              G) as Hsame
  end.
  { intros -> Hf. split_and!; [done|done|apply incl_refl|lia|].
    intros u Hu. rewrite Hn in Hu. injection Hu as Hu. by apply Hf. }
  destruct r as [n|]; [|apply Hsame; [by injection Hstep|done]].
  pose proof (norm_url_truthy _ _ _ Hn) as Ht. rewrite Ht in Hstep.
  cbn [negb] in Hstep.
  destruct (is_same_domain start_url n) eqn:Ed;
    [|apply Hsame; [by injection Hstep|]; intros u [= <-]; congruence].
  destruct (bool_decide_reflect (n ∈ visited st)) as [Hv|Hv];
    cbn [negb andb] in Hstep.
  { apply Hsame; [by injection Hstep|]. intros u [= <-] _. by left. }
  destruct (Py.in_list n nr) eqn:Ein; cbn [negb andb] in Hstep.
  { apply Hsame; [by injection Hstep|]. intros u [= <-] _.
    right; left. by apply in_list_In. }
  destruct (Z.ltb_spec (Z.of_nat (length nr) + pages_crawled st) max_pages)
    as [Hroom|Hfull].
  - injection Hstep as <-. split_and!.
    + apply NoDup_app. split_and!; [done| |apply NoDup_singleton].
      intros x Hx ->%list_elem_of_singleton.
      apply list_elem_of_In, in_list_In in Hx. congruence.
    + intros x [?|[<-|[]]]%in_app_iff; [by apply Hnv|done].
    + intros x Hx. apply in_app_iff. by left.
    + rewrite length_app. simpl. lia.
    + intros u Hu _. rewrite Hn in Hu. injection Hu as <-.
      right; left. apply in_app_iff. right. by left.
  - apply Hsame; [by injection Hstep|]. intros u [= <-] _. right; right. lia.
Qed.

Lemma collect_links_all start_url url max_pages st l : forall nr nr',
  for_each (collect_link start_url url max_pages st) l nr = Ok nr' ->
  NoDup nr -> (forall x, In x nr -> x ∉ visited st) ->
  NoDup nr' /\ (forall x, In x nr' -> x ∉ visited st)
  /\ incl nr nr' /\ (length nr <= length nr')%nat
  /\ forall a u, In a l -> norm_url url (href a) = Ok (Some u) ->
                 is_same_domain start_url u = true ->
                 u ∈ visited st \/ In u nr'
                 \/ max_pages <= Z.of_nat (length nr') + pages_crawled st.
Proof.
  induction l as [|a0 l IH]; intros nr nr' Hrun Hnd Hnv.
  - injection Hrun as <-. split_and!; [done|done|apply incl_refl|lia|].
    by intros ? ? [].
  - rewrite for_each_cons in Hrun. inv_bind Hrun as nr1 Hstep.
    destruct (collect_link_all _ _ _ _ _ _ _ Hstep Hnd Hnv)
      as (Hnd1 & Hnv1 & Hincl1 & Hlen1 & Hfound1).
    destruct (IH _ _ Hrun Hnd1 Hnv1) as (Hnd' & Hnv' & Hincl' & Hlen' & Hfound').
    split_and!; [done|done| |lia|].
    + intros x Hx. by apply Hincl', Hincl1.
    + intros a u [<-|Ha] Hn Hd; [|by eapply Hfound'].
      destruct (Hfound1 u Hn Hd) as [?|[?|?]]; [by left| |].
      * right; left. by apply Hincl'.
      * right; right. lia.
Qed.

Lemma handle_result_all start_url max_pages st nr v st' nr' :
  handle_result start_url max_pages (st, nr) v = Ok (st', nr') ->
  NoDup nr -> (forall x, In x nr -> x ∉ visited st) ->
  NoDup nr' /\ (forall x, In x nr' -> x ∉ visited st)
  /\ incl nr nr' /\ (length nr <= length nr')%nat
  /\ visited st' = visited st /\ pages_crawled st' = pages_crawled st
  /\ forall u, links_to start_url v u ->
               u ∈ visited st \/ In u nr'
               \/ max_pages <= Z.of_nat (length nr') + pages_crawled st.
Proof.
  intros Hh Hnd Hnv.
  destruct (handle_result_frame _ _ _ _ _ _ _ Hh) as (Hv & Hpc & _ & _).
  unfold handle_result, fetch in Hh.
  destruct (session_get v) as [err|r el] eqn:Hget.
  - assert (nr' = nr) as ->
        by (destruct (Py.truthy err); by injection Hh as _ <-).
    split_and!; [done|done|apply incl_refl|lia|done|done|].
    intros u (r & el & a & Hg & _). congruence.
  - destruct (Z.eqb_spec (r_status_code r) 200) as [E|E]; cbn [negb] in Hh.
    + inv_bind Hh as nr1 Hl. injection Hh as _ <-.
      destruct (collect_links_all _ _ _ _ _ _ _ Hl Hnd Hnv)
        as (Hnd' & Hnv' & Hincl & Hlen & Hfound).
      split_and!; try done.
      intros u (r' & el' & a & Hg & _ & Ha & Hn & Hd).
      rewrite Hget in Hg. injection Hg as <- <-. by apply (Hfound a u).
    + assert (nr' = nr) as -> by (by injection Hh as _ <-).
      split_and!; [done|done|apply incl_refl|lia|done|done|].
      intros u (r' & el' & a & Hg & H200 & _).
      rewrite Hget in Hg. injection Hg as <- <-. congruence.
Qed.

Lemma handle_results_all start_url max_pages l : forall st nr st' nr',
  for_each (handle_result start_url max_pages) l (st, nr) = Ok (st', nr') ->
  NoDup nr -> (forall x, In x nr -> x ∉ visited st) ->
  NoDup nr' /\ (forall x, In x nr' -> x ∉ visited st)
  /\ incl nr nr' /\ (length nr <= length nr')%nat
  /\ visited st' = visited st /\ pages_crawled st' = pages_crawled st
  /\ forall v u, In v l -> links_to start_url v u ->
                 u ∈ visited st \/ In u nr'
                 \/ max_pages <= Z.of_nat (length nr') + pages_crawled st.
Proof.
  induction l as [|v0 l IH]; intros st nr st' nr' Hrun Hnd Hnv.
  - injection Hrun as <- <-.
    split_and!; [done|done|apply incl_refl|lia|done|done|]. by intros ? ? [].
  - rewrite for_each_cons in Hrun. inv_bind Hrun as [st1 nr1] Hstep.
    destruct (handle_result_all _ _ _ _ _ _ _ Hstep Hnd Hnv)
      as (Hnd1 & Hnv1 & Hincl1 & Hlen1 & Hv1 & Hpc1 & Hfound1).
    destruct (IH _ _ _ _ Hrun Hnd1)
      as (Hnd' & Hnv' & Hincl' & Hlen' & Hv' & Hpc' & Hfound').
    { by rewrite Hv1. }
    rewrite Hv1 in Hnv', Hv', Hfound'. rewrite Hpc1 in Hpc', Hfound'.
    split_and!; [done|done| |lia|done|done|].
    + intros x Hx. by apply Hincl', Hincl1.
    + intros v u [<-|Hv] Hlink; [|by eapply Hfound'].
      destruct (Hfound1 u Hlink) as [?|[?|?]]; [by left| |].
      * right; left. by apply Hincl'.
      * right; right. lia.
Qed.

(** When the budget is not reached, the loop that submits the fetches
    visits every address of the round. *)
Lemma dispatch_all max_pages to_visit : forall st futures st' futures',
  dispatch max_pages to_visit st futures = (st', futures') ->
  pages_crawled st' < max_pages ->
  pages_crawled st <= pages_crawled st'
  /\ (forall u, In u to_visit -> u ∈ visited st')
  /\ (forall u, u ∈ visited st -> u ∈ visited st')
  /\ (forall u, u ∈ visited st' -> u ∈ visited st \/ In u futures')
  /\ (forall u, In u futures -> In u futures')
  /\ (NoDup to_visit -> (forall u, In u to_visit -> u ∉ visited st) ->
      pages_crawled st' = pages_crawled st + Z.of_nat (length to_visit)).
Proof.
  induction to_visit as [|url rest IH]; intros st futures st' futures' Hd Hroom;
    simpl in Hd.
  { injection Hd as <- <-.
    split_and!; [lia|by intros ? []|done|by left|done|intros; simpl; lia]. }
  destruct (Z.leb_spec max_pages (pages_crawled st)) as [Hfull|_].
  { injection Hd as <- <-. lia. }
  destruct (bool_decide_reflect (url ∈ visited st)) as [Hv|Hv].
  - destruct (IH _ _ _ _ Hd Hroom) as (Hpc & Hall & Hmono & Hnew & Hfut & Hcount).
    split_and!; try done.
    + intros u [<-|Hu]; [by apply Hmono|by apply Hall].
    + intros Hnd Hnv. exfalso. apply (Hnv url); [by left|done].
  - destruct (IH _ _ _ _ Hd Hroom) as (Hpc & Hall & Hmono & Hnew & Hfut & Hcount).
    simpl in *. split_and!.
    + lia.
    + intros u [<-|Hu]; [|by apply Hall].
      apply Hmono, elem_of_union. left. by apply elem_of_singleton.
    + intros u Hu. apply Hmono, elem_of_union. by right.
    + intros u [[->%elem_of_singleton|?]%elem_of_union|?]%Hnew; auto.
      right. apply Hfut. apply in_app_iff. right. by left.
    + intros u Hu. apply Hfut. apply in_app_iff. by left.
    + intros [Hurl Hnd]%NoDup_cons Hnv. rewrite Hcount; [lia|done|].
      intros u Hu [->%elem_of_singleton|?]%elem_of_union.
      * by apply Hurl, list_elem_of_In.
      * apply (Hnv u); [by right|done].
Qed.

Lemma dispatch_pages_mono max_pages to_visit : forall st futures st' futures',
  dispatch max_pages to_visit st futures = (st', futures') ->
  pages_crawled st <= pages_crawled st'.
Proof.
  induction to_visit as [|url rest IH]; intros st futures st' futures' Hd;
    simpl in Hd.
  { injection Hd as <- <-. lia. }
  destruct (max_pages <=? pages_crawled st); [injection Hd as <- <-; lia|].
  destruct (bool_decide _); [eauto|]. apply IH in Hd. simpl in Hd. lia.
Qed.

Lemma handle_results_pages start_url max_pages l : forall acc acc',
  for_each (handle_result start_url max_pages) l acc = Ok acc' ->
  pages_crawled (fst acc') = pages_crawled (fst acc).
Proof.
  induction l as [|x l IH]; intros acc acc' Hrun.
  - by injection Hrun as <-.
  - rewrite for_each_cons in Hrun. inv_bind Hrun as [s1 n1] Hstep.
    rewrite (IH _ _ Hrun). destruct acc as [s0 n0]. simpl.
    by apply handle_result_frame in Hstep as (_ & -> & _).
Qed.

Lemma crawl_rounds_pages_mono n : forall d start_url max_pages workers to_visit st st',
  crawl_rounds n d start_url max_pages workers to_visit st = Ok st' ->
  pages_crawled st <= pages_crawled st'.
Proof.
  induction n as [|n IH]; intros d start_url max_pages workers to_visit st st' Hrun.
  { injection Hrun as <-. lia. }
  destruct (Z.leb_spec max_pages (pages_crawled st)) as [Hfull|Hroom].
  { simpl in Hrun. apply Z.leb_le in Hfull. rewrite Hfull in Hrun.
    injection Hrun as <-. lia. }
  apply crawl_rounds_step in Hrun
      as (_ & st1 & futures & st2 & nr & Hd & Hround & Hrest); [|done].
  apply dispatch_pages_mono in Hd. apply handle_results_pages in Hround.
  apply IH in Hrest. simpl in Hround. lia.
Qed.

(** With the budget never reached, the rounds [d], ..., [d+n] visit
    every address within [d+n] links of the start address. *)
Lemma crawl_rounds_ample n : forall d start_url max_pages workers to_visit st st',
  crawl_rounds (S n) d start_url max_pages workers to_visit st = Ok st' ->
  pages_crawled st' < max_pages ->
  NoDup to_visit -> (forall x, In x to_visit -> x ∉ visited st) ->
  (forall u, reach start_url d u -> u ∈ visited st \/ In u to_visit) ->
  (forall v u, v ∈ visited st -> links_to start_url v u ->
               u ∈ visited st \/ In u to_visit) ->
  forall u, reach start_url (d + n) u -> u ∈ visited st'.
Proof.
  induction n as [|n IH]; intros d start_url max_pages workers to_visit st st'
                                 Hrun Hroom Hnd Hnv Ha Hb u Hu.
  - pose proof (crawl_rounds_pages_mono _ _ _ _ _ _ _ _ Hrun) as Hmono.
    apply crawl_rounds_step in Hrun
        as (_ & st1 & futures & st2 & nr & Hd & Hround & Hrest); [|lia].
    injection Hrest as <-.
    pose proof (handle_results_pages _ _ _ _ _ Hround) as Hpc2. simpl in Hpc2.
    destruct (dispatch_all _ _ _ _ _ _ Hd) as (_ & Hall & Hvmono & _);
      [lia|].
    destruct (handle_results_all _ _ _ _ _ _ _ Hround (NoDup_nil_2))
      as (_ & _ & _ & _ & Hv2 & _); [by intros ? []|].
    rewrite Hv2. rewrite Nat.add_0_r in Hu.
    destruct (Ha u Hu); [by apply Hvmono|by apply Hall].
  - pose proof (crawl_rounds_pages_mono _ _ _ _ _ _ _ _ Hrun) as Hmono.
    apply crawl_rounds_step in Hrun
        as (_ & st1 & futures & st2 & nr & Hd & Hround & Hrest); [|lia].
    pose proof (crawl_rounds_pages_mono _ _ _ _ _ _ _ _ Hrest) as Hmono2.
    pose proof (handle_results_pages _ _ _ _ _ Hround) as Hpc2. simpl in Hpc2.
    destruct (dispatch_all _ _ _ _ _ _ Hd) as (_ & Hall & Hvmono & Hnew & _);
      [lia|].
    destruct (handle_results_all _ _ _ _ _ _ _ Hround (NoDup_nil_2))
      as (Hnd2 & Hnv2 & _ & _ & Hv2 & _ & Hfound); [by intros ? []|].
    assert (Z.of_nat (length nr) + pages_crawled st1 < max_pages) as Hnotfull.
    { pose proof Hrest as Hnext.
      apply crawl_rounds_step in Hnext
          as (_ & st3 & futures3 & st4 & nr4 & Hd3 & Hround3 & Hrest3); [|lia].
      pose proof (crawl_rounds_pages_mono _ _ _ _ _ _ _ _ Hrest3) as Hmono4.
      pose proof (handle_results_pages _ _ _ _ _ Hround3) as Hpc4. simpl in Hpc4.
      destruct (dispatch_all _ _ _ _ _ _ Hd3) as (_ & _ & _ & _ & _ & Hcount);
        [lia|].
      rewrite Hcount in Hpc4; [lia|done|]. intros x Hx. rewrite Hv2. by apply Hnv2. }
    replace (d + S n)%nat with (S d + n)%nat in Hu by lia.
    assert (forall v u, v ∈ visited st2 -> links_to start_url v u ->
                        u ∈ visited st2 \/ In u nr) as Hb2.
    { intros v x Hv Hlink. rewrite Hv2 in Hv |- *.
      destruct (Hnew v Hv) as [Hold|Hfut].
      - left. destruct (Hb v x Hold Hlink); [by apply Hvmono|by apply Hall].
      - destruct (Hfound v x) as [?|[?|?]]; [by apply as_completed_In|done|by left|by right|lia]. }
    eapply (IH (S d) start_url max_pages workers nr st2 st' Hrest Hroom Hnd2);
      [| |exact Hb2|exact Hu].
    + intros x Hx. rewrite Hv2. by apply Hnv2.
    + intros x [Hx|(v & Hv & Hlink)].
      * left. rewrite Hv2. destruct (Ha x Hx); [by apply Hvmono|by apply Hall].
      * apply (Hb2 v x); [|done]. rewrite Hv2.
        destruct (Ha v Hv); [by apply Hvmono|by apply Hall].
Qed.

(** The keys of the mapping when [crawl] returns. *)
Lemma crawl_run_keys start_url depth max_pages workers st :
  crawl_run start_url depth max_pages workers = Ok st ->
  (forall u, In u (Dict.keys (results st)) <-> u ∈ visited st)
  /\ Z.of_nat (length (results st)) = pages_crawled st.
Proof.
  intros Hrun. unfold crawl_run in Hrun.
  apply (crawl_rounds_complete _ _ _ _ _ _ _ _ _ (crawl_inv_init _)) in Hrun
      as (fs & [Hev Hnd Hvis Hpages _ Hknd Hk] & Hall); [|by intros ? []].
  split.
  - intros u; rewrite Hvis; split; auto.
  - rewrite Hpages. f_equal. rewrite <- (length_map fst). apply Permutation_length.
    apply NoDup_Permutation; [done..|].
    intros u. rewrite !list_elem_of_In. split; auto.
Qed.

(** X26: when [crawl] returns fewer entries than [max_pages], the keys
    of the mapping are exactly the addresses within [depth] links of
    the start address: the start address without its trailing slashes,
    and every address that a page fetched with status 200 links to on
    the site of the start address, up to [depth] links away. *)
Theorem crawl_exact_within_budget start_url depth max_pages workers mapping u :
  0 <= depth ->
  crawl start_url depth max_pages workers = Ok mapping ->
  Z.of_nat (length mapping) < max_pages ->
  In u (Dict.keys mapping)
  <-> reach (Py.rstrip (Ascii.eqb "/") start_url) (Z.to_nat depth) u.
Proof.
  intros Hdepth Hc Hlen. unfold crawl in Hc. inv_bind Hc as st Hrun.
  injection Hc as <-.
  destruct (crawl_run_keys _ _ _ _ _ Hrun) as [Hkeys Hpc].
  rewrite Hkeys. unfold crawl_run in Hrun.
  set (A := Py.rstrip (Ascii.eqb "/") start_url) in *.
  replace (Z.to_nat (depth + 1)) with (S (Z.to_nat depth)) in Hrun by lia.
  split.
  - intros Hv.
    apply (crawl_rounds_reach _ _ _ _ _ _ _ _ Hrun) in Hv; [done| |].
    + intros x Hx. set_solver.
    + by intros x [<-|[]].
  - apply (crawl_rounds_ample _ _ _ _ _ _ _ _ Hrun); simpl.
    + lia.
    + apply NoDup_singleton.
    + intros x _. set_solver.
    + intros x ->. right. by left.
    + intros v x Hv. set_solver.
Qed.

End AmpleBudget.

Section AmpleOnSite.
Local Existing Instance Site.checks.
Local Existing Instance Site.web.

(** With depth 5 and a budget of 10 pages the crawl of the site returns
    four entries; [/d] is two links away from the start address. *)
Lemma crawl_exact_within_budget_witness :
  0 <= 5 /\ crawl "http://a.com/" 5 10 8 = Ok Site.mapping
  /\ Z.of_nat (length Site.mapping) < 10
  /\ (In "http://a.com/d" (Dict.keys Site.mapping)
      <-> reach "http://a.com" 5 "http://a.com/d").
Proof.
  assert (crawl "http://a.com/" 5 10 8 = Ok Site.mapping) as Hc
      by (vm_compute; reflexivity).
  assert (Z.of_nat (length Site.mapping) < 10) as Hlen
      by (vm_compute; reflexivity).
  split; [lia|]. split; [exact Hc|]. split; [exact Hlen|].
  apply (crawl_exact_within_budget "http://a.com/" 5 10 8 Site.mapping
           "http://a.com/d"); [lia|exact Hc|exact Hlen].
Defined.

End AmpleOnSite.

(** ** Open Graph and Twitter fields *)

Section SocialFields.
Context `{Web}.

Lemma dict_get_set {V} k k' (v : V) d :
  Dict.get k (Dict.set k' v d)
  = if String.eqb k' k then Some v else Dict.get k d.
Proof.
  destruct (String.eqb_spec k' k) as [->|Hne].
  - apply dict_get_set_eq.
  - by apply dict_get_set_ne.
Qed.

Lemma meta_loop_social tags st k :
  Dict.get k (m_og (fold_left meta_step tags st))
  = match last_assigned "property" "og:" k tags with
    | Some v => Some v
    | None => Dict.get k (m_og st)
    end
  /\ Dict.get k (m_twitter (fold_left meta_step tags st))
     = match last_assigned "name" "twitter:" k tags with
       | Some v => Some v
       | None => Dict.get k (m_twitter st)
       end.
Proof.
  unfold last_assigned.
  induction tags as [|t tags IH] using rev_ind; [done|].
  rewrite meta_loop_snoc, !List.filter_app. destruct IH as [IHo IHt].
  set (st' := fold_left meta_step tags st) in *.
  unfold meta_step; cbn [m_og m_twitter List.filter]. unfold assigns_key at 2 4.
  split.
  - destruct (Py.startswith _ "og:"); cbn [andb].
    + rewrite dict_get_set.
      destruct (String.eqb _ k); [by rewrite last_snoc|by rewrite app_nil_r].
    + by rewrite app_nil_r.
  - destruct (Py.startswith _ "twitter:"); cbn [andb].
    + rewrite dict_get_set.
      destruct (String.eqb _ k); [by rewrite last_snoc|by rewrite app_nil_r].
    + by rewrite app_nil_r.
Qed.

(** X27: the [og] record that [extract_onpage] returns maps a key to
    the [content] (the empty text when there is none) of the last meta
    tag whose [property] is the key as written and starts with [og:]
    when put in lower case, and has no other key; the [twitter] record
    does the same with the attribute [name] and the prefix
    [twitter:]. *)
Theorem extract_social_last_wins url html k :
  Dict.get k (og (extract_onpage url html))
  = last_assigned "property" "og:" k (soup_meta (BeautifulSoup html))
  /\ Dict.get k (twitter (extract_onpage url html))
     = last_assigned "name" "twitter:" k (soup_meta (BeautifulSoup html)).
Proof.
  unfold extract_onpage, meta_loop. cbn [og twitter].
  destruct (meta_loop_social (soup_meta (BeautifulSoup html))
              (mkMeta "" "" [] []) k) as [-> ->].
  split; by destruct (last_assigned _ _ _ _).
Qed.

End SocialFields.

(** ** Depth ordering *)

Section DepthOrdering.
Context `{UrlChecks} `{Web}.

Lemma add_target_length A nr a : (length nr <= length (add_target A nr a))%nat.
Proof.
  unfold add_target. destruct (norm_url A (href a)) as [[u|]|]; try done.
  destruct (_ && _); [|done]. rewrite length_app. simpl. lia.
Qed.

Lemma add_targets_length A l : forall nr,
  (length nr <= length (fold_left (add_target A) l nr))%nat.
Proof.
  induction l as [|a l IH]; intros nr; simpl; [done|].
  etrans; [apply (add_target_length A nr a)|apply IH].
Qed.

Lemma add_target_from A nr a u :
  In u (add_target A nr a) -> In u nr \/ norm_url A (href a) = Ok (Some u).
Proof.
  unfold add_target. destruct (norm_url A (href a)) as [[n|]|]; try by left.
  destruct (_ && _); [|by left].
  intros [?|[<-|[]]]%in_app_iff; [by left|by right].
Qed.

(** An anchor to [B], an address of the site other than the start
    address, leaves [B] in the round, behind no more than what the
    round held. *)
Lemma add_target_adds A nr a B :
  norm_url A (href a) = Ok (Some B) -> is_same_domain A B = true -> B <> A ->
  exists p s, add_target A nr a = p ++ B :: s /\ (length p <= length nr)%nat.
Proof.
  intros Hn Hd HB%String.eqb_neq. unfold add_target. rewrite Hn, Hd, HB.
  cbn [negb andb]. destruct (Py.in_list B nr) eqn:Ein; cbn [negb].
  - apply in_list_In, in_split in Ein as (p & s & ->). exists p, s.
    split; [done|]. rewrite length_app. lia.
  - by exists nr, [].
Qed.

(** One anchor of the start page, when nothing but the start address
    is visited: the budget test decides whether its target is added. *)
Lemma collect_link_start A max_pages st nr a nr' :
  (forall u, u ∈ visited st <-> u = A) ->
  collect_link A A max_pages st nr a = Ok nr' ->
  nr' = if Z.of_nat (length nr) + pages_crawled st <? max_pages
        then add_target A nr a else nr.
Proof.
  intros Hvis Hstep. unfold collect_link in Hstep. unfold add_target.
  inv_bind Hstep as x Hn. rewrite Hn.
  destruct x as [n|]; [|injection Hstep as <-; by destruct (_ <? _)].
  rewrite (norm_url_truthy _ _ _ Hn) in Hstep. cbn [negb] in Hstep.
  destruct (is_same_domain A n);
    [|injection Hstep as <-; by destruct (_ <? _)].
  cbn [andb].
  assert (bool_decide (n ∈ visited st) = String.eqb n A) as Hdec.
  { destruct (String.eqb_spec n A) as [->|Hne].
    - apply bool_decide_eq_true_2. by apply Hvis.
    - apply bool_decide_eq_false_2. by rewrite Hvis. }
  rewrite Hdec in Hstep.
  destruct (negb (String.eqb n A) && negb (Py.in_list n nr));
    cbn [andb] in Hstep.
  - by destruct (_ <? _); injection Hstep as <-.
  - injection Hstep as <-. by destruct (_ <? _).
Qed.

(** With room for all the new addresses of the anchors, the loop over
    the anchors of the start page adds them all. *)
Lemma collect_links_ample A max_pages st l : forall nr nr',
  (forall u, u ∈ visited st <-> u = A) ->
  for_each (collect_link A A max_pages st) l nr = Ok nr' ->
  Z.of_nat (length (fold_left (add_target A) l nr)) + pages_crawled st
  < max_pages ->
  nr' = fold_left (add_target A) l nr.
Proof.
  induction l as [|a l IH]; intros nr nr' Hvis Hrun Hroom.
  - by injection Hrun as <-.
  - rewrite for_each_cons in Hrun. inv_bind Hrun as nr1 Hstep.
    apply collect_link_start in Hstep; [|done]. simpl in Hroom |- *.
    pose proof (add_targets_length A l (add_target A nr a)) as Hlen.
    pose proof (add_target_length A nr a) as Hlen1.
    destruct (Z.ltb_spec (Z.of_nat (length nr) + pages_crawled st) max_pages);
      [|lia].
    subst nr1. by apply IH.
Qed.

(** When the loop ends with room in the budget, it has added all the
    new addresses of the anchors. *)
Lemma collect_links_room A max_pages st l : forall nr nr',
  (forall u, u ∈ visited st <-> u = A) ->
  for_each (collect_link A A max_pages st) l nr = Ok nr' ->
  Z.of_nat (length nr') + pages_crawled st < max_pages ->
  nr' = fold_left (add_target A) l nr.
Proof.
  induction l as [|a l IH]; intros nr nr' Hvis Hrun Hroom.
  - by injection Hrun as <-.
  - rewrite for_each_cons in Hrun. inv_bind Hrun as nr1 Hstep.
    pose proof Hstep as Hstep1. apply collect_link_start in Hstep1; [|done].
    pose proof (collect_links_grow _ _ _ _ _ _ _ Hrun) as (extra & Hnr' & _).
    assert (length nr <= length nr1)%nat as Hlen1.
    { subst nr1. destruct (_ <? _); [apply add_target_length|done]. }
    assert (length nr1 <= length nr')%nat as Hlen2.
    { subst nr'. rewrite length_app. lia. }
    destruct (Z.ltb_spec (Z.of_nat (length nr) + pages_crawled st) max_pages);
      [|lia].
    subst nr1. simpl. by apply IH.
Qed.

(** Once the budget is reached, the loop adds nothing. *)
Lemma collect_links_full A max_pages st l : forall nr nr',
  (forall u, u ∈ visited st <-> u = A) ->
  for_each (collect_link A A max_pages st) l nr = Ok nr' ->
  max_pages <= Z.of_nat (length nr) + pages_crawled st ->
  nr' = nr.
Proof.
  induction l as [|a l IH]; intros nr nr' Hvis Hrun Hfull.
  - by injection Hrun as <-.
  - rewrite for_each_cons in Hrun. inv_bind Hrun as nr1 Hstep.
    apply collect_link_start in Hstep; [|done].
    destruct (Z.ltb_spec (Z.of_nat (length nr) + pages_crawled st) max_pages);
      [lia|].
    subst nr1. by apply IH.
Qed.

(** What the loop adds comes from one of the anchors. *)
Lemma collect_links_from A max_pages st l : forall nr nr' u,
  (forall u, u ∈ visited st <-> u = A) ->
  for_each (collect_link A A max_pages st) l nr = Ok nr' ->
  In u nr' ->
  In u nr \/ exists a, In a l /\ norm_url A (href a) = Ok (Some u).
Proof.
  induction l as [|a l IH]; intros nr nr' u Hvis Hrun Hu.
  - injection Hrun as <-. by left.
  - rewrite for_each_cons in Hrun. inv_bind Hrun as nr1 Hstep.
    apply collect_link_start in Hstep; [|done].
    destruct (IH _ _ _ Hvis Hrun Hu) as [Hu1|(a' & Ha' & Hn')].
    2:{ right. exists a'. split; [by right|done]. }
    subst nr1. destruct (_ <? _); [|by left].
    apply add_target_from in Hu1 as [?|?]; [by left|].
    right. exists a. split; [by left|done].
Qed.

(** What a round puts into the next one is linked from a page of the
    round. *)
Lemma handle_results_linked start_url max_pages l : forall acc acc',
  for_each (handle_result start_url max_pages) l acc = Ok acc' ->
  visited (fst acc') = visited (fst acc)
  /\ forall u, In u (snd acc') ->
               In u (snd acc) \/ exists v, In v l /\ links_to start_url v u.
Proof.
  induction l as [|v0 l IH]; intros [st nr] [st' nr'] Hrun.
  - injection Hrun as <- <-. split; [done|]. by left.
  - rewrite for_each_cons in Hrun. inv_bind Hrun as [st1 nr1] Hstep.
    destruct (IH _ _ Hrun) as [Hv Hlinked]. simpl in *.
    pose proof (handle_result_frame _ _ _ _ _ _ _ Hstep) as (Hv1 & _).
    split; [by rewrite Hv|].
    intros u [Hu|(v & Hv' & Hlink)]%Hlinked.
    + apply (handle_result_next _ _ _ _ _ _ _ Hstep) in Hu as [?|?];
        [by left|]. right. exists v0. split; [by left|done].
    + right. exists v. split; [by right|done].
Qed.

(** The fetches that a round submits are of addresses that were not
    visited before. *)
Lemma dispatch_fresh max_pages to_visit : forall st futures st' futures',
  dispatch max_pages to_visit st futures = (st', futures') ->
  forall u, In u futures' ->
            In u futures \/ (In u to_visit /\ u ∉ visited st).
Proof.
  induction to_visit as [|url rest IH]; intros st futures st' futures' Hd u Hu;
    simpl in Hd.
  { injection Hd as <- <-. by left. }
  destruct (max_pages <=? pages_crawled st); [injection Hd as <- <-; by left|].
  destruct (bool_decide_reflect (url ∈ visited st)) as [Hv|Hv].
  - destruct (IH _ _ _ _ Hd u Hu) as [?|[? ?]]; [by left|].
    right. split; [by right|done].
  - destruct (IH _ _ _ _ Hd u Hu) as [[?|[<-|[]]]%in_app_iff|[Hin Hnv]].
    + by left.
    + right. split; [by left|done].
    + right. split; [by right|]. simpl in Hnv.
      intros Hvis. apply Hnv, elem_of_union. by right.
Qed.

(** An address to which only the start address links, and which the
    first round has not put into the second, is never visited. *)
Lemma crawl_rounds_unlinked A B n : forall d max_pages workers to_visit st st',
  crawl_rounds n d A max_pages workers to_visit st = Ok st' ->
  (forall v, links_to A v B -> v = A) ->
  A ∈ visited st -> B ∉ visited st -> ~ In B to_visit ->
  B ∉ visited st'.
Proof.
  induction n as [|n IH]; intros d max_pages workers to_visit st st'
                                 Hrun Honly HA HB Htv.
  { by injection Hrun as <-. }
  destruct (Z.leb_spec max_pages (pages_crawled st)) as [Hfull|Hroom].
  { simpl in Hrun. apply Z.leb_le in Hfull. rewrite Hfull in Hrun.
    by injection Hrun as <-. }
  apply crawl_rounds_step in Hrun
      as (_ & st1 & futures & st2 & nr & Hd & Hround & Hrest); [|done].
  destruct (dispatch_from _ _ _ _ _ _ Hd) as [Hv1 _].
  pose proof (dispatch_fresh _ _ _ _ _ _ Hd) as Hfresh.
  destruct (handle_results_linked _ _ _ _ _ Hround) as [Hv2 Hlinked].
  simpl in Hv2, Hlinked.
  eapply IH; [exact Hrest|done| | |].
  - rewrite Hv2. by eapply dispatch_visited_mono.
  - rewrite Hv2. intros [?|?]%Hv1; done.
  - intros [[]|(v & Hv%as_completed_In & Hlink)]%Hlinked.
    apply Honly in Hlink as ->.
    destruct (Hfresh A Hv) as [[]|[_ HnA]]. done.
Qed.

(** C3, as the code has it.  Let [A] be the start address without its
    trailing slashes and [B] another address.  With a depth of 0 or
    less, [B] is not a key of the mapping.  Let [A] be fetched with
    status 200 and have an anchor that normalises to [B], on the site
    of [A].  With a depth of at least 1, [B] is a key of the mapping
    when the new addresses of the anchors before that one (the
    addresses of the site other than [A] that they normalise to, each
    counted once) are fewer than [max_pages - 1].  Conversely, when no
    anchor before that one normalises to [B] and no other page that
    answers 200 links to [B], [B] is a key of the mapping only then. *)
Theorem depth_ordering seed A B depth max_pages workers mapping :
  A = Py.rstrip (Ascii.eqb "/") seed ->
  B <> A ->
  crawl seed depth max_pages workers = Ok mapping ->
  (depth <= 0 -> Dict.get B mapping = None)
  /\ forall resp elapsed l1 a l2,
       session_get A = GetReturned resp elapsed ->
       r_status_code resp = 200 ->
       links (extract_onpage A (r_text resp)) = l1 ++ a :: l2 ->
       norm_url A (href a) = Ok (Some B) ->
       is_same_domain A B = true ->
       (1 <= depth ->
        Z.of_nat (length (new_targets A l1)) + 2 <= max_pages ->
        exists e, Dict.get B mapping = Some e)
       /\ (1 <= depth ->
           (forall a', In a' l1 -> norm_url A (href a') <> Ok (Some B)) ->
           (forall v, links_to A v B -> v = A) ->
           (exists e, Dict.get B mapping = Some e) ->
           Z.of_nat (length (new_targets A l1)) + 2 <= max_pages).
Proof.
  intros -> HB Hc.
  set (A := Py.rstrip (Ascii.eqb "/") seed) in *.
  unfold crawl in Hc. inv_bind Hc as st Hrun. injection Hc as <-.
  destruct (crawl_run_keys _ _ _ _ _ Hrun) as [Hkeys _].
  unfold crawl_run in Hrun. fold A in Hrun.
  assert (B ∉ visited st -> Dict.get B (results st) = None) as Hnone.
  { intros Hv. apply dict_get_None. by intros ?%Hkeys. }
  assert ((exists e, Dict.get B (results st) = Some e) -> B ∈ visited st)
    as Hsome.
  { intros [e He%dict_get_In]. apply Hkeys.
    change B with (fst (B, e)). by apply in_map. }
  destruct (Z.to_nat (depth + 1)) as [|n] eqn:En.
  { injection Hrun as <-. split; [done|]. intros; split; intros; lia. }
  destruct (Z.leb_spec max_pages 0) as [Hm|Hm].
  { cbn [crawl_rounds] in Hrun.
    change (pages_crawled (mkCrawl ∅ [] 0 [])) with 0 in Hrun.
    apply Z.leb_le in Hm as Hm'. rewrite Hm' in Hrun. injection Hrun as <-.
    split; [done|]. intros; split; [intros; lia|].
    intros _ _ _ [e He]. discriminate. }
  apply crawl_rounds_step in Hrun
      as (Hw & st1 & futures & st2 & nr & Hdisp & Hround & Hrest); [|simpl; lia].
  apply first_round in Hdisp as [-> ->]; [|lia].
  assert (as_completed 0 [A] = [A]) as Hac.
  { apply Permutation_singleton_r, as_completed_Permutation. }
  rewrite Hac, for_each_cons in Hround.
  inv_bind Hround as [st2' nr'] Hhandle. injection Hround as -> ->.
  assert (crawl_inv max_pages (mkCrawl ({[A]} ∪ ∅) [] 1 [Visited A; Submitted A]) [A])
    as Hinv1.
  { constructor; simpl; try done.
    - apply NoDup_singleton.
    - intros u. rewrite elem_of_union, elem_of_singleton, elem_of_empty.
      intuition.
    - right. lia.
    - apply NoDup_nil_2. }
  destruct (handle_result_inv _ _ _ _ _ _ _ [A] Hhandle) as [Hinv2 Hk2];
    [by left|done|].
  assert (visited st2 = {[A]} ∪ ∅ /\ pages_crawled st2 = 1) as [Hv2 Hp2].
  { by apply handle_result_frame in Hhandle as (? & ? & _). }
  assert (forall u, u ∈ visited st2 <-> u = A) as Hvis2.
  { intros u. rewrite Hv2, elem_of_union, elem_of_singleton, elem_of_empty.
    intuition. }
  split.
  - (* depth 0: the crawl returns after this round *)
    intros Hd0. assert (n = O) as -> by lia. injection Hrest as <-.
    apply Hnone. by rewrite Hvis2.
  - intros resp elapsed l1 a l2 Hget H200 Hlinks Hn Hd.
    (* the loop over the anchors of the start page *)
    assert (exists nr1 nr2,
               for_each (collect_link A A max_pages st2) l1 [] = Ok nr1
               /\ collect_link A A max_pages st2 nr1 a = Ok nr2
               /\ for_each (collect_link A A max_pages st2) l2 nr2 = Ok nr)
      as (nr1 & nr2 & H1 & H2 & H3).
    { unfold handle_result, fetch in Hhandle. rewrite Hget, H200 in Hhandle.
      change (negb (200 =? 200)) with false in Hhandle.
      change (200 =? 200) with true in Hhandle.
      cbv beta iota zeta in Hhandle. inv_bind Hhandle as nr0 Hcollect.
      injection Hhandle as <- <-. rewrite Hlinks in Hcollect.
      rewrite for_each_app in Hcollect. inv_bind Hcollect as nr1 H1.
      rewrite for_each_cons in Hcollect. inv_bind Hcollect as nr2 H2.
      by exists nr1, nr2. }
    clear Hhandle. split.
    + (* depth 1 and more: [B] is in the next round, and is fetched there *)
      intros Hdepth Hroom.
      assert (exists n', n = S n') as [n' ->] by (destruct n; [lia|eauto]).
      assert (exists p s, nr = p ++ B :: s
                          /\ (length p <= length (new_targets A l1))%nat)
        as (p & s & -> & Hp).
      { apply collect_links_ample in H1; [|done|unfold new_targets in Hroom; lia].
        fold (new_targets A l1) in H1. subst nr1.
        apply collect_link_start in H2; [|done].
        destruct (Z.ltb_spec (Z.of_nat (length (new_targets A l1))
                              + pages_crawled st2) max_pages); [|lia].
        destruct (add_target_adds A (new_targets A l1) a B Hn Hd HB)
          as (p & s & Hadd & Hp).
        apply collect_links_grow in H3 as (extra & -> & _).
        exists p, (s ++ extra). rewrite H2, Hadd, <- app_assoc. by split. }
      apply crawl_rounds_step in Hrest
          as (_ & st3 & futures & st4 & nr2' & Hdisp & Hround & Hrest); [|lia].
      pose proof (dispatch_reaches _ _ _ _ _ _ _ _ Hdisp) as HBv.
      destruct (dispatch_inv _ _ _ _ _ _ _ Hinv2 Hdisp) as (new & Hf & Hinv3 & _).
      simpl in Hf; subst futures.
      assert (In B new) as HBnew.
      { destruct Hinv3 as [_ _ Hvis _ _ _ _].
        apply Hvis in HBv as [[<-|[]]|?]%in_app_iff; [done|done|lia]. }
      destruct (handle_results_inv _ _ ([A] ++ new) _ _ _ Hround) as [Hinv4 Hk4];
        [|done|].
      { intros u Hu%as_completed_In. apply in_app_iff. by right. }
      destruct (crawl_rounds_inv _ _ _ _ _ _ _ _ _ Hinv4 Hrest) as [_ Hmono].
      destruct (Dict.get B (results st)) as [e|] eqn:E; [eauto|].
      apply dict_get_None in E. exfalso. apply E, Hmono, Hk4.
      left. by apply as_completed_In.
    + (* [B] is fetched only when the first round has put it into the
         second *)
      intros Hdepth Hfirst Honly HBkey%Hsome.
      assert (In B nr) as HBnr.
      { destruct (in_dec string_dec B nr) as [?|Hnin]; [done|]. exfalso.
        apply (crawl_rounds_unlinked A B _ _ _ _ _ _ _ Hrest Honly);
          [by apply Hvis2|by rewrite Hvis2|done|done]. }
      destruct (Z.ltb_spec (Z.of_nat (length nr1) + pages_crawled st2) max_pages)
        as [Hroom|Hfull].
      * apply collect_links_room in H1; [|done|done].
        fold (new_targets A l1) in H1. subst nr1. lia.
      * exfalso. apply collect_link_start in H2; [|done].
        destruct (Z.ltb_spec (Z.of_nat (length nr1) + pages_crawled st2)
                             max_pages); [lia|]. subst nr2.
        apply collect_links_full in H3; [|done|done]. subst nr.
        destruct (collect_links_from _ _ _ _ _ _ _ Hvis2 H1 HBnr)
          as [[]|(a' & Ha' & Hn')].
        by apply (Hfirst a').
Qed.

End DepthOrdering.

Section DepthOrderingOnSite.
Local Existing Instance Site.checks.
Local Existing Instance MailSite.world.

(** The front page links to a mail address, to a fragment of itself and
    to another site before it links to [/b]: none of these is a new
    address of the site, and a budget of two pages suffices for [/b]. *)
Lemma depth_ordering_witness :
  "http://a.com/b" <> "http://a.com"
  /\ crawl "http://a.com/" 1 2 8
     = Ok (match crawl "http://a.com/" 1 2 8 with Ok m => m | Raise _ => [] end)
  /\ Z.of_nat (length (new_targets "http://a.com"
                         [mkLink (Some "mailto:me@a.com") "mail";
                          mkLink (Some "#top") "top";
                          mkLink (Some "http://other.org/") "out"])) + 2 <= 2
  /\ exists e,
       Dict.get "http://a.com/b"
                (match crawl "http://a.com/" 1 2 8 with Ok m => m | Raise _ => [] end)
       = Some e.
Proof.
  assert (crawl "http://a.com/" 1 2 8
          = Ok (match crawl "http://a.com/" 1 2 8 with Ok m => m | Raise _ => [] end))
    as Hc by (vm_compute; reflexivity).
  assert (Z.of_nat (length (new_targets "http://a.com"
                              [mkLink (Some "mailto:me@a.com") "mail";
                               mkLink (Some "#top") "top";
                               mkLink (Some "http://other.org/") "out"])) + 2 <= 2)
    as Hroom by (vm_compute; discriminate).
  split; [discriminate|]. split; [exact Hc|]. split; [exact Hroom|].
  destruct (depth_ordering "http://a.com/" "http://a.com" "http://a.com/b" 1 2 8 _
              eq_refl ltac:(discriminate) Hc) as [_ Hdeep].
  destruct (Hdeep (mkResponse 200 "front" "http://a.com/" []) 120
              [mkLink (Some "mailto:me@a.com") "mail"; mkLink (Some "#top") "top";
               mkLink (Some "http://other.org/") "out"]
              (mkLink (Some "/b") "see b") []
              ltac:(vm_compute; reflexivity) eq_refl
              ltac:(vm_compute; reflexivity) ltac:(vm_compute; reflexivity)
              ltac:(vm_compute; reflexivity)) as [Hfwd _].
  apply Hfwd; [lia|exact Hroom].
Defined.

End DepthOrderingOnSite.
